(** * iMAGE: the connection store and the media card

    A shallow embedding of the front-end session logic of iMAGE:

    - [Connection]: the Pinia store [useConnectionStore] of
      [src/stores/connection.ts] (two backends, [connectEc2] and
      [connectGithub]);
    - [LegacyConnection]: the earlier single-backend version of the same
      store, whose [connect] derives the first directory from the username;
    - [MediaCard]: the card component that lazily loads a thumbnail, and
      [LegacyMediaCard], the card without thumbnails.

    Every [async] function is embedded as a computation over an explicit
    world (store refs, [localStorage], the log of [invoke] calls, the
    console) that either completes normally or throws.  A call runs to
    completion: interleavings of several calls at their [await] points are
    not modelled.  The Tauri backend behind [invoke] is a parameter: any
    function from the calls made so far and the request to a resolved value
    or a rejection. *)

From Stdlib Require Import ZArith Ascii String DecimalString.
From stdpp Require Import gmap strings list.

Local Open Scope string_scope.
Local Open Scope list_scope.

(** ** JavaScript values used by the store *)

Module JS.

(** [s.startsWith(p)] *)
Definition startsWith (s p : string) : bool := String.prefix p s.

(** [s || d] on strings: the empty string is falsy. *)
Definition str_or (s d : string) : string :=
  match s with
  | EmptyString => d
  | _ => s
  end.

(** [o || d] where [o] may be [undefined] or [null]. *)
Definition opt_or (o : option string) (d : string) : string :=
  match o with
  | Some s => str_or s d
  | None => d
  end.

(** [n || d] on integral numbers: zero is falsy. *)
Definition num_or (n d : Z) : Z := if (n =? 0)%Z then d else n.

(** *** [JSON.stringify] on flat objects of strings and numbers *)

Inductive value : Type :=
| Str (s : string)
| Num (n : Z).

Definition object : Type := list (string * value).

Definition dquote : string := String "034"%char EmptyString.
Definition backslash : string := String "092"%char EmptyString.

Definition hex_digit (n : nat) : ascii :=
  match n with
  | 0 => "0" | 1 => "1" | 2 => "2" | 3 => "3" | 4 => "4" | 5 => "5"
  | 6 => "6" | 7 => "7" | 8 => "8" | 9 => "9" | 10 => "a" | 11 => "b"
  | 12 => "c" | 13 => "d" | 14 => "e" | _ => "f"
  end%char.

(** The characters [JSON.stringify] leaves as they are. *)
Definition plain_char (c : ascii) : bool :=
  let n := nat_of_ascii c in
  negb (Nat.ltb n 32) && negb (Nat.eqb n 34) && negb (Nat.eqb n 92).

Fixpoint plain (s : string) : bool :=
  match s with
  | EmptyString => true
  | String c s' => plain_char c && plain s'
  end.

Definition escape_char (c : ascii) : string :=
  let n := nat_of_ascii c in
  if Nat.eqb n 34 then backslash +:+ dquote
  else if Nat.eqb n 92 then backslash +:+ backslash
  else if Nat.eqb n 8 then backslash +:+ "b"
  else if Nat.eqb n 9 then backslash +:+ "t"
  else if Nat.eqb n 10 then backslash +:+ "n"
  else if Nat.eqb n 12 then backslash +:+ "f"
  else if Nat.eqb n 13 then backslash +:+ "r"
  else if Nat.ltb n 32 then
    backslash +:+ "u00"
      +:+ String (hex_digit (n / 16))
            (String (hex_digit (n mod 16)) EmptyString)
  else String c EmptyString.

Fixpoint escape (s : string) : string :=
  match s with
  | EmptyString => EmptyString
  | String c s' => escape_char c +:+ escape s'
  end.

Definition quote (s : string) : string := dquote +:+ escape s +:+ dquote.

(** Integral numbers print in decimal (JavaScript does so below 1e21). *)
Definition stringify_value (v : value) : string :=
  match v with
  | Str s => quote s
  | Num n => NilZero.string_of_int (Z.to_int n)
  end.

Definition stringify_member (m : string * value) : string :=
  quote (fst m) +:+ ":" +:+ stringify_value (snd m).

Fixpoint stringify_members (ms : list (string * value)) : string :=
  match ms with
  | [] => EmptyString
  | [m] => stringify_member m
  | m :: ms' => stringify_member m +:+ "," +:+ stringify_members ms'
  end.

Definition stringify (o : object) : string :=
  "{" +:+ stringify_members o +:+ "}".

(** [hay.includes(needle)] *)
Fixpoint includes (hay needle : string) : bool :=
  String.prefix needle hay
  || match hay with
     | EmptyString => false
     | String _ hay' => includes hay' needle
     end.

End JS.

(** ** Completions and the world the store runs in *)

Inductive Completion (A : Type) : Type :=
| Normal (a : A)
| Thrown (e : string).
Arguments Normal {A} a.
Arguments Thrown {A} e.

(** A computation over a world [W]; [Thrown e] carries [String(e)]. *)
Definition M (W A : Type) : Type := W -> Completion A * W.

Definition ret {W A} (a : A) : M W A := fun w => (Normal a, w).

Definition throw {W A} (e : string) : M W A := fun w => (Thrown e, w).

Definition bind {W A B} (m : M W A) (k : A -> M W B) : M W B :=
  fun w =>
    match m w with
    | (Normal a, w') => k a w'
    | (Thrown e, w') => (Thrown e, w')
    end.

(** [try { m } catch (e) { h e }] *)
Definition try_catch {W A} (m : M W A) (h : string -> M W A) : M W A :=
  fun w =>
    match m w with
    | (Normal a, w') => (Normal a, w')
    | (Thrown e, w') => h e w'
    end.

(** [try { m } finally { f }], where [f] has no [return] of its own. *)
Definition try_finally {W A} (m : M W A) (f : M W unit) : M W A :=
  fun w =>
    let (r, w') := m w in
    match f w' with
    | (Normal _, w'') => (r, w'')
    | (Thrown e, w'') => (Thrown e, w'')
    end.

Definition modify {W} (f : W -> W) : M W unit := fun w => (Normal tt, f w).

Definition gets {W A} (f : W -> A) : M W A := fun w => (Normal (f w), w).

Declare Scope js_scope.
Delimit Scope js_scope with js.
Notation "'let*' x ':=' m 'in' k" := (bind m (fun x => k))
  (at level 10, x name, m at level 100, k at level 200) : js_scope.
Notation "m ;; k" := (bind m (fun _ => k))
  (at level 100, k at level 200, right associativity) : js_scope.
Local Open Scope js_scope.

(** The world after a computation, and what it completed with. *)
Definition exec {W A} (m : M W A) (w : W) : W := snd (m w).
Definition result {W A} (m : M W A) (w : W) : Completion A := fst (m w).

(** ** Shared data: [FileInfo] and the backend commands *)

Record FileInfo : Type := {
  name : string;
  path : string;
  size : Z;
  isDir : bool;
  modified : option Z;
  mimeType : option string;
  thumbnail : option string;
}.

(** The response of [connect_ec2] and [connect_github]. *)
Record ConnectResponse : Type := {
  success : bool;
  message : string;
  storage_type : option string;
  root_path : option string;
}.

(** A call of [invoke], with the arguments the front end passes. *)
Inductive Command : Type :=
| connect_ec2 (host username pem_content : string) (port : Z)
| connect_github (repo_url username ssh_key_content branch local_path : string)
| list_files (path : string)
| disconnect_session
| get_file_thumbnail (path : string) (maxSize : Z).

Inductive Outcome (A : Type) : Type :=
| Resolved (a : A)
| Rejected (e : string).
Arguments Resolved {A} a.
Arguments Rejected {A} e.

(** What the front end runs against.  Each answer of the backend may
    depend on the calls made before.  [on_setItem] is the browser's
    storage: whether [localStorage.setItem(k, v)] returns or throws (a
    [QuotaExceededError], for one), by the calls made before and by what
    the storage holds. *)
Record Backend : Type := {
  on_connect_ec2 : list Command -> string -> string -> string -> Z
                   -> Outcome ConnectResponse;
  on_connect_github : list Command -> string -> string -> string -> string
                      -> string -> Outcome ConnectResponse;
  on_list_files : list Command -> string -> Outcome (list FileInfo);
  on_disconnect : list Command -> Outcome unit;
  on_get_file_thumbnail : list Command -> string -> Z -> Outcome string;
  on_setItem : list Command -> gmap string string -> string -> string
               -> Outcome unit;
}.

(** [localStorage], the log of backend calls and the console, around the
    refs [S] of a store or a component. *)
Record World (S : Type) : Type := {
  store : S;
  localStorage : gmap string string;
  calls : list Command;
  console : list string;
}.
Arguments store {S} w.
Arguments localStorage {S} w.
Arguments calls {S} w.
Arguments console {S} w.

Definition update {S} (f : S -> S) : M (World S) unit :=
  modify (fun w =>
    {| store := f (store w); localStorage := localStorage w;
       calls := calls w; console := console w |}).

Definition read {S A} (f : S -> A) : M (World S) A :=
  gets (fun w => f (store w)).

(** [localStorage.setItem(k, v)]: the entry is written, or the storage
    throws and is left as it was. *)
Definition setItem {S} (backend : Backend) (k v : string)
  : M (World S) unit :=
  fun w =>
    match on_setItem backend (calls w) (localStorage w) k v with
    | Resolved _ =>
        (Normal tt,
         {| store := store w; localStorage := <[k := v]> (localStorage w);
            calls := calls w; console := console w |})
    | Rejected e => (Thrown e, w)
    end.

(** [localStorage.removeItem(k)] *)
Definition removeItem {S} (k : string) : M (World S) unit :=
  modify (fun w =>
    {| store := store w; localStorage := delete k (localStorage w);
       calls := calls w; console := console w |}).

(** [console.error(label, e)] *)
Definition console_error {S} (label e : string) : M (World S) unit :=
  modify (fun w =>
    {| store := store w; localStorage := localStorage w;
       calls := calls w; console := console w ++ [label +:+ " " +:+ e] |}).

(** [await invoke(c)]: the call is logged, then the backend's outcome for
    it resumes the caller or is thrown into it. *)
Definition invoke {S A} (c : Command) (reply : list Command -> Outcome A)
  : M (World S) A :=
  fun w =>
    let w' := {| store := store w; localStorage := localStorage w;
                 calls := calls w ++ [c]; console := console w |} in
    match reply (calls w) with
    | Resolved a => (Normal a, w')
    | Rejected e => (Thrown e, w')
    end.

(** ** The connection store *)

Module Ec2ConnectionConfig.
Record t : Type := {
  host : string;
  username : string;
  pemContent : string;
  port : Z;
}.
End Ec2ConnectionConfig.

Module GitHubConnectionConfig.
Record t : Type := {
  repoUrl : string;
  username : string;
  sshKeyContent : string;
  branch : string;
  localPath : string;
}.
End GitHubConnectionConfig.

Module Connection.

Inductive StorageType : Type := ec2 | github.

(** The union type, discriminated by its [type] field. *)
Inductive ConnectionConfig : Type :=
| Ec2 (config : Ec2ConnectionConfig.t)
| GitHub (config : GitHubConnectionConfig.t).

Definition type_of (config : ConnectionConfig) : StorageType :=
  match config with
  | Ec2 _ => ec2
  | GitHub _ => github
  end.

(** The properties [JSON.stringify(config)] walks, in declaration order. *)
Definition properties (config : ConnectionConfig) : JS.object :=
  match config with
  | Ec2 c =>
      [ ("type", JS.Str "ec2");
        ("host", JS.Str (Ec2ConnectionConfig.host c));
        ("username", JS.Str (Ec2ConnectionConfig.username c));
        ("pemContent", JS.Str (Ec2ConnectionConfig.pemContent c));
        ("port", JS.Num (Ec2ConnectionConfig.port c)) ]
  | GitHub c =>
      [ ("type", JS.Str "github");
        ("repoUrl", JS.Str (GitHubConnectionConfig.repoUrl c));
        ("username", JS.Str (GitHubConnectionConfig.username c));
        ("sshKeyContent", JS.Str (GitHubConnectionConfig.sshKeyContent c));
        ("branch", JS.Str (GitHubConnectionConfig.branch c));
        ("localPath", JS.Str (GitHubConnectionConfig.localPath c)) ]
  end.

(** The key material a connect request carries. *)
Definition key_material (config : ConnectionConfig) : string :=
  match config with
  | Ec2 c => Ec2ConnectionConfig.pemContent c
  | GitHub c => GitHubConnectionConfig.sshKeyContent c
  end.

(** The refs of the store. *)
Record Store : Type := {
  isConnected : bool;
  isConnecting : bool;
  error : option string;
  savedConfig : option ConnectionConfig;
  currentPath : string;
  files : list FileInfo;
  isLoadingFiles : bool;
  storageType : option StorageType;
  rootPath : string;
  isMediaOnly : bool;
}.

Definition initial : Store := {|
  isConnected := false;
  isConnecting := false;
  error := None;
  savedConfig := None;
  currentPath := "/";
  files := [];
  isLoadingFiles := false;
  storageType := None;
  rootPath := "/";
  isMediaOnly := false;
|}.

Definition set_isConnected (v : bool) (s : Store) : Store :=
  {| isConnected := v; isConnecting := isConnecting s; error := error s;
     savedConfig := savedConfig s; currentPath := currentPath s;
     files := files s; isLoadingFiles := isLoadingFiles s;
     storageType := storageType s; rootPath := rootPath s;
     isMediaOnly := isMediaOnly s |}.

Definition set_isConnecting (v : bool) (s : Store) : Store :=
  {| isConnected := isConnected s; isConnecting := v; error := error s;
     savedConfig := savedConfig s; currentPath := currentPath s;
     files := files s; isLoadingFiles := isLoadingFiles s;
     storageType := storageType s; rootPath := rootPath s;
     isMediaOnly := isMediaOnly s |}.

Definition set_error (v : option string) (s : Store) : Store :=
  {| isConnected := isConnected s; isConnecting := isConnecting s;
     error := v; savedConfig := savedConfig s;
     currentPath := currentPath s; files := files s;
     isLoadingFiles := isLoadingFiles s; storageType := storageType s;
     rootPath := rootPath s; isMediaOnly := isMediaOnly s |}.

Definition set_savedConfig (v : option ConnectionConfig) (s : Store)
  : Store :=
  {| isConnected := isConnected s; isConnecting := isConnecting s;
     error := error s; savedConfig := v; currentPath := currentPath s;
     files := files s; isLoadingFiles := isLoadingFiles s;
     storageType := storageType s; rootPath := rootPath s;
     isMediaOnly := isMediaOnly s |}.

Definition set_currentPath (v : string) (s : Store) : Store :=
  {| isConnected := isConnected s; isConnecting := isConnecting s;
     error := error s; savedConfig := savedConfig s; currentPath := v;
     files := files s; isLoadingFiles := isLoadingFiles s;
     storageType := storageType s; rootPath := rootPath s;
     isMediaOnly := isMediaOnly s |}.

Definition set_files (v : list FileInfo) (s : Store) : Store :=
  {| isConnected := isConnected s; isConnecting := isConnecting s;
     error := error s; savedConfig := savedConfig s;
     currentPath := currentPath s; files := v;
     isLoadingFiles := isLoadingFiles s; storageType := storageType s;
     rootPath := rootPath s; isMediaOnly := isMediaOnly s |}.

Definition set_isLoadingFiles (v : bool) (s : Store) : Store :=
  {| isConnected := isConnected s; isConnecting := isConnecting s;
     error := error s; savedConfig := savedConfig s;
     currentPath := currentPath s; files := files s;
     isLoadingFiles := v; storageType := storageType s;
     rootPath := rootPath s; isMediaOnly := isMediaOnly s |}.

Definition set_storageType (v : option StorageType) (s : Store) : Store :=
  {| isConnected := isConnected s; isConnecting := isConnecting s;
     error := error s; savedConfig := savedConfig s;
     currentPath := currentPath s; files := files s;
     isLoadingFiles := isLoadingFiles s; storageType := v;
     rootPath := rootPath s; isMediaOnly := isMediaOnly s |}.

Definition set_rootPath (v : string) (s : Store) : Store :=
  {| isConnected := isConnected s; isConnecting := isConnecting s;
     error := error s; savedConfig := savedConfig s;
     currentPath := currentPath s; files := files s;
     isLoadingFiles := isLoadingFiles s; storageType := storageType s;
     rootPath := v; isMediaOnly := isMediaOnly s |}.

Definition set_isMediaOnly (v : bool) (s : Store) : Store :=
  {| isConnected := isConnected s; isConnecting := isConnecting s;
     error := error s; savedConfig := savedConfig s;
     currentPath := currentPath s; files := files s;
     isLoadingFiles := isLoadingFiles s; storageType := storageType s;
     rootPath := rootPath s; isMediaOnly := v |}.

(** The [localStorage] key of the persisted connection. *)
Definition storage_key : string := "image-connection".

(** *** Computed properties *)

(** The callback of [files.value.filter] in [filteredFiles]. *)
Definition is_media (file : FileInfo) : bool :=
  if isDir file then true
  else
    let mime := JS.opt_or (mimeType file) "" in
    JS.startsWith mime "image/" || String.eqb mime "video".

Definition filteredFiles (s : Store) : list FileInfo :=
  if negb (isMediaOnly s) then files s
  else List.filter is_media (files s).

Definition albums (s : Store) : list FileInfo :=
  List.filter (fun file => isDir file) (filteredFiles s).

Definition mediaFiles (s : Store) : list FileInfo :=
  List.filter (fun file => negb (isDir file)) (filteredFiles s).

(** *** Actions *)

Section Actions.

Variable backend : Backend.

Definition loadFiles (path : string) : M (World Store) unit :=
  update (set_isLoadingFiles true) ;;
  update (set_currentPath path) ;;
  try_finally
    (try_catch
       (let* result := invoke (list_files path)
                         (fun h => on_list_files backend h path) in
        update (set_files result))
       (fun e => update (set_error (Some e))))
    (update (set_isLoadingFiles false)).

Definition connectEc2 (config : Ec2ConnectionConfig.t)
  : M (World Store) bool :=
  update (set_isConnecting true) ;;
  update (set_error None) ;;
  try_finally
    (try_catch
       (let host := Ec2ConnectionConfig.host config in
        let username := Ec2ConnectionConfig.username config in
        let pem_content := Ec2ConnectionConfig.pemContent config in
        let port := JS.num_or (Ec2ConnectionConfig.port config) 22 in
        let* response :=
          invoke (connect_ec2 host username pem_content port)
            (fun h => on_connect_ec2 backend h host username
                        pem_content port) in
        if success response then
          update (set_isConnected true) ;;
          update (set_savedConfig (Some (Ec2 config))) ;;
          update (set_storageType (Some ec2)) ;;
          update (set_rootPath (JS.opt_or (root_path response) "/")) ;;
          setItem backend storage_key
            (JS.stringify (properties (Ec2 config))) ;;
          let* root := read rootPath in
          loadFiles root ;;
          ret true
        else
          update (set_error (Some (message response))) ;;
          ret false)
       (fun e => update (set_error (Some e)) ;; ret false))
    (update (set_isConnecting false)).

Definition connectGithub (config : GitHubConnectionConfig.t)
  : M (World Store) bool :=
  update (set_isConnecting true) ;;
  update (set_error None) ;;
  try_finally
    (try_catch
       (let repo_url := GitHubConnectionConfig.repoUrl config in
        let username := GitHubConnectionConfig.username config in
        let ssh_key_content :=
          GitHubConnectionConfig.sshKeyContent config in
        let branch :=
          JS.str_or (GitHubConnectionConfig.branch config) "main" in
        let local_path :=
          JS.str_or (GitHubConnectionConfig.localPath config)
            "/tmp/image-repo" in
        let* response :=
          invoke (connect_github repo_url username ssh_key_content
                    branch local_path)
            (fun h => on_connect_github backend h repo_url username
                        ssh_key_content branch local_path) in
        if success response then
          update (set_isConnected true) ;;
          update (set_savedConfig (Some (GitHub config))) ;;
          update (set_storageType (Some github)) ;;
          update (set_rootPath (JS.opt_or (root_path response) "/")) ;;
          setItem backend storage_key
            (JS.stringify (properties (GitHub config))) ;;
          let* root := read rootPath in
          loadFiles root ;;
          ret true
        else
          update (set_error (Some (message response))) ;;
          ret false)
       (fun e => update (set_error (Some e)) ;; ret false))
    (update (set_isConnecting false)).

(** The last two lines of [connect] need a [type] that is neither
    ['ec2'] nor ['github']: no [ConnectionConfig] has one. *)
Definition connect (config : ConnectionConfig) : M (World Store) bool :=
  match config with
  | Ec2 c => connectEc2 c
  | GitHub c => connectGithub c
  end.

Definition disconnect : M (World Store) unit :=
  try_catch
    (invoke disconnect_session (fun h => on_disconnect backend h) ;;
     update (set_isConnected false) ;;
     update (set_files []) ;;
     update (set_currentPath "/") ;;
     update (set_storageType None) ;;
     removeItem storage_key)
    (fun e => console_error "Disconnect error:" e).

Definition toggleMediaOnly : M (World Store) unit :=
  let* v := read isMediaOnly in
  update (set_isMediaOnly (negb v)).

(** What a user of the store can do, and a run of such operations. *)
Inductive Op : Type :=
| DoConnect (config : ConnectionConfig)
| DoLoadFiles (path : string)
| DoDisconnect
| DoToggleMediaOnly.

Definition step (op : Op) (w : World Store) : World Store :=
  match op with
  | DoConnect config => exec (connect config) w
  | DoLoadFiles path => exec (loadFiles path) w
  | DoDisconnect => exec disconnect w
  | DoToggleMediaOnly => exec toggleMediaOnly w
  end.

Definition run (ops : list Op) (w : World Store) : World Store :=
  fold_left (fun w op => step op w) ops w.

End Actions.

(** A fresh store in a browser whose [localStorage] is empty. *)
Definition fresh : World Store :=
  {| store := initial; localStorage := ∅; calls := []; console := [] |}.

End Connection.

(** ** The earlier, single-backend connection store *)

Module LegacyConnection.

(** Its [ConnectionConfig] has the fields of the later
    [Ec2ConnectionConfig] and no [type]. *)
Definition ConnectionConfig : Type := Ec2ConnectionConfig.t.

Definition properties (config : ConnectionConfig) : JS.object :=
  [ ("host", JS.Str (Ec2ConnectionConfig.host config));
    ("username", JS.Str (Ec2ConnectionConfig.username config));
    ("pemContent", JS.Str (Ec2ConnectionConfig.pemContent config));
    ("port", JS.Num (Ec2ConnectionConfig.port config)) ].

Record Store : Type := {
  isConnected : bool;
  isConnecting : bool;
  error : option string;
  savedConfig : option ConnectionConfig;
  currentPath : string;
  files : list FileInfo;
  isLoadingFiles : bool;
  isMediaOnly : bool;
}.

Definition initial : Store := {|
  isConnected := false;
  isConnecting := false;
  error := None;
  savedConfig := None;
  currentPath := "/home";
  files := [];
  isLoadingFiles := false;
  isMediaOnly := false;
|}.

Definition set_isConnected (v : bool) (s : Store) : Store :=
  {| isConnected := v; isConnecting := isConnecting s; error := error s;
     savedConfig := savedConfig s; currentPath := currentPath s;
     files := files s; isLoadingFiles := isLoadingFiles s;
     isMediaOnly := isMediaOnly s |}.

Definition set_isConnecting (v : bool) (s : Store) : Store :=
  {| isConnected := isConnected s; isConnecting := v; error := error s;
     savedConfig := savedConfig s; currentPath := currentPath s;
     files := files s; isLoadingFiles := isLoadingFiles s;
     isMediaOnly := isMediaOnly s |}.

Definition set_error (v : option string) (s : Store) : Store :=
  {| isConnected := isConnected s; isConnecting := isConnecting s;
     error := v; savedConfig := savedConfig s;
     currentPath := currentPath s; files := files s;
     isLoadingFiles := isLoadingFiles s; isMediaOnly := isMediaOnly s |}.

Definition set_savedConfig (v : option ConnectionConfig) (s : Store)
  : Store :=
  {| isConnected := isConnected s; isConnecting := isConnecting s;
     error := error s; savedConfig := v; currentPath := currentPath s;
     files := files s; isLoadingFiles := isLoadingFiles s;
     isMediaOnly := isMediaOnly s |}.

Definition set_currentPath (v : string) (s : Store) : Store :=
  {| isConnected := isConnected s; isConnecting := isConnecting s;
     error := error s; savedConfig := savedConfig s; currentPath := v;
     files := files s; isLoadingFiles := isLoadingFiles s;
     isMediaOnly := isMediaOnly s |}.

Definition set_files (v : list FileInfo) (s : Store) : Store :=
  {| isConnected := isConnected s; isConnecting := isConnecting s;
     error := error s; savedConfig := savedConfig s;
     currentPath := currentPath s; files := v;
     isLoadingFiles := isLoadingFiles s; isMediaOnly := isMediaOnly s |}.

Definition set_isLoadingFiles (v : bool) (s : Store) : Store :=
  {| isConnected := isConnected s; isConnecting := isConnecting s;
     error := error s; savedConfig := savedConfig s;
     currentPath := currentPath s; files := files s;
     isLoadingFiles := v; isMediaOnly := isMediaOnly s |}.

Definition storage_key : string := "ec2-connection".

(** [config.username === 'root' ? '/root' : '/home/' + config.username] *)
Definition home_of (username : string) : string :=
  if String.eqb username "root" then "/root" else "/home/" +:+ username.

Section Actions.

Variable backend : Backend.

Definition loadFiles (path : string) : M (World Store) unit :=
  update (set_isLoadingFiles true) ;;
  update (set_currentPath path) ;;
  try_finally
    (try_catch
       (let* result := invoke (list_files path)
                         (fun h => on_list_files backend h path) in
        update (set_files result))
       (fun e => update (set_error (Some e))))
    (update (set_isLoadingFiles false)).

Definition connect (config : ConnectionConfig) : M (World Store) bool :=
  update (set_isConnecting true) ;;
  update (set_error None) ;;
  try_finally
    (try_catch
       (let host := Ec2ConnectionConfig.host config in
        let username := Ec2ConnectionConfig.username config in
        let pem_content := Ec2ConnectionConfig.pemContent config in
        let port := JS.num_or (Ec2ConnectionConfig.port config) 22 in
        let* response :=
          invoke (connect_ec2 host username pem_content port)
            (fun h => on_connect_ec2 backend h host username
                        pem_content port) in
        if success response then
          update (set_isConnected true) ;;
          update (set_savedConfig (Some config)) ;;
          setItem backend storage_key
            (JS.stringify (properties config)) ;;
          loadFiles (home_of (Ec2ConnectionConfig.username config)) ;;
          ret true
        else
          update (set_error (Some (message response))) ;;
          ret false)
       (fun e => update (set_error (Some e)) ;; ret false))
    (update (set_isConnecting false)).

End Actions.

End LegacyConnection.

(** ** The media card with a lazily loaded thumbnail *)

Module MediaCard.

(** The props and refs of one card instance; [observing] tells whether
    its [IntersectionObserver] is still watching the card. *)
Record Card : Type := {
  file : FileInfo;
  thumbnailLoaded : bool;
  thumbnailUrl : string;
  hasBeenVisible : bool;
  observing : bool;
}.

Definition mount (f : FileInfo) : Card :=
  {| file := f; thumbnailLoaded := false; thumbnailUrl := "";
     hasBeenVisible := false; observing := false |}.

Definition set_thumbnailLoaded (v : bool) (c : Card) : Card :=
  {| file := file c; thumbnailLoaded := v; thumbnailUrl := thumbnailUrl c;
     hasBeenVisible := hasBeenVisible c; observing := observing c |}.

Definition set_thumbnailUrl (v : string) (c : Card) : Card :=
  {| file := file c; thumbnailLoaded := thumbnailLoaded c;
     thumbnailUrl := v; hasBeenVisible := hasBeenVisible c;
     observing := observing c |}.

Definition set_hasBeenVisible (v : bool) (c : Card) : Card :=
  {| file := file c; thumbnailLoaded := thumbnailLoaded c;
     thumbnailUrl := thumbnailUrl c; hasBeenVisible := v;
     observing := observing c |}.

Definition set_observing (v : bool) (c : Card) : Card :=
  {| file := file c; thumbnailLoaded := thumbnailLoaded c;
     thumbnailUrl := thumbnailUrl c;
     hasBeenVisible := hasBeenVisible c; observing := v |}.

(** [mimeType?.startsWith(p)]; [undefined] is falsy wherever it is used. *)
Definition mime_startsWith (f : FileInfo) (p : string) : bool :=
  match mimeType f with
  | Some mime => JS.startsWith mime p
  | None => false
  end.

Definition isImage (c : Card) : bool := mime_startsWith (file c) "image/".
Definition isVideo (c : Card) : bool := mime_startsWith (file c) "video/".

(** [list.forEach(f)] *)
Fixpoint forEach {W A} (l : list A) (f : A -> M W unit) : M W unit :=
  match l with
  | [] => ret tt
  | x :: l' => f x ;; forEach l' f
  end.

Section Component.

Variable backend : Backend.

Definition onThumbnailError : M (World Card) unit :=
  update (set_thumbnailLoaded false).

Definition loadThumbnail : M (World Card) unit :=
  let* image := read isImage in
  let* loaded := read thumbnailLoaded in
  if negb image || loaded then ret tt
  else
    try_catch
      (let* p := read (fun c => path (file c)) in
       let* dataUrl :=
         invoke (get_file_thumbnail p 200)
           (fun h => on_get_file_thumbnail backend h p 200) in
       update (set_thumbnailUrl dataUrl) ;;
       update (set_thumbnailLoaded true))
      (fun _ => update (set_thumbnailLoaded false)).

(** The body of [entries.forEach] in the callback handed to
    [IntersectionObserver]; an entry is its [isIntersecting] flag.  The
    source does not await [loadThumbnail]; here the load completes
    before the observer is disconnected. *)
Definition on_entry (isIntersecting : bool) : M (World Card) unit :=
  let* seen := read hasBeenVisible in
  if isIntersecting && negb seen then
    update (set_hasBeenVisible true) ;;
    loadThumbnail ;;
    update (set_observing false)
  else ret tt.

Definition onIntersect (entries : list bool) : M (World Card) unit :=
  forEach entries on_entry.

(** [onMounted]; [cardRef] tells whether [cardRef.value] is bound. *)
Definition onMounted (cardRef : bool) : M (World Card) unit :=
  let* image := read isImage in
  if negb image then ret tt
  else if cardRef then update (set_observing true)
  else ret tt.

Definition onUnmounted : M (World Card) unit :=
  update (set_observing false).

(** What can happen to a card; [LoadThumbnail] is a direct call of the
    function, which the component itself makes only from the observer
    callback. *)
Inductive Event : Type :=
| Mounted (cardRef : bool)
| Intersection (entries : list bool)
| ThumbnailError
| Unmounted
| LoadThumbnail.

Definition handle (ev : Event) : M (World Card) unit :=
  match ev with
  | Mounted cardRef => onMounted cardRef
  | Intersection entries =>
      let* watching := read observing in
      if watching then onIntersect entries else ret tt
  | ThumbnailError => onThumbnailError
  | Unmounted => onUnmounted
  | LoadThumbnail => loadThumbnail
  end.

Definition run (evs : list Event) (w : World Card) : World Card :=
  fold_left (fun w ev => exec (handle ev) w) evs w.

(** The events the component raises by itself. *)
Definition raised (ev : Event) : bool :=
  match ev with
  | LoadThumbnail => false
  | _ => true
  end.

End Component.


(** The thumbnail requests in a log of backend calls. *)
Definition is_thumbnail_request (c : Command) : bool :=
  match c with
  | get_file_thumbnail _ _ => true
  | _ => false
  end.

Definition thumbnail_requests (log : list Command) : list Command :=
  List.filter is_thumbnail_request log.

End MediaCard.

(** ** The media card without thumbnails *)

Module LegacyMediaCard.

Definition isImage (f : FileInfo) : bool :=
  MediaCard.mime_startsWith f "image/".

(** [props.file.mimeType === 'video'] *)
Definition isVideo (f : FileInfo) : bool :=
  match mimeType f with
  | Some mime => String.eqb mime "video"
  | None => false
  end.

End LegacyMediaCard.

(** ** What [connect] asks of the backend *)

Module Session.
Import Connection.

(** The [invoke] call [connect config] makes. *)
Definition request (config : ConnectionConfig) : Command :=
  match config with
  | Ec2 c =>
      connect_ec2 (Ec2ConnectionConfig.host c)
        (Ec2ConnectionConfig.username c) (Ec2ConnectionConfig.pemContent c)
        (JS.num_or (Ec2ConnectionConfig.port c) 22)
  | GitHub c =>
      connect_github (GitHubConnectionConfig.repoUrl c)
        (GitHubConnectionConfig.username c)
        (GitHubConnectionConfig.sshKeyContent c)
        (JS.str_or (GitHubConnectionConfig.branch c) "main")
        (JS.str_or (GitHubConnectionConfig.localPath c) "/tmp/image-repo")
  end.

(** The backend's outcome for that call after [history]. *)
Definition reply (backend : Backend) (history : list Command)
    (config : ConnectionConfig) : Outcome ConnectResponse :=
  match config with
  | Ec2 c =>
      on_connect_ec2 backend history (Ec2ConnectionConfig.host c)
        (Ec2ConnectionConfig.username c) (Ec2ConnectionConfig.pemContent c)
        (JS.num_or (Ec2ConnectionConfig.port c) 22)
  | GitHub c =>
      on_connect_github backend history (GitHubConnectionConfig.repoUrl c)
        (GitHubConnectionConfig.username c)
        (GitHubConnectionConfig.sshKeyContent c)
        (JS.str_or (GitHubConnectionConfig.branch c) "main")
        (JS.str_or (GitHubConnectionConfig.localPath c) "/tmp/image-repo")
  end.

(** The backend reports success. *)
Definition accepted (backend : Backend) (w : World Store)
    (config : ConnectionConfig) (response : ConnectResponse) : Prop :=
  reply backend (calls w) config = Resolved response
  /\ success response = true.

(** The connect call fails: [success] is false, or [invoke] throws. *)
Definition failed (backend : Backend) (w : World Store)
    (config : ConnectionConfig) (msg : string) : Prop :=
  (exists response, reply backend (calls w) config = Resolved response
                    /\ success response = false
                    /\ message response = msg)
  \/ reply backend (calls w) config = Rejected msg.

(** What [localStorage.setItem] does with the entry of [config], at the
    point where [connect] writes it. *)
Definition storing (backend : Backend) (w : World Store)
    (config : ConnectionConfig) : Outcome unit :=
  on_setItem backend (calls w ++ [request config]) (localStorage w)
    storage_key (JS.stringify (properties config)).

(** The storage takes the entry. *)
Definition stored (backend : Backend) (w : World Store)
    (config : ConnectionConfig) : Prop :=
  storing backend w config = Resolved tt.

(** The storage throws [e] instead. *)
Definition storage_full (backend : Backend) (w : World Store)
    (config : ConnectionConfig) (e : string) : Prop :=
  storing backend w config = Rejected e.

(** Whether the entry under the connection key contains [needle]. *)
Definition persisted_includes (ls : gmap string string) (needle : string)
  : bool :=
  match ls !! storage_key with
  | Some entry => JS.includes entry needle
  | None => false
  end.

(** One session, or none: while connected, [storageType] is the kind of
    the one [savedConfig]; while disconnected there is no [storageType].
    Nothing is asked of [localStorage]: a store that has just been
    created over the entry an earlier run left is coherent. *)
Definition coherent (w : World Store) : Prop :=
  if isConnected (store w) then
    exists config,
      savedConfig (store w) = Some config
      /\ storageType (store w) = Some (type_of config)
  else storageType (store w) = None.

(** While connected, the persisted entry is that of [savedConfig]. *)
Definition synced (w : World Store) : Prop :=
  isConnected (store w) = true ->
  exists config,
    savedConfig (store w) = Some config
    /\ localStorage w !! storage_key
       = Some (JS.stringify (properties config)).

(** A storage that takes every write. *)
Definition roomy (backend : Backend) : Prop :=
  forall history ls k v, on_setItem backend history ls k v = Resolved tt.

End Session.

(** ** Sample configurations and backends *)

Module Samples.
Import Connection.

Definition ubuntu : Ec2ConnectionConfig.t := {|
  Ec2ConnectionConfig.host := "192.168.1.1";
  Ec2ConnectionConfig.username := "ubuntu";
  Ec2ConnectionConfig.pemContent := "dGVzdA==";
  Ec2ConnectionConfig.port := 22;
|}.

Definition repo : GitHubConnectionConfig.t := {|
  GitHubConnectionConfig.repoUrl := "git@github.com:test/repo.git";
  GitHubConnectionConfig.username := "git";
  GitHubConnectionConfig.sshKeyContent := "c2VjcmV0";
  GitHubConnectionConfig.branch := "develop";
  GitHubConnectionConfig.localPath := "/custom/path";
|}.

Definition file (n p : string) (mime : option string) : FileInfo :=
  {| name := n; path := p; size := 100; isDir := false; modified := None;
     mimeType := mime; thumbnail := None |}.

Definition folder (n p : string) : FileInfo :=
  {| name := n; path := p; size := 0; isDir := true; modified := None;
     mimeType := None; thumbnail := None |}.

Definition photo : FileInfo :=
  file "a.jpg" "/home/ubuntu/Pictures/a.jpg" (Some "image/jpeg").
Definition clip : FileInfo :=
  file "video.mp4" "/home/ubuntu/video.mp4" (Some "video/mp4").
Definition bare_clip : FileInfo :=
  file "clip.mov" "/home/ubuntu/clip.mov" (Some "video").
Definition notes : FileInfo :=
  file "notes.txt" "/home/ubuntu/notes.txt" (Some "text/plain").
Definition untyped : FileInfo :=
  file "README" "/home/ubuntu/README" None.
Definition pictures : FileInfo := folder "Pictures" "/home/ubuntu/Pictures".

Definition listing : list FileInfo :=
  [pictures; photo; clip; bare_clip; notes; untyped].

Definition ok (root : option string) : ConnectResponse :=
  {| success := true; message := "Connected"; storage_type := None;
     root_path := root |}.

Definition refusal : ConnectResponse :=
  {| success := false; message := "Connection failed";
     storage_type := None; root_path := None |}.

(** A backend that answers every call the same way. *)
Definition constant (conn : Outcome ConnectResponse)
    (list : Outcome (list FileInfo)) (disc : Outcome unit)
    (thumb : Outcome string) : Backend :=
  {| on_connect_ec2 := fun _ _ _ _ _ => conn;
     on_connect_github := fun _ _ _ _ _ _ => conn;
     on_list_files := fun _ _ => list;
     on_disconnect := fun _ => disc;
     on_get_file_thumbnail := fun _ _ _ => thumb;
     on_setItem := fun _ _ _ _ => Resolved tt |}.

(** Everything works; the host reports [/home/ubuntu]. *)
Definition healthy : Backend :=
  constant (Resolved (ok (Some "/home/ubuntu"))) (Resolved listing)
    (Resolved tt) (Resolved "data:image/jpeg;base64,AAAA").

(** Connects, but reports no root path. *)
Definition rootless : Backend :=
  constant (Resolved (ok None)) (Resolved listing)
    (Resolved tt) (Resolved "data:image/jpeg;base64,AAAA").

(** Refuses every connection. *)
Definition refusing : Backend :=
  constant (Resolved refusal) (Resolved listing)
    (Resolved tt) (Rejected "Error: no session").

(** Every call is rejected. *)
Definition unreachable : Backend :=
  constant (Rejected "Error: Network error")
    (Rejected "Error: Failed to list") (Rejected "Error: Network error")
    (Rejected "Error: Network error").

(** Connects and lists, but cannot close the session. *)
Definition stuck : Backend :=
  constant (Resolved (ok (Some "/home/ubuntu"))) (Resolved listing)
    (Rejected "Error: channel closed")
    (Resolved "data:image/jpeg;base64,AAAA").

(** The host lists [/home/ubuntu]; the repository mirror connects with
    root [/], which cannot be listed. *)
Definition half_broken : Backend :=
  {| on_connect_ec2 := fun _ _ _ _ _ => Resolved (ok (Some "/home/ubuntu"));
     on_connect_github := fun _ _ _ _ _ _ => Resolved (ok (Some "/"));
     on_list_files := fun _ p =>
       if String.eqb p "/home/ubuntu" then Resolved listing
       else Rejected "Error: Failed to list";
     on_disconnect := fun _ => Rejected "Error: channel closed";
     on_get_file_thumbnail := fun _ _ _ => Rejected "Error: no decoder";
     on_setItem := fun _ _ _ _ => Resolved tt |}.

(** [String(e)] of the exception of a full storage; the text after the
    name depends on the browser. *)
Definition quota_error : string := "QuotaExceededError".

(** Everything works, but the browser's storage is full. *)
Definition full : Backend :=
  {| on_connect_ec2 := fun _ _ _ _ _ => Resolved (ok (Some "/home/ubuntu"));
     on_connect_github :=
       fun _ _ _ _ _ _ => Resolved (ok (Some "/home/ubuntu"));
     on_list_files := fun _ _ => Resolved listing;
     on_disconnect := fun _ => Resolved tt;
     on_get_file_thumbnail :=
       fun _ _ _ => Resolved "data:image/jpeg;base64,AAAA";
     on_setItem := fun _ _ _ _ => Rejected quota_error |}.

(** A freshly created card for a file, and the card of the photo at
    the moment the observer callback has marked it visible. *)
Definition card (f : FileInfo) : World MediaCard.Card :=
  {| store := MediaCard.mount f; localStorage := ∅; calls := [];
     console := [] |}.


(** A store connected to the host, as [connectEc2] leaves it. *)
Definition browsing : World Store :=
  exec (connect healthy (Ec2 ubuntu)) fresh.

(** The same, on the backends that later fail. *)
Definition held : World Store :=
  exec (connect stuck (Ec2 ubuntu)) fresh.

Definition hosted : World Store :=
  exec (connect half_broken (Ec2 ubuntu)) fresh.

(** The page reloaded after [browsing]: a new store over the entry the
    earlier run persisted. *)
Definition restarted : World Store :=
  {| store := initial; localStorage := localStorage browsing; calls := [];
     console := [] |}.

End Samples.

(** ** Arrays of strings: [split], [filter(Boolean)], [join], [slice] *)

Module JSArray.

(** [s.split(sep)] for a one-character separator *)
Fixpoint split (sep : ascii) (s : string) : list string :=
  match s with
  | EmptyString => [EmptyString]
  | String c s' =>
      if Ascii.eqb c sep then EmptyString :: split sep s'
      else
        match split sep s' with
        | piece :: pieces => String c piece :: pieces
        | [] => [String c EmptyString]
        end
  end.

(** [Boolean(s)]: the empty string is falsy. *)
Definition truthy (s : string) : bool :=
  match s with
  | EmptyString => false
  | _ => true
  end.

(** [parts.join(sep)] *)
Fixpoint join (sep : string) (parts : list string) : string :=
  match parts with
  | [] => EmptyString
  | [part] => part
  | part :: parts' => part +:+ sep +:+ join sep parts'
  end.

(** A relative index of [slice]: negative ones count from the end, and
    the result is clamped to the array. *)
Definition relative {A} (l : list A) (i : Z) : nat :=
  let len := Z.of_nat (length l) in
  Z.to_nat (if (i <? 0)%Z then Z.max (len + i) 0 else Z.min i len).

(** [l.slice(from, to)] *)
Definition slice {A} (from to : Z) (l : list A) : list A :=
  firstn (relative l to - relative l from) (skipn (relative l from) l).

(** [l.slice(from)] *)
Definition slice_from {A} (from : Z) (l : list A) : list A :=
  skipn (relative l from) l.

(** No character of [s] is [sep]. *)
Fixpoint free_of (sep : ascii) (s : string) : bool :=
  match s with
  | EmptyString => true
  | String c s' => negb (Ascii.eqb c sep) && free_of sep s'
  end.

(** [l[i]], [None] standing for [undefined] *)
Definition at_index {A} (l : list A) (i : Z) : option A :=
  if (i <? 0)%Z then None else nth_error l (Z.to_nat i).

End JSArray.

(** ** The router and its navigation guard *)

Module Router.

(** The query of the viewer route; [index] is kept as the integer whose
    decimal text [index.toString()] writes and [parseInt] reads back. *)
Record Query : Type := {
  file : option string;
  type : option string;
  name : option string;
  index : option Z;
}.

Inductive Route : Type :=
| login
| gallery
| viewer (query : Query).

(** [meta.requiresConnection] *)
Definition requiresConnection (to : Route) : bool :=
  match to with
  | login => false
  | gallery => true
  | viewer _ => true
  end.

Definition is_login (to : Route) : bool :=
  match to with
  | login => true
  | _ => false
  end.

(** What the guard passes to [next]. *)
Inductive Verdict : Type :=
| proceed
| redirect (to : Route).

(** [router.beforeEach] *)
Definition beforeEach (to : Route) (isConnected : bool) : Verdict :=
  if requiresConnection to && negb isConnected then redirect login
  else if is_login to && isConnected then redirect gallery
  else proceed.

(** A navigation: a redirect is a navigation of its own, guarded again.
    [None] when the redirects do not settle within [fuel] navigations. *)
Fixpoint navigate (fuel : nat) (to : Route) (isConnected : bool)
  : option Route :=
  match fuel with
  | O => None
  | S fuel' =>
      match beforeEach to isConnected with
      | proceed => Some to
      | redirect to' => navigate fuel' to' isConnected
      end
  end.

End Router.

(** ** Views: a component's refs beside the store and the current route *)

Record View (R : Type) : Type := {
  connectionStore : Connection.Store;
  route : Router.Route;
  refs : R;
}.
Arguments connectionStore {R} v.
Arguments route {R} v.
Arguments refs {R} v.

Definition set_connectionStore {R} (s : Connection.Store) (v : View R)
  : View R :=
  {| connectionStore := s; route := route v; refs := refs v |}.

Definition set_route {R} (r : Router.Route) (v : View R) : View R :=
  {| connectionStore := connectionStore v; route := r; refs := refs v |}.

Definition set_refs {R} (f : R -> R) (v : View R) : View R :=
  {| connectionStore := connectionStore v; route := route v;
     refs := f (refs v) |}.

(** The store's world inside a view's world, and back. *)
Definition session {R} (w : World (View R)) : World Connection.Store :=
  {| store := connectionStore (store w); localStorage := localStorage w;
     calls := calls w; console := console w |}.

Definition resume {R} (w' : World Connection.Store) (w : World (View R))
  : World (View R) :=
  {| store := set_connectionStore (store w') (store w);
     localStorage := localStorage w'; calls := calls w';
     console := console w' |}.

(** A store action, called from a view. *)
Definition on_store {R A} (m : M (World Connection.Store) A)
  : M (World (View R)) A :=
  fun w => let (r, w') := m (session w) in (r, resume w' w).

(** [router.push(to)] and [router.replace(to)]: the route becomes what the
    guarded navigation settles on (it settles within three navigations). *)
Definition push {R} (to : Router.Route) : M (World (View R)) unit :=
  let* connected := read (fun v => Connection.isConnected (connectionStore v)) in
  match Router.navigate 3 to connected with
  | Some settled => update (set_route settled)
  | None => ret tt
  end.

(** ** The gallery view *)

Module Gallery.

Record Refs : Type := {
  showAllParts : bool;
  isLoading : bool;
}.

Definition set_showAllParts (v : bool) (r : Refs) : Refs :=
  {| showAllParts := v; isLoading := isLoading r |}.

Definition set_isLoading (v : bool) (r : Refs) : Refs :=
  {| showAllParts := showAllParts r; isLoading := v |}.

Definition setup : Refs := {| showAllParts := false; isLoading := false |}.

(** [currentPath.split('/').filter(Boolean)] *)
Definition parts_of (currentPath : string) : list string :=
  List.filter JSArray.truthy (JSArray.split "/" currentPath).

Definition currentPathParts (v : View Refs) : list string :=
  parts_of (Connection.currentPath (connectionStore v)).

Definition maxVisibleParts : Z := 4.

Definition hasHiddenParts (v : View Refs) : bool :=
  (Z.of_nat (length (currentPathParts v)) >? maxVisibleParts)%Z
  && negb (showAllParts (refs v)).

Definition visiblePathParts (v : View Refs) : list string :=
  if showAllParts (refs v)
     || (Z.of_nat (length (currentPathParts v)) <=? maxVisibleParts)%Z
  then currentPathParts v
  else JSArray.slice_from (- maxVisibleParts) (currentPathParts v).

(** [file.mimeType?.startsWith(p)] *)
Definition mime_startsWith (f : FileInfo) (p : string) : bool :=
  match mimeType f with
  | Some mime => JS.startsWith mime p
  | None => false
  end.

(** The condition under which [openFile] opens the viewer. *)
Definition opens (f : FileInfo) : bool :=
  mime_startsWith f "image/" || mime_startsWith f "video/".

(** What the [main] element of the template shows. *)
Inductive Content : Type :=
| loading
| error_state (msg : string)
| empty
| listing (albums mediaFiles : list FileInfo).

Definition content (v : View Refs) : Content :=
  let s := connectionStore v in
  if Connection.isLoadingFiles s then loading
  else
    match Connection.error s with
    | Some (String c msg) => error_state (String c msg)
    | _ =>
        if (length (Connection.albums s) =? 0)%nat
           && (length (Connection.mediaFiles s) =? 0)%nat
        then empty
        else listing (Connection.albums s) (Connection.mediaFiles s)
    end.

Section Handlers.

Variable backend : Backend.

(** The handlers below do not await [loadFiles]; here the listing
    completes before the handler goes on. *)
Definition goToRoot : M (World (View Refs)) unit :=
  let* root := read (fun v => Connection.rootPath (connectionStore v)) in
  on_store (Connection.loadFiles backend root) ;;
  update (set_refs (set_showAllParts false)).

Definition navigateToPath (index : Z) : M (World (View Refs)) unit :=
  let* hidden := read hasHiddenParts in
  let* parts := read currentPathParts in
  let actualIndex :=
    if hidden then (Z.of_nat (length parts) - maxVisibleParts + index)%Z
    else index in
  let path := "/" +:+ JSArray.join "/" (JSArray.slice 0 (actualIndex + 1) parts) in
  on_store (Connection.loadFiles backend path) ;;
  update (set_refs (set_showAllParts false)).

Definition openAlbum (album : FileInfo) : M (World (View Refs)) unit :=
  on_store (Connection.loadFiles backend (path album)) ;;
  update (set_refs (set_showAllParts false)).

Definition openFile (f : FileInfo) (index : Z) : M (World (View Refs)) unit :=
  if opens f then
    push (Router.viewer
            {| Router.file := Some (path f); Router.type := mimeType f;
               Router.name := Some (name f); Router.index := Some index |})
  else ret tt.

Definition refreshFiles : M (World (View Refs)) unit :=
  let* busy := read (fun v => isLoading (refs v)) in
  if busy then ret tt
  else
    update (set_refs (set_isLoading true)) ;;
    (let* current :=
       read (fun v => Connection.currentPath (connectionStore v)) in
     on_store (Connection.loadFiles backend current)) ;;
    update (set_refs (set_isLoading false)).

Definition handleLogout : M (World (View Refs)) unit :=
  on_store (Connection.disconnect backend) ;;
  push Router.login.

(** The ellipsis button of the breadcrumb: [showAllParts = true]. *)
Definition showAll : M (World (View Refs)) unit :=
  update (set_refs (set_showAllParts true)).

End Handlers.

(** The gallery as the router shows it for a store world. *)
Definition open (w : World Connection.Store) : World (View Refs) :=
  {| store := {| connectionStore := store w; route := Router.gallery;
                 refs := setup |};
     localStorage := localStorage w; calls := calls w;
     console := console w |}.

End Gallery.

(** ** The earlier gallery view *)

Module LegacyGallery.

(** [file.mimeType?.startsWith('image/') || file.mimeType === 'video'] *)
Definition opens (f : FileInfo) : bool :=
  Gallery.mime_startsWith f "image/" || LegacyMediaCard.isVideo f.

End LegacyGallery.

(** ** The login view *)

Module Login.

(** The two forms hold the fields of the two configs. *)
Record Refs : Type := {
  storageType : Connection.StorageType;
  ec2Form : Ec2ConnectionConfig.t;
  githubForm : GitHubConnectionConfig.t;
}.

Definition setup : Refs := {|
  storageType := Connection.ec2;
  ec2Form := {| Ec2ConnectionConfig.host := "";
                Ec2ConnectionConfig.username := "";
                Ec2ConnectionConfig.pemContent := "";
                Ec2ConnectionConfig.port := 22 |};
  githubForm := {| GitHubConnectionConfig.repoUrl := "";
                   GitHubConnectionConfig.username := "git";
                   GitHubConnectionConfig.sshKeyContent := "";
                   GitHubConnectionConfig.branch := "main";
                   GitHubConnectionConfig.localPath := "/tmp/image-repo" |};
|}.

(** [isFormValid]: the three required fields of the chosen form are
    truthy. *)
Definition isFormValid (r : Refs) : bool :=
  match storageType r with
  | Connection.ec2 =>
      JSArray.truthy (Ec2ConnectionConfig.host (ec2Form r))
      && JSArray.truthy (Ec2ConnectionConfig.username (ec2Form r))
      && JSArray.truthy (Ec2ConnectionConfig.pemContent (ec2Form r))
  | Connection.github =>
      JSArray.truthy (GitHubConnectionConfig.repoUrl (githubForm r))
      && JSArray.truthy (GitHubConnectionConfig.username (githubForm r))
      && JSArray.truthy (GitHubConnectionConfig.sshKeyContent (githubForm r))
  end.

(** The config [handleConnect] builds from the chosen form. *)
Definition config_of (r : Refs) : Connection.ConnectionConfig :=
  match storageType r with
  | Connection.ec2 =>
      Connection.Ec2
        {| Ec2ConnectionConfig.host := Ec2ConnectionConfig.host (ec2Form r);
           Ec2ConnectionConfig.username :=
             Ec2ConnectionConfig.username (ec2Form r);
           Ec2ConnectionConfig.pemContent :=
             Ec2ConnectionConfig.pemContent (ec2Form r);
           Ec2ConnectionConfig.port :=
             JS.num_or (Ec2ConnectionConfig.port (ec2Form r)) 22 |}
  | Connection.github =>
      Connection.GitHub
        {| GitHubConnectionConfig.repoUrl :=
             GitHubConnectionConfig.repoUrl (githubForm r);
           GitHubConnectionConfig.username :=
             GitHubConnectionConfig.username (githubForm r);
           GitHubConnectionConfig.sshKeyContent :=
             GitHubConnectionConfig.sshKeyContent (githubForm r);
           GitHubConnectionConfig.branch :=
             JS.str_or (GitHubConnectionConfig.branch (githubForm r)) "main";
           GitHubConnectionConfig.localPath :=
             JS.str_or (GitHubConnectionConfig.localPath (githubForm r))
               "/tmp/image-repo" |}
  end.

(** [savedConfigDescription] *)
Definition savedConfigDescription (v : View Refs) : string :=
  match Connection.savedConfig (connectionStore v) with
  | None => ""
  | Some (Connection.Ec2 c) =>
      Ec2ConnectionConfig.username c +:+ "@" +:+ Ec2ConnectionConfig.host c
  | Some (Connection.GitHub c) => GitHubConnectionConfig.repoUrl c
  end.

Section Handlers.

Variable backend : Backend.

Definition handleConnect : M (World (View Refs)) unit :=
  let* config := read (fun v => config_of (refs v)) in
  let* success := on_store (Connection.connect backend config) in
  if success then push Router.gallery else ret tt.

Definition useSavedConnection : M (World (View Refs)) unit :=
  let* saved :=
    read (fun v => Connection.savedConfig (connectionStore v)) in
  match saved with
  | Some config =>
      let* success := on_store (Connection.connect backend config) in
      if success then push Router.gallery else ret tt
  | None => ret tt
  end.

End Handlers.

(** The login page as the router shows it for a store world. *)
Definition open (r : Refs) (w : World Connection.Store)
  : World (View Refs) :=
  {| store := {| connectionStore := store w; route := Router.login;
                 refs := r |};
     localStorage := localStorage w; calls := calls w;
     console := console w |}.

End Login.

(** ** The viewer *)

Module Viewer.

(** The refs of the viewer that its loading logic uses, with the log of
    the paths read from the backend.  The zoom and pan refs hold
    floating-point numbers and are left out: the handlers that write them
    touch no ref modelled here. *)
Record Refs : Type := {
  isLoading : bool;
  error : string;
  fileData : string;
  fileInfo : option FileInfo;
  listening : bool;
  reads : list string;
}.

Definition setup : Refs := {|
  isLoading := true; error := ""; fileData := ""; fileInfo := None;
  listening := false; reads := [];
|}.

Definition set_isLoading (v : bool) (r : Refs) : Refs :=
  {| isLoading := v; error := error r; fileData := fileData r;
     fileInfo := fileInfo r; listening := listening r; reads := reads r |}.

Definition set_error (v : string) (r : Refs) : Refs :=
  {| isLoading := isLoading r; error := v; fileData := fileData r;
     fileInfo := fileInfo r; listening := listening r; reads := reads r |}.

Definition set_fileData (v : string) (r : Refs) : Refs :=
  {| isLoading := isLoading r; error := error r; fileData := v;
     fileInfo := fileInfo r; listening := listening r; reads := reads r |}.

Definition set_fileInfo (v : option FileInfo) (r : Refs) : Refs :=
  {| isLoading := isLoading r; error := error r; fileData := fileData r;
     fileInfo := v; listening := listening r; reads := reads r |}.

Definition set_listening (v : bool) (r : Refs) : Refs :=
  {| isLoading := isLoading r; error := error r; fileData := fileData r;
     fileInfo := fileInfo r; listening := v; reads := reads r |}.

Definition log_read (p : string) (r : Refs) : Refs :=
  {| isLoading := isLoading r; error := error r; fileData := fileData r;
     fileInfo := fileInfo r; listening := listening r;
     reads := reads r ++ [p] |}.

(** [route.query] *)
Definition query (v : View Refs) : Router.Query :=
  match route v with
  | Router.viewer q => q
  | _ => {| Router.file := None; Router.type := None; Router.name := None;
            Router.index := None |}
  end.

Definition filePath (v : View Refs) : option string := Router.file (query v).
Definition fileType (v : View Refs) : option string := Router.type (query v).

(** [route.query.name as string || 'Unknown'] *)
Definition fileName (v : View Refs) : string :=
  JS.opt_or (Router.name (query v)) "Unknown".

(** [parseInt(route.query.index) || 0] *)
Definition fileIndex (v : View Refs) : Z :=
  match Router.index (query v) with
  | Some i => i
  | None => 0%Z
  end.

Definition type_startsWith (v : View Refs) (p : string) : bool :=
  match fileType v with
  | Some t => JS.startsWith t p
  | None => false
  end.

Definition isImage (v : View Refs) : bool := type_startsWith v "image/".
Definition isVideo (v : View Refs) : bool := type_startsWith v "video/".

Definition hasNavigation (v : View Refs) : bool :=
  (1 <? length (Connection.mediaFiles (connectionStore v)))%nat.

(** What the [main] element of the template shows. *)
Inductive Shown : Type :=
| spinner
| failure (msg : string)
| image (src : string)
| video (src : string)
| unsupported.

Definition shown (v : View Refs) : Shown :=
  if isLoading (refs v) then spinner
  else if JSArray.truthy (error (refs v)) then failure (error (refs v))
  else if isImage v then image (fileData (refs v))
  else if isVideo v then video (fileData (refs v))
  else unsupported.

(** [String(e)] of the [TypeError] a property read on [undefined] raises;
    its text depends on the engine. *)
Definition type_error : string := "TypeError".

(** A query value inside a template literal: its text, or ['undefined']
    for a missing one. *)
Definition interpolate (o : option string) : string :=
  match o with
  | Some t => t
  | None => "undefined"
  end.

Section Component.

(** [invoke('read_file', { path })], by the paths read before. *)
Variable read_file : list string -> string -> Outcome string.

(** [getVideoMimeType()] by file name.  It is not modelled: what is proved
    holds whatever it returns. *)
Variable getVideoMimeType : string -> string.

Definition change (f : Refs -> Refs) : M (World (View Refs)) unit :=
  update (set_refs f).

Definition invoke_read_file (p : string) : M (World (View Refs)) string :=
  let* before := read (fun v => reads (refs v)) in
  change (log_read p) ;;
  match read_file before p with
  | Resolved data => ret data
  | Rejected e => throw e
  end.

(** [mediaFiles.find(f => f.path === p)] *)
Definition find_file (p : string) (l : list FileInfo) : option FileInfo :=
  List.find (fun f => String.eqb (path f) p) l.

Definition onMounted : M (World (View Refs)) unit :=
  let* p := read filePath in
  match p with
  | None | Some EmptyString =>
      change (set_error "No file specified") ;;
      change (set_isLoading false)
  | Some p =>
      try_catch
        (let* base64Data := invoke_read_file p in
         let* v := read (fun v => v) in
         (if isImage v then
            change (set_fileData
                      ("data:" +:+ interpolate (fileType v)
                       +:+ ";base64," +:+ base64Data))
          else if isVideo v then
            change (set_fileData
                      ("data:" +:+ getVideoMimeType (fileName v)
                       +:+ ";base64," +:+ base64Data))
          else ret tt) ;;
         match find_file p (Connection.mediaFiles (connectionStore v)) with
         | Some foundFile => change (set_fileInfo (Some foundFile))
         | None =>
             change (set_fileInfo
                       (Some {| name := fileName v; path := p; size := 0;
                                isDir := false; modified := None;
                                mimeType := fileType v;
                                thumbnail := None |}))
         end)
        (fun e => change (set_error e) ;; change (set_isLoading false)) ;;
      change (set_listening true)
  end.

Definition onImageLoad : M (World (View Refs)) unit :=
  change (set_isLoading false).

Definition onImageError : M (World (View Refs)) unit :=
  change (set_isLoading false) ;;
  change (set_error "Failed to load image").

Definition onVideoError : M (World (View Refs)) unit :=
  change (set_isLoading false) ;;
  change (set_error "Failed to load video").

(** [@loadeddata="isLoading = false"] *)
Definition onVideoLoaded : M (World (View Refs)) unit :=
  change (set_isLoading false).

(** [router.replace] to the viewer route of [files[i]], or the
    [TypeError] of reading [path] on [undefined]. *)
Definition replace_with (files : list FileInfo) (i : Z)
  : M (World (View Refs)) unit :=
  match JSArray.at_index files i with
  | Some f =>
      push (Router.viewer
              {| Router.file := Some (path f); Router.type := mimeType f;
                 Router.name := Some (name f); Router.index := Some i |})
  | None => throw type_error
  end.

Definition navigatePrev : M (World (View Refs)) unit :=
  let* v := read (fun v => v) in
  if negb (hasNavigation v) then ret tt
  else
    let files := Connection.mediaFiles (connectionStore v) in
    let currentIndex := fileIndex v in
    let prevIndex :=
      if (currentIndex >? 0)%Z then (currentIndex - 1)%Z
      else (Z.of_nat (length files) - 1)%Z in
    replace_with files prevIndex.

Definition navigateNext : M (World (View Refs)) unit :=
  let* v := read (fun v => v) in
  if negb (hasNavigation v) then ret tt
  else
    let files := Connection.mediaFiles (connectionStore v) in
    let currentIndex := fileIndex v in
    let nextIndex :=
      if (currentIndex <? Z.of_nat (length files) - 1)%Z
      then (currentIndex + 1)%Z
      else 0%Z in
    replace_with files nextIndex.

(** What can happen to a mounted viewer.  The events of the [img] and
    [video] elements can only come while the template renders them. *)
Inductive Event : Type :=
| ImageLoad
| ImageError
| VideoLoaded
| VideoError
| Prev
| Next.

Definition enabled (ev : Event) (v : View Refs) : bool :=
  match ev, shown v with
  | (ImageLoad | ImageError), image _ => true
  | (VideoLoaded | VideoError), video _ => true
  | (Prev | Next), _ => true
  | _, _ => false
  end.

Definition handle (ev : Event) : M (World (View Refs)) unit :=
  let* v := read (fun v => v) in
  if negb (enabled ev v) then ret tt
  else
    match ev with
    | ImageLoad => onImageLoad
    | ImageError => onImageError
    | VideoLoaded => onVideoLoaded
    | VideoError => onVideoError
    | Prev => navigatePrev
    | Next => navigateNext
    end.

Definition run (evs : list Event) (w : World (View Refs))
  : World (View Refs) :=
  fold_left (fun w ev => exec (handle ev) w) evs w.

End Component.

(** The viewer as the router shows it for a store world and a query. *)
Definition open (q : Router.Query) (w : World Connection.Store)
  : World (View Refs) :=
  {| store := {| connectionStore := store w; route := Router.viewer q;
                 refs := setup |};
     localStorage := localStorage w; calls := calls w;
     console := console w |}.

End Viewer.

(** ** Vocabulary for statements about runs *)

Module Runs.

(** Operations other than [connect]. *)
Definition connect_free (op : Connection.Op) : bool :=
  match op with
  | Connection.DoConnect _ => false
  | _ => true
  end.

(** A connect request as the backend never sees it otherwise: with a
    port, and for the mirror a branch and a staging path. *)
Definition complete_request (c : Command) : bool :=
  match c with
  | connect_ec2 _ _ _ port => negb (port =? 0)%Z
  | connect_github _ _ _ branch local_path =>
      JSArray.truthy branch && JSArray.truthy local_path
  | _ => true
  end.

(** Card events that show the card no intersecting entry and do not call
    [loadThumbnail] directly. *)
Definition out_of_sight (ev : MediaCard.Event) : bool :=
  match ev with
  | MediaCard.Intersection entries => forallb negb entries
  | MediaCard.LoadThumbnail => false
  | _ => true
  end.

End Runs.

(** ** More samples *)

Module Scenes.

(** The gallery six folders deep, as the router shows it. *)
Definition deep : World (View Gallery.Refs) :=
  Gallery.open
    (exec (Connection.loadFiles Samples.healthy "/a/b/c/d/e/f")
       Samples.browsing).

(** The gallery on the host's home directory, with the filter on. *)
Definition filtered : World (View Gallery.Refs) :=
  Gallery.open (exec Connection.toggleMediaOnly Samples.browsing).

(** The gallery on a session the backend cannot close. *)
Definition held : World (View Gallery.Refs) := Gallery.open Samples.held.

End Scenes.

(** ** The placeholder colour of a card *)

Module CardColor.

Definition colors : list string :=
  [ "#667eea"; "#764ba2"; "#f093fb"; "#f5576c";
    "#4facfe"; "#00f2fe"; "#43e97b"; "#38f9d7";
    "#fa709a"; "#fee140"; "#30cfd0"; "#330867" ].

(** [name.charCodeAt(0)]: [None] stands for [NaN].  Strings are taken to
    consist of code units below 256, as everywhere here. *)
Definition charCodeAt0 (s : string) : option nat :=
  match s with
  | EmptyString => None
  | String c _ => Some (nat_of_ascii c)
  end.

(** [getRandomColor()]; [None] stands for [undefined], which is what
    [colors[NaN]] is. *)
Definition getRandomColor (f : FileInfo) : option string :=
  match charCodeAt0 (name f) with
  | Some code => nth_error colors (code mod length colors)
  | None => None
  end.

End CardColor.

Module Scenes2.

(** The login page after a session on the host was closed. *)
Definition returning : World (View Login.Refs) :=
  Login.open Login.setup
    (exec (Connection.disconnect Samples.healthy) Samples.browsing).

(** A filled-in host form that leaves the port empty. *)
Definition host_form : Login.Refs := {|
  Login.storageType := Connection.ec2;
  Login.ec2Form := {| Ec2ConnectionConfig.host := "192.168.1.1";
                      Ec2ConnectionConfig.username := "ubuntu";
                      Ec2ConnectionConfig.pemContent := "dGVzdA==";
                      Ec2ConnectionConfig.port := 0 |};
  Login.githubForm := Login.githubForm Login.setup;
|}.

(** The query [openFile] writes for the [i]-th media file. *)
Definition query_of (f : FileInfo) (i : Z) : Router.Query :=
  {| Router.file := Some (path f); Router.type := mimeType f;
     Router.name := Some (name f); Router.index := Some i |}.

(** The viewer on the photo, the first of the host's media files. *)
Definition viewing : World (View Viewer.Refs) :=
  Viewer.open (query_of Samples.photo 0) Samples.browsing.

(** A backend file store that has every file, and one that has none. *)
Definition readable : list string -> string -> Outcome string :=
  fun _ _ => Resolved "AAAA".

Definition unreadable : list string -> string -> Outcome string :=
  fun _ _ => Rejected "Error: No such file".

End Scenes2.
(** * Facts about the embedding *)

(** ** Strings and [JSON.stringify] *)

Section StringFacts.

Lemma prefix_append_r (p s t : string) :
  String.prefix p s = true -> String.prefix p (s +:+ t) = true.
Proof.
  revert s. induction p as [|c p IH]; intros s.
  { intros _. now destruct (s +:+ t). }
  destruct s as [|d s]; [discriminate|].
  change (String d s +:+ t) with (String d (s +:+ t)).
  cbn [String.prefix]. destruct (ascii_dec c d); [apply IH | discriminate].
Qed.

Lemma prefix_refl (p : string) : String.prefix p p = true.
Proof.
  induction p as [|c p IH]; [reflexivity|].
  cbn [String.prefix]. destruct (ascii_dec c c); [exact IH | congruence].
Qed.

Lemma includes_cons (c : ascii) (hay needle : string) :
  JS.includes (String c hay) needle
  = String.prefix needle (String c hay) || JS.includes hay needle.
Proof. reflexivity. Qed.

Lemma includes_here (hay needle : string) :
  String.prefix needle hay = true -> JS.includes hay needle = true.
Proof.
  intros H. destruct hay; [|rewrite includes_cons]; cbn [JS.includes];
    rewrite H; reflexivity.
Qed.

Lemma includes_append_r (s t needle : string) :
  JS.includes s needle = true -> JS.includes (s +:+ t) needle = true.
Proof.
  induction s as [|c s IH]; intros H.
  - cbn [JS.includes] in H. rewrite orb_false_r in H.
    apply includes_here. now apply (prefix_append_r needle "" t).
  - rewrite includes_cons in H.
    change (String c s +:+ t) with (String c (s +:+ t)).
    rewrite includes_cons.
    apply orb_true_iff in H as [H|H].
    + change (String c (s +:+ t)) with (String c s +:+ t).
      now rewrite (prefix_append_r _ _ _ H).
    + rewrite (IH H). apply orb_true_r.
Qed.

Lemma includes_append_l (s t needle : string) :
  JS.includes t needle = true -> JS.includes (s +:+ t) needle = true.
Proof.
  intros H. induction s as [|c s IH]; [exact H|].
  change (String c s +:+ t) with (String c (s +:+ t)).
  rewrite includes_cons, IH. apply orb_true_r.
Qed.

Lemma includes_refl (s : string) : JS.includes s s = true.
Proof. apply includes_here, prefix_refl. Qed.

Lemma escape_char_plain (c : ascii) :
  JS.plain_char c = true -> JS.escape_char c = String c EmptyString.
Proof.
  unfold JS.plain_char, JS.escape_char. cbv zeta.
  generalize (nat_of_ascii c). intros n H.
  apply andb_true_iff in H as [H H92].
  apply andb_true_iff in H as [H32 H34].
  apply negb_true_iff in H32, H34, H92.
  rewrite H34, H92, H32.
  apply Nat.ltb_ge in H32.
  repeat match goal with
         | |- context [Nat.eqb n ?k] =>
             destruct (Nat.eqb_spec n k); [lia|]
         end.
  reflexivity.
Qed.

(** Text without quotes, backslashes and control characters (base64
    text, for one) is serialised verbatim. *)
Lemma escape_plain (s : string) : JS.plain s = true -> JS.escape s = s.
Proof.
  induction s as [|c s IH]; [reflexivity|].
  cbn [JS.plain JS.escape]. intros H.
  apply andb_true_iff in H as [Hc Hs].
  now rewrite (escape_char_plain c Hc), (IH Hs).
Qed.

Lemma quote_includes (s : string) :
  JS.plain s = true -> JS.includes (JS.quote s) s = true.
Proof.
  intros H. unfold JS.quote. rewrite (escape_plain s H).
  apply includes_append_l, includes_append_r, includes_refl.
Qed.

Lemma stringify_members_includes (o : JS.object) (k v needle : string) :
  In (k, JS.Str v) o ->
  JS.includes (JS.quote v) needle = true ->
  JS.includes (JS.stringify_members o) needle = true.
Proof.
  intros Hin Hv. induction o as [|m o IH]; [easy|].
  destruct Hin as [->|Hin].
  - assert (Hm : JS.includes (JS.stringify_member (k, JS.Str v)) needle
                 = true).
    { unfold JS.stringify_member. cbn [fst snd JS.stringify_value].
      now do 2 apply includes_append_l. }
    destruct o; cbn [JS.stringify_members];
      [exact Hm | now apply includes_append_r].
  - specialize (IH Hin). destruct o as [|m' o]; [easy|].
    change (JS.stringify_members (m :: m' :: o))
      with (JS.stringify_member m +:+ "," +:+
            JS.stringify_members (m' :: o)).
    now do 2 apply includes_append_l.
Qed.

(** A string property of a serialised object is in the text, quoted. *)
Lemma stringify_includes (o : JS.object) (k v needle : string) :
  In (k, JS.Str v) o ->
  JS.includes (JS.quote v) needle = true ->
  JS.includes (JS.stringify o) needle = true.
Proof.
  intros Hin Hv. unfold JS.stringify.
  apply includes_append_l, includes_append_r.
  now apply stringify_members_includes with k v.
Qed.

End StringFacts.

(** ** The connection store, action by action *)

Section ConnectionFacts.

Import Connection Session.

Variable backend : Backend.

Ltac reduce :=
  cbn [fst snd store localStorage calls console
       isConnected isConnecting error savedConfig currentPath files
       isLoadingFiles storageType rootPath isMediaOnly
       set_isConnected set_isConnecting set_error set_savedConfig
       set_currentPath set_files set_isLoadingFiles set_storageType
       set_rootPath set_isMediaOnly type_of request reply] in *.

Ltac open_storing :=
  unfold stored, storage_full, storing in *; reduce.

Ltac run_action :=
  unfold exec, result, connect, connectEc2, connectGithub, loadFiles,
    disconnect, toggleMediaOnly, try_finally, try_catch, bind, ret,
    update, read, setItem, removeItem, console_error, invoke, modify, gets;
  reduce.

Ltac open_world w := destruct w as [[] ? ? ?]; reduce.

Lemma loadFiles_resolved (p : string) (w : World Store) l :
  on_list_files backend (calls w) p = Resolved l ->
  loadFiles backend p w =
    (Normal tt,
     {| store := set_isLoadingFiles false (set_files l
                   (set_currentPath p (store w)));
        localStorage := localStorage w;
        calls := calls w ++ [list_files p];
        console := console w |}).
Proof. intros H. run_action. (now rewrite H). Qed.

Lemma loadFiles_rejected (p : string) (w : World Store) e :
  on_list_files backend (calls w) p = Rejected e ->
  loadFiles backend p w =
    (Normal tt,
     {| store := set_isLoadingFiles false (set_error (Some e)
                   (set_currentPath p (store w)));
        localStorage := localStorage w;
        calls := calls w ++ [list_files p];
        console := console w |}).
Proof. intros H. run_action. (now rewrite H). Qed.

(** [loadFiles] catches what the listing throws. *)
Lemma loadFiles_returns (p : string) (w : World Store) :
  result (loadFiles backend p) w = Normal tt.
Proof.
  unfold result.
  destruct (on_list_files backend (calls w) p) as [l|e] eqn:H.
  - now rewrite (loadFiles_resolved _ _ _ H).
  - now rewrite (loadFiles_rejected _ _ _ H).
Qed.

Lemma connect_failed_eq config (w : World Store) msg :
  failed backend w config msg ->
  connect backend config w =
    (Normal false,
     {| store := set_isConnecting false (set_error (Some msg) (store w));
        localStorage := localStorage w;
        calls := calls w ++ [request config];
        console := console w |}).
Proof.
  open_world w.
  intros [(r & Hr & Hs & Hm)|Hr]; destruct config as [c|c];
    reduce; run_action; rewrite Hr; try rewrite Hs;
    try rewrite <- Hm; reflexivity.
Qed.

(** The world in which a successful [connect] issues its first listing. *)
Lemma connect_accepted_eq config (w : World Store) r :
  accepted backend w config r ->
  stored backend w config ->
  connect backend config w =
    let root := JS.opt_or (root_path r) "/" in
    let w1 :=
      {| store := set_rootPath root (set_storageType (Some (type_of config))
                    (set_savedConfig (Some config) (set_isConnected true
                       (set_error None (store w)))));
         localStorage :=
           <[storage_key := JS.stringify (properties config)]>
             (localStorage w);
         calls := calls w ++ [request config];
         console := console w |} in
    let w2 := exec (loadFiles backend root) w1 in
    (Normal true,
     {| store := set_isConnecting false (store w2);
        localStorage := localStorage w2;
        calls := calls w2;
        console := console w2 |}).
Proof.
  open_world w. intros [Hr Hs] Hst. cbv zeta. open_storing.
  destruct config as [c|c]; reduce.
  all: run_action; rewrite Hr, Hs; reduce; rewrite Hst; reduce.
  all: match goal with
       | |- context [on_list_files backend ?h ?p] =>
           destruct (on_list_files backend h p)
       end; reflexivity.
Qed.

(** A [connect] the backend accepts but whose entry the storage refuses:
    the refs are set, the exception is caught, nothing is listed. *)
Lemma connect_unsaved_eq config (w : World Store) r e :
  accepted backend w config r ->
  storage_full backend w config e ->
  connect backend config w =
    (Normal false,
     {| store :=
          set_isConnecting false (set_error (Some e)
            (set_rootPath (JS.opt_or (root_path r) "/")
               (set_storageType (Some (type_of config))
                  (set_savedConfig (Some config) (set_isConnected true
                     (store w))))));
        localStorage := localStorage w;
        calls := calls w ++ [request config];
        console := console w |}).
Proof.
  open_world w. intros [Hr Hs] Hst. open_storing.
  destruct config as [c|c]; reduce.
  all: run_action; rewrite Hr, Hs; reduce; rewrite Hst; reflexivity.
Qed.

Lemma storing_cases config (w : World Store) :
  stored backend w config \/ exists e, storage_full backend w config e.
Proof.
  unfold stored, storage_full.
  destruct (storing backend w config) as [[]|e]; eauto.
Qed.

Lemma reply_cases config (w : World Store) :
  (exists r, accepted backend w config r /\ stored backend w config)
  \/ (exists r e, accepted backend w config r
                  /\ storage_full backend w config e)
  \/ (exists msg, failed backend w config msg).
Proof.
  destruct (reply backend (calls w) config) as [r|e] eqn:Hr.
  - destruct (success r) eqn:Hs.
    + destruct (storing_cases config w) as [H|[e H]].
      * left. exists r. repeat split; assumption.
      * right. left. exists r, e. repeat split; assumption.
    + right. right. exists (message r). left. eauto.
  - right. right. exists e. right. exact Hr.
Qed.

Lemma on_disconnect_cases (w : World Store) :
  on_disconnect backend (calls w) = Resolved tt
  \/ exists e, on_disconnect backend (calls w) = Rejected e.
Proof.
  destruct (on_disconnect backend (calls w)) as [[]|e]; eauto.
Qed.

Lemma disconnect_resolved (w : World Store) :
  on_disconnect backend (calls w) = Resolved tt ->
  disconnect backend w =
    (Normal tt,
     {| store := set_storageType None (set_currentPath "/"
                   (set_files [] (set_isConnected false (store w))));
        localStorage := delete storage_key (localStorage w);
        calls := calls w ++ [disconnect_session];
        console := console w |}).
Proof. open_world w. intros H. run_action. now rewrite H. Qed.

Lemma disconnect_rejected (w : World Store) e :
  on_disconnect backend (calls w) = Rejected e ->
  disconnect backend w =
    (Normal tt,
     {| store := store w;
        localStorage := localStorage w;
        calls := calls w ++ [disconnect_session];
        console := console w ++ ["Disconnect error:" +:+ " " +:+ e] |}).
Proof. open_world w. intros H. run_action. now rewrite H. Qed.

Lemma toggleMediaOnly_eq (w : World Store) :
  toggleMediaOnly w =
    (Normal tt,
     {| store := set_isMediaOnly (negb (isMediaOnly (store w))) (store w);
        localStorage := localStorage w;
        calls := calls w;
        console := console w |}).
Proof. open_world w. reflexivity. Qed.

(** The fields of the world after a successful [connect]. *)
Lemma connect_accepted config (w : World Store) r :
  accepted backend w config r ->
  stored backend w config ->
  let w' := exec (connect backend config) w in
  let root := JS.opt_or (root_path r) "/" in
  result (connect backend config) w = Normal true
  /\ isConnected (store w') = true
  /\ isConnecting (store w') = false
  /\ savedConfig (store w') = Some config
  /\ storageType (store w') = Some (type_of config)
  /\ rootPath (store w') = root
  /\ currentPath (store w') = root
  /\ localStorage w'
     = <[storage_key := JS.stringify (properties config)]> (localStorage w)
  /\ calls w' = calls w ++ [request config; list_files root]
  /\ match on_list_files backend (calls w ++ [request config]) root with
     | Resolved l => files (store w') = l /\ error (store w') = None
     | Rejected e =>
         files (store w') = files (store w) /\ error (store w') = Some e
     end.
Proof.
  intros H Hst. cbv zeta. unfold exec, result.
  rewrite (connect_accepted_eq _ _ _ H Hst). cbv zeta.
  set (root := JS.opt_or (root_path r) "/").
  unfold exec.
  destruct (on_list_files backend (calls w ++ [request config]) root)
    as [l|e] eqn:Hl.
  - erewrite loadFiles_resolved by exact Hl.
    open_world w. rewrite <- app_assoc. repeat split; reflexivity.
  - erewrite loadFiles_rejected by exact Hl.
    open_world w. rewrite <- app_assoc. repeat split; reflexivity.
Qed.

End ConnectionFacts.

(** * Properties of the store and of the card *)

Import Connection Session.

(** ** Failed connects and failed listings *)

(** C2, as stated, fails: a connect call that fails while a session is
    live returns [false] and leaves that session as it was, so
    [isConnected] is [true] after the failed call. *)
Lemma failed_connect_is_disconnected_counterexample :
  isConnected (store Samples.browsing) = true
  /\ failed Samples.refusing Samples.browsing (GitHub Samples.repo)
       "Connection failed"
  /\ result (connect Samples.refusing (GitHub Samples.repo)) Samples.browsing
     = Normal false
  /\ isConnected
       (store (exec (connect Samples.refusing (GitHub Samples.repo))
                 Samples.browsing)) = true
  /\ savedConfig
       (store (exec (connect Samples.refusing (GitHub Samples.repo))
                 Samples.browsing)) = Some (Ec2 Samples.ubuntu).
Proof.
  split; [vm_compute; reflexivity|].
  split; [left; exists Samples.refusal; repeat split; reflexivity|].
  vm_compute. repeat split; reflexivity.
Qed.

(** C2, amended.  A connect call that fails, because the backend reports
    [success = false] or because the invocation throws, returns [false]
    and leaves the session state as it was: [isConnected] is what it was
    (it remains [false] when it was [false], and a session that was live
    stays live), [savedConfig], [storageType], [rootPath], [files] and
    [currentPath] are unchanged, nothing is written to [localStorage],
    [isConnecting] is [false] again, and the only thing set is the error
    message. *)
Theorem connect_failure_rolls_back (backend : Backend)
    (config : ConnectionConfig) (w : World Store) (msg : string) :
  failed backend w config msg ->
  let w' := exec (connect backend config) w in
  result (connect backend config) w = Normal false
  /\ isConnected (store w') = isConnected (store w)
  /\ (isConnected (store w) = false -> isConnected (store w') = false)
  /\ savedConfig (store w') = savedConfig (store w)
  /\ storageType (store w') = storageType (store w)
  /\ rootPath (store w') = rootPath (store w)
  /\ files (store w') = files (store w)
  /\ currentPath (store w') = currentPath (store w)
  /\ localStorage w' = localStorage w
  /\ isConnecting (store w') = false
  /\ error (store w') = Some msg
  /\ store w' = set_isConnecting false (set_error (Some msg) (store w)).
Proof.
  intros H. cbv zeta. unfold exec, result.
  rewrite (connect_failed_eq backend config w msg H).
  destruct w as [s ls cs co]. cbn [fst snd store localStorage].
  repeat split; try reflexivity. intros Hc. exact Hc.
Qed.

Lemma connect_failure_rolls_back_witness :
  failed Samples.refusing Samples.browsing (Ec2 Samples.ubuntu)
    "Connection failed"
  /\ result (connect Samples.refusing (Ec2 Samples.ubuntu)) Samples.browsing
     = Normal false
  /\ files (store (exec (connect Samples.refusing (Ec2 Samples.ubuntu))
                     Samples.browsing)) = Samples.listing
  /\ failed Samples.unreachable fresh (GitHub Samples.repo)
       "Error: Network error"
  /\ isConnected (store (exec (connect Samples.unreachable
                                 (GitHub Samples.repo)) fresh)) = false.
Proof.
  assert (H1 : failed Samples.refusing Samples.browsing (Ec2 Samples.ubuntu)
                 "Connection failed").
  { left. exists Samples.refusal. repeat split; reflexivity. }
  assert (H2 : failed Samples.unreachable fresh (GitHub Samples.repo)
                 "Error: Network error").
  { right. reflexivity. }
  pose proof (connect_failure_rolls_back _ _ _ _ H1) as P1.
  pose proof (connect_failure_rolls_back _ _ _ _ H2) as P2.
  cbv zeta in P1, P2.
  destruct P1 as (R1 & _ & _ & _ & _ & _ & F1 & _).
  destruct P2 as (_ & _ & C2 & _).
  split; [exact H1|]. split; [exact R1|].
  split; [rewrite F1; vm_compute; reflexivity|].
  split; [exact H2|]. apply C2. reflexivity.
Defined.

(** C10.  When the listing behind [loadFiles p] fails, the file list keeps
    its old entries, [error] holds the failure message and
    [isLoadingFiles] is [false] once the call has returned, but
    [currentPath] is already the requested [p]. *)
Theorem loadFiles_failure_keeps_files (backend : Backend) (p : string)
    (w : World Store) (e : string) :
  on_list_files backend (calls w) p = Rejected e ->
  let w' := exec (loadFiles backend p) w in
  result (loadFiles backend p) w = Normal tt
  /\ files (store w') = files (store w)
  /\ error (store w') = Some e
  /\ isLoadingFiles (store w') = false
  /\ currentPath (store w') = p.
Proof.
  intros H. cbv zeta. unfold exec, result.
  rewrite (loadFiles_rejected backend p w e H).
  destruct w as [[] ls cs co]. repeat split; reflexivity.
Qed.

Lemma loadFiles_failure_keeps_files_witness :
  on_list_files Samples.unreachable (calls Samples.browsing) "/srv"
  = Rejected "Error: Failed to list"
  /\ files (store (exec (loadFiles Samples.unreachable "/srv")
                     Samples.browsing)) = Samples.listing
  /\ currentPath (store (exec (loadFiles Samples.unreachable "/srv")
                           Samples.browsing)) = "/srv"
  /\ currentPath (store Samples.browsing) = "/home/ubuntu".
Proof.
  split; [reflexivity|].
  pose proof (loadFiles_failure_keeps_files Samples.unreachable "/srv"
                Samples.browsing "Error: Failed to list" eq_refl) as P.
  cbv zeta in P. destruct P as (_ & F & _ & _ & C).
  split; [rewrite F; vm_compute; reflexivity|].
  split; [exact C | vm_compute; reflexivity].
Defined.

(** ** Successful connects *)




(** ** Disconnect *)




(** ** What is persisted *)

(** C1, as stated, fails: after a successful connect the entry saved under
    the connection key contains the key material of the request, for the
    remote host and for the repository mirror alike. *)
Lemma key_material_not_persisted_counterexample :
  result (connect Samples.healthy (Ec2 Samples.ubuntu)) fresh = Normal true
  /\ persisted_includes
       (localStorage (exec (connect Samples.healthy (Ec2 Samples.ubuntu))
                        fresh))
       (Ec2ConnectionConfig.pemContent Samples.ubuntu) = true
  /\ result (connect Samples.healthy (GitHub Samples.repo)) fresh
     = Normal true
  /\ persisted_includes
       (localStorage (exec (connect Samples.healthy (GitHub Samples.repo))
                        fresh))
       (GitHubConnectionConfig.sshKeyContent Samples.repo) = true.
Proof. vm_compute. repeat split; reflexivity. Qed.

Lemma key_material_is_property (config : ConnectionConfig) :
  exists k, In (k, JS.Str (key_material config)) (properties config).
Proof.
  destruct config as [c|c]; [exists "pemContent" | exists "sshKeyContent"];
    cbn [properties key_material In]; tauto.
Qed.

(** C1, amended.  A successful connect (the backend reports success and
    [localStorage] takes the entry) writes the serialisation of the
    whole config under the connection key and touches no other key; the
    entry contains the key material as a quoted JSON string, verbatim when
    the key material has no quote, backslash or control character (as with
    base64 text).  A [disconnect] whose backend invocation resolves
    removes the entry. *)
Theorem connect_persists_whole_config (backend : Backend)
    (config : ConnectionConfig) (w : World Store) (r : ConnectResponse) :
  accepted backend w config r ->
  stored backend w config ->
  let w' := exec (connect backend config) w in
  localStorage w' !! storage_key = Some (JS.stringify (properties config))
  /\ (forall k, k <> storage_key -> localStorage w' !! k = localStorage w !! k)
  /\ persisted_includes (localStorage w') (JS.quote (key_material config))
     = true
  /\ (JS.plain (key_material config) = true ->
      persisted_includes (localStorage w') (key_material config) = true)
  /\ (forall w0 : World Store,
        on_disconnect backend (calls w0) = Resolved tt ->
        localStorage (exec (disconnect backend) w0) !! storage_key = None).
Proof.
  intros H Hst. cbv zeta.
  destruct (connect_accepted backend config w r H Hst)
    as (_ & _ & _ & _ & _ & _ & _ & L & _).
  rewrite L. unfold persisted_includes. rewrite lookup_insert_eq.
  destruct (key_material_is_property config) as [k Hk].
  repeat split.
  - intros k' Hk'. now rewrite lookup_insert_ne.
  - apply (stringify_includes _ _ _ _ Hk), includes_refl.
  - intros Hp. apply (stringify_includes _ _ _ _ Hk), quote_includes, Hp.
  - intros w0 H0. unfold exec. rewrite (disconnect_resolved backend w0 H0).
    apply lookup_delete_eq.
Qed.

Lemma connect_persists_whole_config_witness :
  accepted Samples.healthy fresh (Ec2 Samples.ubuntu)
    (Samples.ok (Some "/home/ubuntu"))
  /\ stored Samples.healthy fresh (Ec2 Samples.ubuntu)
  /\ persisted_includes (localStorage Samples.browsing) "dGVzdA==" = true
  /\ localStorage (exec (disconnect Samples.healthy) Samples.browsing)
       !! storage_key = None.
Proof.
  assert (H : accepted Samples.healthy fresh (Ec2 Samples.ubuntu)
                (Samples.ok (Some "/home/ubuntu"))).
  { split; reflexivity. }
  assert (Hst : stored Samples.healthy fresh (Ec2 Samples.ubuntu)).
  { reflexivity. }
  pose proof (connect_persists_whole_config _ _ _ _ H Hst) as P.
  cbv zeta in P. destruct P as (_ & _ & _ & K & D).
  split; [exact H|]. split; [exact Hst|]. split; [apply K; reflexivity|].
  apply D. reflexivity.
Defined.

(** ** One session at a time *)

Section Coherence.

Variable backend : Backend.

(** A store that has just been created is coherent, whatever the page
    holds. *)
Lemma coherent_initial (w : World Store) : store w = initial -> coherent w.
Proof. unfold coherent. intros ->. reflexivity. Qed.

Lemma coherent_connect config (w : World Store) :
  coherent w -> coherent (exec (connect backend config) w).
Proof.
  intros Hc. unfold coherent.
  destruct (reply_cases backend config w)
    as [(r & H & Hst)|[(r & e & H & Hst)|[msg H]]].
  - destruct (connect_accepted backend config w r H Hst)
      as (_ & C & _ & S & T & _).
    rewrite C. exists config. auto.
  - unfold exec. rewrite (connect_unsaved_eq backend config w r e H Hst).
    destruct w as [[] ls cs co]. exists config. split; reflexivity.
  - unfold exec. rewrite (connect_failed_eq backend config w msg H).
    destruct w as [[] ls cs co]. exact Hc.
Qed.

Lemma coherent_loadFiles p (w : World Store) :
  coherent w -> coherent (exec (loadFiles backend p) w).
Proof.
  intros Hc. unfold exec.
  destruct (on_list_files backend (calls w) p) as [l|e] eqn:H;
    [rewrite (loadFiles_resolved backend p w l H)
    |rewrite (loadFiles_rejected backend p w e H)];
    destruct w as [[] ls cs co]; exact Hc.
Qed.

Lemma coherent_disconnect (w : World Store) :
  coherent w -> coherent (exec (disconnect backend) w).
Proof.
  intros Hc. unfold exec.
  destruct (on_disconnect_cases backend w) as [H|[e H]].
  - rewrite (disconnect_resolved backend w H).
    destruct w as [[] ls cs co]. reflexivity.
  - rewrite (disconnect_rejected backend w e H).
    destruct w as [[] ls cs co]. exact Hc.
Qed.

Lemma coherent_step op (w : World Store) :
  coherent w -> coherent (step backend op w).
Proof.
  destruct op as [config|p| |]; cbn [step].
  - apply coherent_connect.
  - apply coherent_loadFiles.
  - apply coherent_disconnect.
  - intros Hc. unfold exec. rewrite toggleMediaOnly_eq.
    destruct w as [[] ls cs co]. exact Hc.
Qed.

Lemma coherent_run ops (w : World Store) :
  coherent w -> coherent (run backend ops w).
Proof.
  revert w. induction ops as [|op ops IH]; intros w H; [exact H|].
  cbn [run fold_left]. apply IH, coherent_step, H.
Qed.

(** The store writes and removes the connection entry only. *)
Lemma step_other_keys op (w : World Store) (k : string) :
  k <> storage_key ->
  localStorage (step backend op w) !! k = localStorage w !! k.
Proof.
  intros Hk. destruct op as [config|p| |]; cbn [step]; unfold exec.
  - destruct (reply_cases backend config w)
      as [(r & H & Hst)|[(r & e & H & Hst)|[msg H]]].
    + destruct (connect_accepted backend config w r H Hst)
        as (_ & _ & _ & _ & _ & _ & _ & L & _).
      unfold exec in L. rewrite L. now apply lookup_insert_ne.
    + now rewrite (connect_unsaved_eq backend config w r e H Hst).
    + now rewrite (connect_failed_eq backend config w msg H).
  - destruct (on_list_files backend (calls w) p) as [l|e] eqn:H;
      [rewrite (loadFiles_resolved backend p w l H)
      |rewrite (loadFiles_rejected backend p w e H)]; reflexivity.
  - destruct (on_disconnect_cases backend w) as [H|[e H]].
    + rewrite (disconnect_resolved backend w H). cbn [snd localStorage].
      now apply lookup_delete_ne.
    + now rewrite (disconnect_rejected backend w e H).
  - now rewrite toggleMediaOnly_eq.
Qed.

Lemma run_other_keys ops (w : World Store) (k : string) :
  k <> storage_key ->
  localStorage (run backend ops w) !! k = localStorage w !! k.
Proof.
  intros Hk. revert w. induction ops as [|op ops IH]; intros w; [easy|].
  cbn [run fold_left]. fold (run backend ops (step backend op w)).
  now rewrite IH, step_other_keys.
Qed.

(** As long as the storage takes every write, the persisted entry of a
    connected store is that of its [savedConfig]. *)
Lemma synced_step op (w : World Store) :
  roomy backend -> synced w -> synced (step backend op w).
Proof.
  intros Hroomy Hs. unfold synced.
  destruct op as [config|p| |]; cbn [step]; unfold exec.
  - destruct (reply_cases backend config w)
      as [(r & H & Hst)|[(r & e & H & Hst)|[msg H]]].
    + destruct (connect_accepted backend config w r H Hst)
        as (_ & _ & _ & S & _ & _ & _ & L & _).
      unfold exec in S, L. intros _. exists config.
      rewrite S, L, lookup_insert_eq. auto.
    + unfold storage_full, storing in Hst. rewrite Hroomy in Hst.
      discriminate.
    + rewrite (connect_failed_eq backend config w msg H).
      destruct w as [[] ls cs co]. exact Hs.
  - destruct (on_list_files backend (calls w) p) as [l|e] eqn:H;
      [rewrite (loadFiles_resolved backend p w l H)
      |rewrite (loadFiles_rejected backend p w e H)];
      destruct w as [[] ls cs co]; exact Hs.
  - destruct (on_disconnect_cases backend w) as [H|[e H]].
    + rewrite (disconnect_resolved backend w H).
      destruct w as [[] ls cs co]. discriminate.
    + rewrite (disconnect_rejected backend w e H).
      destruct w as [[] ls cs co]. exact Hs.
  - rewrite toggleMediaOnly_eq. destruct w as [[] ls cs co]. exact Hs.
Qed.

Lemma synced_run ops (w : World Store) :
  roomy backend -> synced w -> synced (run backend ops w).
Proof.
  intros Hroomy. revert w.
  induction ops as [|op ops IH]; intros w H; [exact H|].
  cbn [run fold_left]. apply IH, synced_step; assumption.
Qed.

End Coherence.

(** C6, as stated, fails: a successful connect to the repository mirror
    made while connected to the host, whose first listing is rejected,
    leaves the store connected to the mirror but still holding the file
    list of the host session. *)
Lemma replaced_session_leaves_no_trace_counterexample :
  result (connect Samples.half_broken (GitHub Samples.repo)) Samples.hosted
  = Normal true
  /\ storageType
       (store (exec (connect Samples.half_broken (GitHub Samples.repo))
                 Samples.hosted)) = Some github
  /\ files (store Samples.hosted) = Samples.listing
  /\ files
       (store (exec (connect Samples.half_broken (GitHub Samples.repo))
                 Samples.hosted)) = Samples.listing
  /\ In Samples.photo
       (files
          (store (exec (connect Samples.half_broken (GitHub Samples.repo))
                    Samples.hosted))).
Proof. vm_compute. repeat split; try reflexivity. tauto. Qed.

(** C6, amended.  The store holds at most one connection.  From every
    coherent store, a store that has just been created among them
    whatever [localStorage] an earlier run left, after any sequence of
    connect, listing, disconnect and filter operations and whatever the
    backend and the storage answer: while [isConnected] holds,
    [storageType] is that of the one [savedConfig], and while it does not
    there is no [storageType]; no [localStorage] key but the connection
    key is ever written or removed; and as long as the storage takes
    every write, the persisted entry of a connected store is that of its
    [savedConfig].  A successful connect, also while already connected,
    replaces [savedConfig], [storageType], [rootPath], [currentPath] and
    the persisted entry by those of the new session, and replaces the
    file list by the listing of the new root when that listing succeeds;
    when it fails, the file list of before is still held and [error] is
    set to the failure. *)
Theorem single_session_replaced (backend : Backend) :
  (forall ops (w : World Store),
     store w = initial -> coherent (run backend ops w))
  /\ (forall ops (w : World Store),
        coherent w -> coherent (run backend ops w))
  /\ (forall ops (w : World Store) k,
        k <> storage_key ->
        localStorage (run backend ops w) !! k = localStorage w !! k)
  /\ (roomy backend ->
      forall ops (w : World Store), synced w -> synced (run backend ops w))
  /\ (forall config (w : World Store) r,
        accepted backend w config r ->
        stored backend w config ->
        let w' := exec (connect backend config) w in
        let root := JS.opt_or (root_path r) "/" in
        result (connect backend config) w = Normal true
        /\ isConnected (store w') = true
        /\ savedConfig (store w') = Some config
        /\ storageType (store w') = Some (type_of config)
        /\ rootPath (store w') = root
        /\ currentPath (store w') = root
        /\ localStorage w' !! storage_key
           = Some (JS.stringify (properties config))
        /\ dom (localStorage w') = {[ storage_key ]} ∪ dom (localStorage w)
        /\ (forall l,
              on_list_files backend (calls w ++ [request config]) root
              = Resolved l ->
              files (store w') = l /\ error (store w') = None)
        /\ (forall e,
              on_list_files backend (calls w ++ [request config]) root
              = Rejected e ->
              files (store w') = files (store w)
              /\ error (store w') = Some e)).
Proof.
  split; [intros ops w H; apply coherent_run, coherent_initial, H|].
  split; [intros ops w; apply coherent_run|].
  split; [intros ops w k; apply run_other_keys|].
  split; [intros Hroomy ops w; apply synced_run, Hroomy|].
  intros config w r H Hst. cbv zeta.
  destruct (connect_accepted backend config w r H Hst)
    as (R & C & _ & S & T & P & CP & L & _ & F).
  rewrite L, lookup_insert_eq, dom_insert_L.
  do 8 (split; [assumption || reflexivity|]).
  split; [intros l Hl; rewrite Hl in F | intros e He; rewrite He in F];
    exact F.
Qed.

Lemma single_session_replaced_witness :
  store Samples.restarted = initial
  /\ localStorage Samples.restarted !! storage_key
     = Some (JS.stringify (properties (Ec2 Samples.ubuntu)))
  /\ coherent (run Samples.healthy
                 [DoConnect (Ec2 Samples.ubuntu); DoLoadFiles "/srv";
                  DoConnect (GitHub Samples.repo); DoDisconnect;
                  DoConnect (Ec2 Samples.ubuntu)] Samples.restarted)
  /\ roomy Samples.healthy
  /\ synced (run Samples.healthy
               [DoConnect (GitHub Samples.repo); DoLoadFiles "/srv"]
               Samples.restarted)
  /\ accepted Samples.healthy Samples.browsing (GitHub Samples.repo)
       (Samples.ok (Some "/home/ubuntu"))
  /\ stored Samples.healthy Samples.browsing (GitHub Samples.repo)
  /\ savedConfig (store (exec (connect Samples.healthy (GitHub Samples.repo))
                           Samples.browsing)) = Some (GitHub Samples.repo)
  /\ storageType (store (exec (connect Samples.healthy (GitHub Samples.repo))
                           Samples.browsing)) = Some github.
Proof.
  pose proof (single_session_replaced Samples.healthy) as (I & _ & _ & Y & R).
  assert (H : accepted Samples.healthy Samples.browsing (GitHub Samples.repo)
                (Samples.ok (Some "/home/ubuntu"))).
  { split; reflexivity. }
  assert (Hst : stored Samples.healthy Samples.browsing
                  (GitHub Samples.repo)).
  { reflexivity. }
  assert (Hroomy : roomy Samples.healthy).
  { intros h ls k v. reflexivity. }
  assert (Hsync : synced Samples.restarted).
  { intros Hc. discriminate Hc. }
  specialize (R _ _ _ H Hst). cbv zeta in R. destruct R as (_ & _ & S & T & _).
  split; [reflexivity|]. split; [vm_compute; reflexivity|].
  split; [apply I; reflexivity|]. split; [exact Hroomy|].
  split; [apply (Y Hroomy), Hsync|].
  split; [exact H|]. split; [exact Hst|]. split; [exact S | exact T].
Defined.

(** ** The media filter *)

Lemma is_media_spec (f : FileInfo) :
  is_media f = true
  <-> isDir f = true
      \/ (exists mime, mimeType f = Some mime
                       /\ JS.startsWith mime "image/" = true)
      \/ mimeType f = Some "video".
Proof.
  unfold is_media. destruct (isDir f); [tauto|].
  destruct (mimeType f) as [mime|]; cbn [JS.opt_or].
  - assert (E : JS.str_or mime "" = mime) by now destruct mime.
    rewrite E, orb_true_iff, String.eqb_eq. split.
    + intros [H|H]; [right; left; eauto | right; right; congruence].
    + intros [H|[(m & [= <-] & H)|[= ->]]]; [discriminate | auto | auto].
  - split; [discriminate|].
    intros [H|[(m & H & _)|H]]; discriminate.
Qed.

(** C9.  With the media-only filter on, [filteredFiles] contains exactly
    the directory entries, the files whose [mimeType] starts with
    ['image/'] and the files whose [mimeType] is the bare string
    ['video'], in the order of the file list; a file of type ['video/mp4']
    is left out, although the thumbnail card classifies it as a video
    through the ['video/'] prefix.  With the filter off, [filteredFiles]
    is the file list itself. *)
Theorem filteredFiles_media_only (s : Store) :
  (isMediaOnly s = false -> filteredFiles s = files s)
  /\ (isMediaOnly s = true ->
      filteredFiles s = List.filter is_media (files s)
      /\ (forall f,
            In f (filteredFiles s)
            <-> In f (files s)
                /\ (isDir f = true
                    \/ (exists mime, mimeType f = Some mime
                                     /\ JS.startsWith mime "image/" = true)
                    \/ mimeType f = Some "video"))
      /\ (forall f,
            isDir f = false -> mimeType f = Some "video/mp4" ->
            ~ In f (filteredFiles s)
            /\ MediaCard.isVideo (MediaCard.mount f) = true)).
Proof.
  unfold filteredFiles. split; intros ->; [reflexivity|]. cbn [negb].
  split; [reflexivity|]. split.
  - intros f. rewrite filter_In, is_media_spec. reflexivity.
  - intros f Hd Hm. split.
    + rewrite filter_In, is_media_spec, Hd, Hm.
      intros (_ & [H|[(m & [= <-] & H)|H]]); discriminate.
    + unfold MediaCard.isVideo, MediaCard.mime_startsWith.
      cbn [MediaCard.file MediaCard.mount]. now rewrite Hm.
Qed.

Lemma filteredFiles_media_only_witness :
  filteredFiles (set_isMediaOnly true (store Samples.browsing))
  = [Samples.pictures; Samples.photo; Samples.bare_clip]
  /\ ~ In Samples.clip
         (filteredFiles (set_isMediaOnly true (store Samples.browsing)))
  /\ MediaCard.isVideo (MediaCard.mount Samples.clip) = true
  /\ LegacyMediaCard.isVideo Samples.clip = false
  /\ filteredFiles (store Samples.browsing) = Samples.listing.
Proof.
  pose proof (filteredFiles_media_only
                (set_isMediaOnly true (store Samples.browsing))) as (_ & P).
  destruct (P eq_refl) as (E & _ & V).
  destruct (V Samples.clip eq_refl eq_refl) as (N & C).
  split; [rewrite E; vm_compute; reflexivity|].
  split; [exact N|]. split; [exact C|].
  split; [reflexivity|].
  assert (O : isMediaOnly (store Samples.browsing) = false)
    by (vm_compute; reflexivity).
  rewrite (proj1 (filteredFiles_media_only (store Samples.browsing)) O).
  vm_compute. reflexivity.
Defined.

(** ** The root of the first listing *)

Section LegacyFacts.

Variable backend : Backend.

(** A successful [connect] of the earlier store lists the directory it
    derives from the username, whatever the response. *)
Lemma legacy_connect_accepted (config : LegacyConnection.ConnectionConfig)
    (w : World LegacyConnection.Store) r :
  on_connect_ec2 backend (calls w) (Ec2ConnectionConfig.host config)
    (Ec2ConnectionConfig.username config)
    (Ec2ConnectionConfig.pemContent config)
    (JS.num_or (Ec2ConnectionConfig.port config) 22) = Resolved r ->
  success r = true ->
  on_setItem backend (calls w ++ [request (Ec2 config)]) (localStorage w)
    LegacyConnection.storage_key
    (JS.stringify (LegacyConnection.properties config)) = Resolved tt ->
  let w' := exec (LegacyConnection.connect backend config) w in
  let home :=
    LegacyConnection.home_of (Ec2ConnectionConfig.username config) in
  result (LegacyConnection.connect backend config) w = Normal true
  /\ LegacyConnection.isConnected (store w') = true
  /\ LegacyConnection.currentPath (store w') = home
  /\ calls w'
     = calls w
       ++ [connect_ec2 (Ec2ConnectionConfig.host config)
             (Ec2ConnectionConfig.username config)
             (Ec2ConnectionConfig.pemContent config)
             (JS.num_or (Ec2ConnectionConfig.port config) 22);
           list_files home].
Proof.
  intros Hr Hs Hst. cbv zeta. destruct w as [[] ls cs co].
  cbn [calls localStorage request] in Hr, Hst.
  unfold exec, result, LegacyConnection.connect, LegacyConnection.loadFiles,
    try_finally, try_catch, bind, ret, update, read, setItem, invoke,
    modify, gets.
  cbn [fst snd store localStorage calls console].
  rewrite Hr, Hs.
  cbn [fst snd store localStorage calls console].
  rewrite Hst.
  cbn [fst snd store localStorage calls console].
  match goal with
  | |- context [on_list_files backend ?h ?p] =>
      destruct (on_list_files backend h p)
  end; cbn; rewrite <- app_assoc; repeat split; reflexivity.
Qed.

End LegacyFacts.

Lemma home_of_spec (username : string) :
  LegacyConnection.home_of "root" = "/root"
  /\ LegacyConnection.home_of "ubuntu" = "/home/ubuntu"
  /\ (username <> "root" ->
      LegacyConnection.home_of username = "/home/" +:+ username).
Proof.
  repeat split. intros H. unfold LegacyConnection.home_of.
  destruct (String.eqb_spec username "root"); [contradiction | reflexivity].
Qed.

(** C5, as stated, fails on [connectEc2]: a successful connect as user
    ['ubuntu'] whose response carries no root path starts browsing at
    ['/'], not at ['/home/ubuntu']. *)
Lemma fallback_root_is_home_counterexample :
  accepted Samples.rootless fresh (Ec2 Samples.ubuntu) (Samples.ok None)
  /\ root_path (Samples.ok None) = None
  /\ Ec2ConnectionConfig.username Samples.ubuntu = "ubuntu"
  /\ result (connectEc2 Samples.rootless Samples.ubuntu) fresh = Normal true
  /\ rootPath (store (exec (connectEc2 Samples.rootless Samples.ubuntu)
                        fresh)) = "/"
  /\ calls (exec (connectEc2 Samples.rootless Samples.ubuntu) fresh)
     = [connect_ec2 "192.168.1.1" "ubuntu" "dGVzdA==" 22; list_files "/"]
  /\ rootPath (store (exec (connectEc2 Samples.rootless Samples.ubuntu)
                        fresh))
     <> LegacyConnection.home_of "ubuntu".
Proof.
  split; [split; reflexivity|]. vm_compute.
  repeat split; try reflexivity. discriminate.
Qed.

(** C5, amended.  In the two-backend store, a successful remote-filesystem
    connect (the backend reports success and [localStorage] takes the
    entry) whose response has no root path (or an empty one) browses from
    ['/'], whatever the username.  The username decides the first
    directory in the earlier single-backend store only: its [connect]
    lists ['/root'] when the username is ['root'] and ['/home/<username>']
    otherwise, ['/home/ubuntu'] for user ['ubuntu'], whatever the
    response. *)
Theorem fallback_root (backend : Backend) (config : Ec2ConnectionConfig.t) :
  (forall (w : World Store) r,
     accepted backend w (Ec2 config) r ->
     stored backend w (Ec2 config) ->
     root_path r = None \/ root_path r = Some "" ->
     let w' := exec (connectEc2 backend config) w in
     rootPath (store w') = "/"
     /\ currentPath (store w') = "/"
     /\ calls w' = calls w ++ [request (Ec2 config); list_files "/"])
  /\ (forall (w : World LegacyConnection.Store) r,
        on_connect_ec2 backend (calls w) (Ec2ConnectionConfig.host config)
          (Ec2ConnectionConfig.username config)
          (Ec2ConnectionConfig.pemContent config)
          (JS.num_or (Ec2ConnectionConfig.port config) 22) = Resolved r ->
        success r = true ->
        on_setItem backend (calls w ++ [request (Ec2 config)])
          (localStorage w) LegacyConnection.storage_key
          (JS.stringify (LegacyConnection.properties config))
        = Resolved tt ->
        let w' := exec (LegacyConnection.connect backend config) w in
        let home :=
          LegacyConnection.home_of (Ec2ConnectionConfig.username config) in
        LegacyConnection.currentPath (store w') = home
        /\ calls w' = calls w ++ [request (Ec2 config); list_files home]
        /\ (Ec2ConnectionConfig.username config = "root" -> home = "/root")
        /\ (Ec2ConnectionConfig.username config = "ubuntu" ->
            home = "/home/ubuntu")
        /\ (Ec2ConnectionConfig.username config <> "root" ->
            home = "/home/" +:+ Ec2ConnectionConfig.username config)).
Proof.
  split.
  - intros w r H Hst Hroot. cbv zeta.
    destruct (connect_accepted backend (Ec2 config) w r H Hst)
      as (_ & _ & _ & _ & _ & P & CP & _ & L & _).
    cbn [connect] in P, CP, L.
    assert (E : JS.opt_or (root_path r) "/" = "/")
      by (destruct Hroot as [-> | ->]; reflexivity).
    rewrite E in P, CP, L. auto.
  - intros w r Hr Hs Hst. cbv zeta.
    destruct (legacy_connect_accepted backend config w r Hr Hs Hst)
      as (_ & _ & CP & L).
    destruct (home_of_spec (Ec2ConnectionConfig.username config))
      as (Hroot & Hubuntu & Hother).
    repeat split; try assumption.
    + now intros ->.
    + now intros ->.
Qed.

Lemma fallback_root_witness :
  accepted Samples.rootless fresh (Ec2 Samples.ubuntu) (Samples.ok None)
  /\ rootPath (store (exec (connectEc2 Samples.rootless Samples.ubuntu)
                        fresh)) = "/"
  /\ LegacyConnection.currentPath
       (store (exec (LegacyConnection.connect Samples.rootless Samples.ubuntu)
                 {| store := LegacyConnection.initial; localStorage := ∅;
                    calls := []; console := [] |}))
     = "/home/ubuntu".
Proof.
  pose proof (fallback_root Samples.rootless Samples.ubuntu) as (P & Q).
  assert (H : accepted Samples.rootless fresh (Ec2 Samples.ubuntu)
                (Samples.ok None)) by (split; reflexivity).
  destruct (P fresh (Samples.ok None) H eq_refl (or_introl eq_refl))
    as (R & _).
  destruct (Q {| store := LegacyConnection.initial; localStorage := ∅;
                 calls := []; console := [] |}
              (Samples.ok None) eq_refl eq_refl eq_refl)
    as (C & _ & _ & U & _).
  split; [exact H|]. split; [exact R|].
  rewrite C. apply U. reflexivity.
Defined.

(** ** The media card *)

Section CardFacts.

Import MediaCard.

Variable backend : Backend.

Ltac reduce_card :=
  cbn [fst snd store localStorage calls console file thumbnailLoaded
       thumbnailUrl hasBeenVisible observing set_thumbnailLoaded
       set_thumbnailUrl set_hasBeenVisible set_observing isImage
       negb orb andb] in *.

Ltac run_card :=
  unfold exec, result, handle, onMounted, onUnmounted, onThumbnailError,
    on_entry, loadThumbnail, try_catch, bind, ret, update, read, invoke,
    modify, gets;
  reduce_card.

(** The guard of [loadThumbnail]: nothing happens for a card that is not
    an image or whose thumbnail is loaded. *)
Lemma loadThumbnail_skips (w : World Card) :
  isImage (store w) = false \/ thumbnailLoaded (store w) = true ->
  loadThumbnail backend w = (Normal tt, w).
Proof.
  destruct w as [[] ls cs co]. intros H. run_card.
  destruct H as [-> | ->]; [reflexivity | now rewrite orb_true_r].
Qed.

Lemma loadThumbnail_resolved (w : World Card) data :
  isImage (store w) = true ->
  thumbnailLoaded (store w) = false ->
  on_get_file_thumbnail backend (calls w) (path (file (store w))) 200
  = Resolved data ->
  loadThumbnail backend w =
    (Normal tt,
     {| store := set_thumbnailLoaded true
                   (set_thumbnailUrl data (store w));
        localStorage := localStorage w;
        calls := calls w ++ [get_file_thumbnail (path (file (store w))) 200];
        console := console w |}).
Proof.
  destruct w as [[] ls cs co]. intros Hi Hl Hr. run_card.
  rewrite Hi, Hl. reduce_card. now rewrite Hr.
Qed.

Lemma loadThumbnail_rejected (w : World Card) e :
  isImage (store w) = true ->
  thumbnailLoaded (store w) = false ->
  on_get_file_thumbnail backend (calls w) (path (file (store w))) 200
  = Rejected e ->
  loadThumbnail backend w =
    (Normal tt,
     {| store := set_thumbnailLoaded false (store w);
        localStorage := localStorage w;
        calls := calls w ++ [get_file_thumbnail (path (file (store w))) 200];
        console := console w |}).
Proof.
  destruct w as [[] ls cs co]. intros Hi Hl Hr. run_card.
  rewrite Hi, Hl. reduce_card. now rewrite Hr.
Qed.

(** [loadThumbnail] never throws, keeps the props and [hasBeenVisible],
    and logs at most the one request for the card's own path. *)
Lemma loadThumbnail_frame (w : World Card) :
  let w' := exec (loadThumbnail backend) w in
  result (loadThumbnail backend) w = Normal tt
  /\ file (store w') = file (store w)
  /\ hasBeenVisible (store w') = hasBeenVisible (store w)
  /\ observing (store w') = observing (store w)
  /\ (calls w' = calls w
      \/ isImage (store w) = true
         /\ calls w'
            = calls w ++ [get_file_thumbnail (path (file (store w))) 200]).
Proof.
  cbv zeta. unfold exec, result.
  destruct (isImage (store w)) eqn:Hi;
    [destruct (thumbnailLoaded (store w)) eqn:Hl|].
  - rewrite loadThumbnail_skips by auto. auto 6.
  - destruct (on_get_file_thumbnail backend (calls w)
                (path (file (store w))) 200) as [data|e] eqn:Hr.
    + rewrite (loadThumbnail_resolved w data Hi Hl Hr).
      destruct w as [[] ls cs co]. cbn. auto 7.
    + rewrite (loadThumbnail_rejected w e Hi Hl Hr).
      destruct w as [[] ls cs co]. cbn. auto 7.
  - rewrite loadThumbnail_skips by auto. auto 6.
Qed.


Lemma on_entry_seen b (w : World Card) :
  hasBeenVisible (store w) = true -> on_entry backend b w = (Normal tt, w).
Proof.
  destruct w as [[] ls cs co]. intros H. run_card.
  rewrite H, andb_false_r. reflexivity.
Qed.

Lemma on_entry_frame b (w : World Card) :
  let w' := exec (on_entry backend b) w in
  result (on_entry backend b) w = Normal tt
  /\ file (store w') = file (store w)
  /\ (hasBeenVisible (store w) = true -> w' = w)
  /\ (calls w' = calls w
      \/ isImage (store w) = true
         /\ hasBeenVisible (store w) = false
         /\ hasBeenVisible (store w') = true
         /\ calls w'
            = calls w ++ [get_file_thumbnail (path (file (store w))) 200]).
Proof.
  cbv zeta. unfold exec, result.
  destruct (hasBeenVisible (store w)) eqn:Hv.
  { rewrite (on_entry_seen b w Hv). auto 6. }
  destruct b.
  2:{ destruct w as [[] ls cs co]. run_card.
      repeat split; auto; discriminate. }
  destruct w as [[f tl tu hv ob] ls cs co].
  cbn [store hasBeenVisible] in Hv. subst hv.
  unfold on_entry, bind, read, gets, update, modify.
  cbn [fst snd store localStorage calls console hasBeenVisible
       set_hasBeenVisible andb negb].
  match goal with
  | |- context [loadThumbnail backend ?w1] =>
      pose proof (loadThumbnail_frame w1) as F;
      cbv zeta in F; unfold exec, result in F;
      destruct (loadThumbnail backend w1)
        as [r [[f2 tl2 tu2 hv2 ob2] ls2 cs2 co2]]
  end.
  cbn [fst snd store calls file hasBeenVisible observing isImage] in F.
  destruct F as (-> & -> & -> & _ & Fc).
  cbn [fst snd store calls file hasBeenVisible observing isImage
       set_observing].
  repeat split; [discriminate|].
  destruct Fc as [-> | [Fi ->]]; auto.
Qed.

Lemma on_entry_runs b (w : World Card) :
  on_entry backend b w = (Normal tt, exec (on_entry backend b) w).
Proof.
  pose proof (on_entry_frame b w) as (R & _). unfold result, exec in *.
  destruct (on_entry backend b w) as [r w']. cbn [fst snd] in *.
  now subst r.
Qed.

Lemma onIntersect_cons b l (w : World Card) :
  onIntersect backend (b :: l) w
  = onIntersect backend l (exec (on_entry backend b) w).
Proof.
  unfold onIntersect. cbn [forEach]. unfold bind at 1.
  now rewrite on_entry_runs.
Qed.

Lemma isImage_file (c c' : Card) :
  file c' = file c -> isImage c' = isImage c.
Proof. unfold isImage. now intros ->. Qed.

Lemma onIntersect_frame l (w : World Card) :
  let w' := exec (onIntersect backend l) w in
  file (store w') = file (store w)
  /\ (hasBeenVisible (store w) = true -> w' = w)
  /\ (isImage (store w) = false -> calls w' = calls w).
Proof.
  cbv zeta. revert w. induction l as [|b l IH]; intros w.
  { repeat split. }
  unfold exec at 1 2 3. rewrite onIntersect_cons.
  fold (exec (onIntersect backend l) (exec (on_entry backend b) w)).
  destruct (IH (exec (on_entry backend b) w)) as (If & Iv & Ic).
  destruct (on_entry_frame b w) as (_ & Ef & Ev & Ec).
  cbv zeta in Ef, Ev, Ec.
  split; [congruence|]. split.
  - intros Hv. specialize (Ev Hv). rewrite Ev in Iv |- *. auto.
  - intros Hi. rewrite Ic by (rewrite (isImage_file _ _ Ef); exact Hi).
    destruct Ec as [Ec | [Ec _]]; congruence.
Qed.

Lemma handle_frame ev (w : World Card) :
  let w' := exec (handle backend ev) w in
  file (store w') = file (store w)
  /\ (isImage (store w) = false -> calls w' = calls w)
  /\ (raised ev = true -> hasBeenVisible (store w) = true ->
      hasBeenVisible (store w') = true
      /\ calls w' = calls w
      /\ thumbnailUrl (store w') = thumbnailUrl (store w)).
Proof.
  cbv zeta. destruct ev as [r|l| | |]; cbn [handle raised].
  - destruct w as [[f tl tu hv ob] ls cs co]. run_card.
    unfold isImage. cbn [file].
    destruct (mime_startsWith f "image/"), r; cbn; auto.
  - unfold exec, bind, read, gets. cbn [fst snd].
    destruct (observing (store w)); [|cbn; auto].
    destruct (onIntersect_frame l w) as (If & Iv & Ic).
    split; [exact If|]. split; [exact Ic|].
    intros _ Hv. fold (exec (onIntersect backend l) w).
    rewrite (Iv Hv). auto.
  - destruct w as [[] ls cs co]. cbn. auto.
  - destruct w as [[] ls cs co]. cbn. auto.
  - destruct (loadThumbnail_frame w) as (_ & Lf & _ & _ & Lc).
    split; [exact Lf|]. split; [|discriminate].
    intros Hi. destruct Lc as [Lc | [Lc _]]; congruence.
Qed.

Lemma run_cons ev evs (w : World Card) :
  run backend (ev :: evs) w = run backend evs (exec (handle backend ev) w).
Proof. reflexivity. Qed.

(** A card that is not an image never calls the backend. *)
Lemma run_not_image evs (w : World Card) :
  isImage (store w) = false ->
  calls (run backend evs w) = calls w
  /\ file (store (run backend evs w)) = file (store w).
Proof.
  revert w. induction evs as [|ev evs IH]; intros w Hi; [auto|].
  rewrite run_cons.
  destruct (handle_frame ev w) as (Hf & Hc & _).
  destruct (IH (exec (handle backend ev) w)) as (Ic & If).
  { now rewrite (isImage_file _ _ Hf). }
  split; [rewrite Ic; auto | congruence].
Qed.

(** Once the card has been visible, nothing the component raises makes
    it load again. *)
Lemma run_seen evs (w : World Card) :
  forallb raised evs = true ->
  hasBeenVisible (store w) = true ->
  calls (run backend evs w) = calls w
  /\ thumbnailUrl (store (run backend evs w)) = thumbnailUrl (store w).
Proof.
  revert w. induction evs as [|ev evs IH]; intros w Hr Hv; [auto|].
  cbn [forallb] in Hr. apply andb_true_iff in Hr as [Hev Hr].
  rewrite run_cons.
  destruct (handle_frame ev w) as (_ & _ & Hs).
  destruct (Hs Hev Hv) as (Hv' & Hc & Hu).
  destruct (IH (exec (handle backend ev) w) Hr Hv') as (Ic & Iu).
  split; congruence.
Qed.

Lemma onIntersect_requests l (w : World Card) :
  let w' := exec (onIntersect backend l) w in
  calls w' = calls w
  \/ hasBeenVisible (store w') = true
     /\ calls w' = calls w ++ [get_file_thumbnail (path (file (store w))) 200].
Proof.
  cbv zeta. revert w. induction l as [|b l IH]; intros w; [now left|].
  unfold exec at 1 2 3. rewrite onIntersect_cons.
  fold (exec (onIntersect backend l) (exec (on_entry backend b) w)).
  destruct (on_entry_frame b w) as (_ & Ef & _ & Ec). cbv zeta in Ef, Ec.
  destruct Ec as [Ec | (_ & _ & Ev & Ec)].
  - destruct (IH (exec (on_entry backend b) w)) as [Ic | [Iv Ic]].
    + left. congruence.
    + right. split; [exact Iv|]. now rewrite Ic, Ec, Ef.
  - destruct (onIntersect_frame l (exec (on_entry backend b) w))
      as (_ & Iv & _).
    rewrite (Iv Ev). auto.
Qed.

Lemma handle_requests ev (w : World Card) :
  raised ev = true ->
  let w' := exec (handle backend ev) w in
  calls w' = calls w
  \/ hasBeenVisible (store w') = true
     /\ calls w' = calls w ++ [get_file_thumbnail (path (file (store w))) 200].
Proof.
  cbv zeta. destruct ev as [r|l| | |]; cbn [handle raised]; intros Hr.
  - left. destruct w as [[f tl tu hv ob] ls cs co]. run_card.
    unfold isImage. cbn [file].
    now destruct (mime_startsWith f "image/"), r.
  - unfold exec, bind, read, gets. cbn [fst snd].
    destruct (observing (store w)); [|now left].
    apply onIntersect_requests.
  - now left.
  - now left.
  - discriminate.
Qed.

(** Whatever the component raises, a card asks the backend for its
    thumbnail at most once, and for its own path. *)
Lemma card_requests_at_most_once evs (w : World Card) :
  forallb raised evs = true ->
  calls (run backend evs w) = calls w
  \/ calls (run backend evs w)
     = calls w ++ [get_file_thumbnail (path (file (store w))) 200].
Proof.
  revert w. induction evs as [|ev evs IH]; intros w Hr; [now left|].
  cbn [forallb] in Hr. apply andb_true_iff in Hr as [Hev Hr].
  rewrite run_cons.
  destruct (handle_frame ev w) as (Hf & _).
  destruct (handle_requests ev w Hev) as [Hc | [Hv Hc]].
  - destruct (IH (exec (handle backend ev) w) Hr) as [Ic | Ic].
    + left. congruence.
    + right. now rewrite Ic, Hc, Hf.
  - destruct (run_seen evs (exec (handle backend ev) w) Hr Hv) as (Ic & _).
    right. congruence.
Qed.


End CardFacts.




(** C8.  A card whose file has no [mimeType] starting with ['image/']
    never requests a thumbnail: whatever happens to it, in whatever state,
    mounting, intersections, image errors, unmounting or a direct call of
    [loadThumbnail], the card makes no backend call at all, and
    [loadThumbnail] itself returns without touching the card. *)
Theorem no_thumbnail_for_non_image (backend : Backend)
    (w : World MediaCard.Card) (evs : list MediaCard.Event) :
  MediaCard.mime_startsWith (MediaCard.file (store w)) "image/" = false ->
  calls (MediaCard.run backend evs w) = calls w
  /\ MediaCard.thumbnail_requests (calls (MediaCard.run backend evs w))
     = MediaCard.thumbnail_requests (calls w)
  /\ MediaCard.loadThumbnail backend (MediaCard.run backend evs w)
     = (Normal tt, MediaCard.run backend evs w).
Proof.
  intros H.
  destruct (run_not_image backend evs w H) as (C & F).
  split; [exact C|]. split; [now rewrite C|].
  apply loadThumbnail_skips. left.
  unfold MediaCard.isImage. now rewrite F.
Qed.

Lemma no_thumbnail_for_non_image_witness :
  MediaCard.mime_startsWith Samples.clip "image/" = false
  /\ MediaCard.mime_startsWith Samples.untyped "image/" = false
  /\ calls (MediaCard.run Samples.healthy
              [MediaCard.Mounted true; MediaCard.Intersection [true];
               MediaCard.LoadThumbnail; MediaCard.ThumbnailError;
               MediaCard.LoadThumbnail]
              (Samples.card Samples.clip)) = []
  /\ calls (MediaCard.run Samples.healthy
              [MediaCard.Mounted true; MediaCard.Intersection [true];
               MediaCard.LoadThumbnail]
              (Samples.card Samples.photo))
     = [get_file_thumbnail "/home/ubuntu/Pictures/a.jpg" 200].
Proof.
  split; [reflexivity|]. split; [reflexivity|]. split.
  - apply (no_thumbnail_for_non_image Samples.healthy
             (Samples.card Samples.clip)). reflexivity.
  - vm_compute. reflexivity.
Defined.

(** * Further properties *)

(** ** Albums, media files and the filter *)

Lemma filter_split_perm {A} (p : A -> bool) (l : list A) :
  Permutation (List.filter p l ++ List.filter (fun x => negb (p x)) l) l.
Proof.
  induction l as [|x l IH]; [constructor|].
  cbn [List.filter]. destruct (p x); cbn [negb app].
  - now constructor.
  - apply Permutation_sym, Permutation_cons_app, Permutation_sym, IH.
Qed.

Lemma filter_filter_weaker {A} (p q : A -> bool) (l : list A) :
  (forall x, p x = true -> q x = true) ->
  List.filter p (List.filter q l) = List.filter p l.
Proof.
  intros H. induction l as [|x l IH]; [reflexivity|].
  cbn [List.filter]. destruct (q x) eqn:Hq; cbn [List.filter].
  - now rewrite IH.
  - destruct (p x) eqn:Hp; [|exact IH].
    rewrite (H x Hp) in Hq. discriminate.
Qed.

Lemma filter_swap {A} (p q : A -> bool) (l : list A) :
  List.filter p (List.filter q l) = List.filter q (List.filter p l).
Proof.
  induction l as [|x l IH]; [reflexivity|].
  cbn [List.filter]. destruct (q x) eqn:Hq; destruct (p x) eqn:Hp;
    cbn [List.filter]; rewrite ?Hq, ?Hp, IH; reflexivity.
Qed.

Lemma mediaFiles_listed (s : Store) (f : FileInfo) :
  In f (mediaFiles s) -> In f (filteredFiles s) /\ isDir f = false.
Proof.
  unfold mediaFiles. rewrite filter_In, negb_true_iff. tauto.
Qed.

Lemma filteredFiles_filter_on (s : Store) (f : FileInfo) :
  isMediaOnly s = true ->
  In f (filteredFiles s) ->
  isDir f = true
  \/ (exists mime, mimeType f = Some mime
                   /\ JS.startsWith mime "image/" = true)
  \/ mimeType f = Some "video".
Proof.
  unfold filteredFiles. intros ->. cbn [negb].
  rewrite filter_In, is_media_spec. tauto.
Qed.

(** X1.  [albums] and [mediaFiles] split [filteredFiles] between them:
    together they are a rearrangement of it, the albums are its
    directories and the media files its other entries, so every displayed
    entry is on exactly one of the two grids. *)
Theorem albums_and_mediaFiles_partition (s : Store) :
  Permutation (albums s ++ mediaFiles s) (filteredFiles s)
  /\ length (albums s) + length (mediaFiles s) = length (filteredFiles s)
  /\ (forall f, In f (albums s) <-> In f (filteredFiles s) /\ isDir f = true)
  /\ (forall f,
        In f (mediaFiles s) <-> In f (filteredFiles s) /\ isDir f = false).
Proof.
  unfold albums, mediaFiles.
  pose proof (filter_split_perm (fun f => isDir f) (filteredFiles s)) as P.
  split; [exact P|]. split.
  - rewrite <- (Permutation_length P). now rewrite length_app.
  - split; intros f; rewrite filter_In; [tauto|].
    now rewrite negb_true_iff.
Qed.

(** X2.  The media filter never hides a folder: [albums] is the list of
    directories of [files] whether the filter is on or off, and with the
    filter on [mediaFiles] is what the unfiltered [mediaFiles] keeps of
    image and bare-['video'] entries. *)
Theorem filter_keeps_albums (s : Store) :
  albums s = List.filter (fun f => isDir f) (files s)
  /\ albums (set_isMediaOnly true s) = albums (set_isMediaOnly false s)
  /\ mediaFiles (set_isMediaOnly true s)
     = List.filter is_media (mediaFiles (set_isMediaOnly false s)).
Proof.
  assert (D : forall f : FileInfo, isDir f = true -> is_media f = true).
  { intros f H. unfold is_media. now rewrite H. }
  assert (A : forall b, albums (set_isMediaOnly b s)
                        = List.filter (fun f => isDir f) (files s)).
  { intros b. unfold albums, filteredFiles. destruct s, b; cbn.
    - now apply filter_filter_weaker.
    - reflexivity. }
  split; [|split].
  - rewrite <- (A (isMediaOnly s)). now destruct s.
  - now rewrite !A.
  - unfold mediaFiles, filteredFiles. destruct s; cbn.
    apply filter_swap.
Qed.

(** ** Runs of store operations *)

Section RunFacts.

Variable backend : Backend.

Lemma run_app ops1 ops2 (w : World Store) :
  run backend (ops1 ++ ops2) w = run backend ops2 (run backend ops1 w).
Proof. unfold run. apply fold_left_app. Qed.

Lemma run_step op ops (w : World Store) :
  run backend (op :: ops) w = run backend ops (step backend op w).
Proof. reflexivity. Qed.

(** What one operation other than [connect] leaves alone. *)
Lemma step_connect_free op (w : World Store) :
  Runs.connect_free op = true ->
  let w' := step backend op w in
  savedConfig (store w') = savedConfig (store w)
  /\ rootPath (store w') = rootPath (store w)
  /\ isConnecting (store w') = isConnecting (store w)
  /\ (error (store w') = error (store w)
      \/ exists p e, op = DoLoadFiles p
                     /\ on_list_files backend (calls w) p = Rejected e
                     /\ error (store w') = Some e).
Proof.
  destruct op as [config|p| |]; cbn [Runs.connect_free step];
    [discriminate| | |]; intros _; unfold exec.
  - destruct (on_list_files backend (calls w) p) as [l|e] eqn:H.
    + rewrite (loadFiles_resolved backend p w l H).
      destruct w as [[] ? ? ?]. cbn. auto.
    + rewrite (loadFiles_rejected backend p w e H).
      destruct w as [[] ? ? ?]. cbn in *.
      repeat split. right. exists p, e. auto.
  - destruct (on_disconnect_cases backend w) as [H|[e H]].
    + rewrite (disconnect_resolved backend w H).
      destruct w as [[] ? ? ?]. cbn. auto.
    + rewrite (disconnect_rejected backend w e H).
      destruct w as [[] ? ? ?]. cbn. auto.
  - rewrite toggleMediaOnly_eq. destruct w as [[] ? ? ?]. cbn. auto.
Qed.

(** The calls one operation adds to the log, and the flags it resets. *)
Lemma step_calls op (w : World Store) :
  let w' := step backend op w in
  (exists added,
     calls w' = calls w ++ added
     /\ forallb Runs.complete_request added = true
     /\ length added <= 2)
  /\ (isConnecting (store w) = false -> isConnecting (store w') = false)
  /\ (isLoadingFiles (store w) = false -> isLoadingFiles (store w') = false).
Proof.
  assert (R : forall config, Runs.complete_request (request config) = true).
  { intros [c|c]; cbn.
    - unfold JS.num_or. destruct (Z.eqb_spec (Ec2ConnectionConfig.port c) 0);
        [reflexivity|]. now apply negb_true_iff, Z.eqb_neq.
    - now destruct (GitHubConnectionConfig.branch c),
        (GitHubConnectionConfig.localPath c). }
  destruct op as [config|p| |]; cbn [step]; cbv zeta.
  - destruct (reply_cases backend config w)
      as [(r & H & Hst)|[(r & e & H & Hst)|[msg H]]].
    + destruct (connect_accepted backend config w r H Hst)
        as (_ & _ & Cg & _ & _ & _ & _ & _ & L & F).
      split; [|split; [auto|]].
      * eexists. split; [exact L|]. cbn. rewrite R. auto.
      * intros Hl. revert F. unfold exec.
        rewrite (connect_accepted_eq backend config w r H Hst). cbv zeta.
        unfold exec.
        destruct (on_list_files backend (calls w ++ [request config])
                    (JS.opt_or (root_path r) "/")) as [l|e] eqn:E.
        -- erewrite loadFiles_resolved by exact E. reflexivity.
        -- erewrite loadFiles_rejected by exact E. reflexivity.
    + unfold exec. rewrite (connect_unsaved_eq backend config w r e H Hst).
      destruct w as [[] ? ? ?]. cbn. split; [|auto].
      eexists. split; [reflexivity|]. cbn. rewrite R. auto.
    + unfold exec. rewrite (connect_failed_eq backend config w msg H).
      destruct w as [[] ? ? ?]. cbn. split; [|auto].
      eexists. split; [reflexivity|]. cbn. rewrite R. auto.
  - unfold exec.
    destruct (on_list_files backend (calls w) p) as [l|e] eqn:H;
      [rewrite (loadFiles_resolved backend p w l H)
      |rewrite (loadFiles_rejected backend p w e H)];
      destruct w as [[] ? ? ?]; cbn; (split; [|auto]);
      (eexists; split; [reflexivity|]; cbn; auto).
  - unfold exec. destruct (on_disconnect_cases backend w) as [H|[e H]];
      [rewrite (disconnect_resolved backend w H)
      |rewrite (disconnect_rejected backend w e H)];
      destruct w as [[] ? ? ?]; cbn; (split; [|auto]);
      (eexists; split; [reflexivity|]; cbn; auto).
  - unfold exec. rewrite toggleMediaOnly_eq.
    destruct w as [[] ? ? ?]. cbn. split; [|auto].
    exists []. rewrite app_nil_r. cbn. auto.
Qed.

End RunFacts.

(** X3.  Only [connect] changes [savedConfig] and [rootPath]: listing,
    disconnecting and toggling the filter, in any order and whatever the
    backend answers, leave both as they are.  In particular the config of
    the last successful connect, key material included, is still in the
    store after [disconnect], where [useSavedConnection] replays it. *)
Theorem savedConfig_survives_disconnect (backend : Backend)
    (ops : list Op) (w : World Store) :
  forallb Runs.connect_free ops = true ->
  savedConfig (store (run backend ops w)) = savedConfig (store w)
  /\ rootPath (store (run backend ops w)) = rootPath (store w).
Proof.
  revert w. induction ops as [|op ops IH]; intros w H; [auto|].
  cbn [forallb] in H. apply andb_true_iff in H as [Hop H].
  rewrite run_step. destruct (IH (step backend op w) H) as (-> & ->).
  destruct (step_connect_free backend op w Hop) as (S & R & _). auto.
Qed.

Lemma savedConfig_survives_disconnect_witness :
  forallb Runs.connect_free [DoLoadFiles "/srv"; DoDisconnect; DoDisconnect]
  = true
  /\ isConnected
       (store (run Samples.healthy
                 [DoLoadFiles "/srv"; DoDisconnect; DoDisconnect]
                 Samples.browsing)) = false
  /\ savedConfig
       (store (run Samples.healthy
                 [DoLoadFiles "/srv"; DoDisconnect; DoDisconnect]
                 Samples.browsing)) = Some (Ec2 Samples.ubuntu).
Proof.
  split; [reflexivity|]. split; [vm_compute; reflexivity|].
  destruct (savedConfig_survives_disconnect Samples.healthy
              [DoLoadFiles "/srv"; DoDisconnect; DoDisconnect]
              Samples.browsing eq_refl) as (S & _).
  rewrite S. vm_compute. reflexivity.
Defined.

(** X4.  Nothing but [connect] clears [error].  After listings,
    disconnects and filter toggles an error once set is still set, and
    when every later listing succeeds it is still the same message: the
    gallery, which shows the error state whenever [error] is a non-empty
    message, keeps showing it over the files it has just loaded. *)
Theorem error_outlives_successful_listings (backend : Backend)
    (ops : list Op) (w : World Store) (e : string) :
  forallb Runs.connect_free ops = true ->
  error (store w) = Some e ->
  (exists e', error (store (run backend ops w)) = Some e')
  /\ ((forall history p,
         exists l, on_list_files backend history p = Resolved l) ->
      error (store (run backend ops w)) = Some e
      /\ (isLoadingFiles (store w) = false -> e <> "" ->
          Gallery.content (store (Gallery.open (run backend ops w)))
          = Gallery.error_state e)).
Proof.
  intros Hops He. split.
  - revert w e He. induction ops as [|op ops IH]; intros w e He; [eauto|].
    cbn [forallb] in Hops. apply andb_true_iff in Hops as [Hop Hops].
    rewrite run_step.
    destruct (step_connect_free backend op w Hop)
      as (_ & _ & _ & [E | (p & e' & _ & _ & E)]).
    + apply (IH Hops _ e). congruence.
    + apply (IH Hops _ e'). exact E.
  - intros Hall.
    assert (E : error (store (run backend ops w)) = Some e
                /\ (isLoadingFiles (store w) = false ->
                    isLoadingFiles (store (run backend ops w)) = false)).
    { revert w He. induction ops as [|op ops IH]; intros w He; [auto|].
      cbn [forallb] in Hops. apply andb_true_iff in Hops as [Hop Hops].
      rewrite run_step.
      destruct (step_connect_free backend op w Hop)
        as (_ & _ & _ & [E | (p & e' & _ & R & _)]).
      - destruct (IH Hops (step backend op w)) as (IE & IL); [congruence|].
        split; [exact IE|]. intros Hl. apply IL.
        now apply (step_calls backend op w).
      - destruct (Hall (calls w) p) as [l Hl]. congruence. }
    destruct E as (E & L). split; [exact E|].
    intros Hl Hne. unfold Gallery.content, Gallery.open.
    cbn [store connectionStore]. rewrite (L Hl), E.
    destruct e; [congruence | reflexivity].
Qed.

Lemma error_outlives_successful_listings_witness :
  forallb Runs.connect_free [DoLoadFiles "/home/ubuntu"; DoToggleMediaOnly]
  = true
  /\ error (store (exec (loadFiles Samples.unreachable "/srv")
                     Samples.browsing)) = Some "Error: Failed to list"
  /\ files (store (run Samples.healthy
                     [DoLoadFiles "/home/ubuntu"; DoToggleMediaOnly]
                     (exec (loadFiles Samples.unreachable "/srv")
                        Samples.browsing))) = Samples.listing
  /\ Gallery.content
       (store (Gallery.open
                 (run Samples.healthy
                    [DoLoadFiles "/home/ubuntu"; DoToggleMediaOnly]
                    (exec (loadFiles Samples.unreachable "/srv")
                       Samples.browsing))))
     = Gallery.error_state "Error: Failed to list".
Proof.
  assert (E : error (store (exec (loadFiles Samples.unreachable "/srv")
                              Samples.browsing))
              = Some "Error: Failed to list") by (vm_compute; reflexivity).
  destruct (error_outlives_successful_listings Samples.healthy
              [DoLoadFiles "/home/ubuntu"; DoToggleMediaOnly]
              (exec (loadFiles Samples.unreachable "/srv") Samples.browsing)
              "Error: Failed to list" eq_refl E) as (_ & P).
  destruct P as (_ & G).
  { intros history p. exists Samples.listing. reflexivity. }
  split; [reflexivity|]. split; [exact E|].
  split; [vm_compute; reflexivity|].
  apply G; [vm_compute; reflexivity | discriminate].
Defined.


(** X6.  No operation is left in progress: from a store that is neither
    connecting nor loading, after any sequence of operations, whatever
    the backend resolves or rejects, [isConnecting] and [isLoadingFiles]
    are both [false] again. *)
Theorem busy_flags_are_reset (backend : Backend) (ops : list Op)
    (w : World Store) :
  isConnecting (store w) = false ->
  isLoadingFiles (store w) = false ->
  isConnecting (store (run backend ops w)) = false
  /\ isLoadingFiles (store (run backend ops w)) = false.
Proof.
  revert w. induction ops as [|op ops IH]; intros w Hc Hl; [auto|].
  rewrite run_step.
  destruct (step_calls backend op w) as (_ & C & L). apply IH; auto.
Qed.

Lemma busy_flags_are_reset_witness :
  isConnecting (store fresh) = false
  /\ isLoadingFiles (store fresh) = false
  /\ isConnecting
       (store (run Samples.unreachable
                 [DoConnect (Ec2 Samples.ubuntu); DoLoadFiles "/";
                  DoDisconnect] fresh)) = false
  /\ isLoadingFiles
       (store (run Samples.unreachable
                 [DoConnect (Ec2 Samples.ubuntu); DoLoadFiles "/";
                  DoDisconnect] fresh)) = false.
Proof.
  split; [reflexivity|]. split; [reflexivity|].
  apply (busy_flags_are_reset Samples.unreachable
           [DoConnect (Ec2 Samples.ubuntu); DoLoadFiles "/"; DoDisconnect]
           fresh); reflexivity.
Defined.

(** X7.  A successful connect (the backend reports success and
    [localStorage] takes the entry) starts from a clean error and ends
    with the outcome of its first listing: [error] is [null] when the listing
    succeeds, whatever error was shown before, and the listing's message
    when it fails, and in that case the call has still returned [true]
    with [isConnected] set. *)
Theorem connect_reports_first_listing (backend : Backend)
    (config : ConnectionConfig) (w : World Store) (r : ConnectResponse) :
  accepted backend w config r ->
  stored backend w config ->
  let w' := exec (connect backend config) w in
  let root := JS.opt_or (root_path r) "/" in
  (forall l,
     on_list_files backend (calls w ++ [request config]) root = Resolved l ->
     error (store w') = None /\ files (store w') = l)
  /\ (forall e,
        on_list_files backend (calls w ++ [request config]) root
        = Rejected e ->
        result (connect backend config) w = Normal true
        /\ isConnected (store w') = true
        /\ error (store w') = Some e
        /\ files (store w') = files (store w)).
Proof.
  intros H Hst. cbv zeta.
  destruct (connect_accepted backend config w r H Hst)
    as (R & C & _ & _ & _ & _ & _ & _ & _ & F).
  split.
  - intros l Hl. rewrite Hl in F. tauto.
  - intros e He. rewrite He in F. tauto.
Qed.

Lemma connect_reports_first_listing_witness :
  accepted Samples.half_broken Samples.hosted (GitHub Samples.repo)
    (Samples.ok (Some "/"))
  /\ stored Samples.half_broken Samples.hosted (GitHub Samples.repo)
  /\ result (connect Samples.half_broken (GitHub Samples.repo))
       Samples.hosted = Normal true
  /\ error (store (exec (connect Samples.half_broken (GitHub Samples.repo))
                     Samples.hosted)) = Some "Error: Failed to list".
Proof.
  assert (H : accepted Samples.half_broken Samples.hosted
                (GitHub Samples.repo) (Samples.ok (Some "/")))
    by (split; reflexivity).
  assert (Hst : stored Samples.half_broken Samples.hosted
                  (GitHub Samples.repo)) by reflexivity.
  destruct (connect_reports_first_listing _ _ _ _ H Hst) as (_ & P).
  destruct (P "Error: Failed to list" eq_refl) as (R & _ & E & _).
  auto.
Defined.

(** X8.  [toggleMediaOnly] only flips the filter: it calls neither the
    backend nor [localStorage], and toggling twice gives back the very
    same world, so the displayed list after two toggles is the one
    before. *)
Theorem toggleMediaOnly_involution (w : World Store) :
  result toggleMediaOnly w = Normal tt
  /\ isMediaOnly (store (exec toggleMediaOnly w))
     = negb (isMediaOnly (store w))
  /\ files (store (exec toggleMediaOnly w)) = files (store w)
  /\ calls (exec toggleMediaOnly w) = calls w
  /\ localStorage (exec toggleMediaOnly w) = localStorage w
  /\ exec toggleMediaOnly (exec toggleMediaOnly w) = w.
Proof.
  unfold exec, result. rewrite !toggleMediaOnly_eq.
  destruct w as [[] ? ? ?]. cbn. rewrite negb_involutive. auto 6.
Qed.

(** ** The navigation guard *)

(** X9.  Every navigation settles after at most one redirect, on a route
    the guard lets through: a route that requires a connection is shown
    only while connected, the login page only while disconnected, and a
    route the guard accepts is not redirected. *)
Theorem guard_settles (to : Router.Route) (isConnected : bool) :
  exists settled,
    (forall fuel, 2 <= fuel ->
                  Router.navigate fuel to isConnected = Some settled)
    /\ Router.beforeEach settled isConnected = Router.proceed
    /\ (Router.requiresConnection settled = true -> isConnected = true)
    /\ (settled = Router.login -> isConnected = false)
    /\ (Router.beforeEach to isConnected = Router.proceed -> settled = to)
    /\ (Router.requiresConnection to = true -> isConnected = false ->
        settled = Router.login)
    /\ (to = Router.login -> isConnected = true -> settled = Router.gallery).
Proof.
  exists (if isConnected
          then (if Router.is_login to then Router.gallery else to)
          else (if Router.requiresConnection to then Router.login else to)).
  split.
  { intros [|[|fuel]] Hf; [lia | lia |].
    destruct to, isConnected; reflexivity. }
  destruct to, isConnected; cbn; repeat split; try congruence; discriminate.
Qed.

Lemma guard_settles_witness :
  Router.navigate 2 Router.gallery false = Some Router.login
  /\ Router.navigate 2 Router.login true = Some Router.gallery.
Proof.
  destruct (guard_settles Router.gallery false)
    as (s & N & _ & _ & _ & _ & R & _).
  destruct (guard_settles Router.login true)
    as (s' & N' & _ & _ & _ & _ & _ & R').
  rewrite (N 2), (N' 2) by lia.
  rewrite (R eq_refl eq_refl), (R' eq_refl eq_refl). split; reflexivity.
Defined.

(** ** Breadcrumbs *)

Section SplitFacts.

Variable sep : ascii.

Lemma split_not_nil (s : string) : JSArray.split sep s <> [].
Proof.
  destruct s as [|c s]; cbn [JSArray.split]; [discriminate|].
  destruct (Ascii.eqb c sep); [discriminate|].
  destruct (JSArray.split sep s); discriminate.
Qed.

Lemma split_free (s : string) :
  Forall (fun piece => JSArray.free_of sep piece = true)
    (JSArray.split sep s).
Proof.
  induction s as [|c s IH]; cbn [JSArray.split].
  { repeat constructor. }
  destruct (Ascii.eqb c sep) eqn:E.
  - constructor; [reflexivity | exact IH].
  - destruct (JSArray.split sep s) as [|piece pieces].
    + repeat constructor. cbn. now rewrite E.
    + inversion IH; subst. constructor; [|assumption].
      cbn. now rewrite E.
Qed.

(** [s.split(sep).join(sep) === s] *)
Lemma join_split (s : string) :
  JSArray.join (String sep EmptyString) (JSArray.split sep s) = s.
Proof.
  induction s as [|c s IH]; [reflexivity|]. cbn [JSArray.split].
  destruct (Ascii.eqb_spec c sep) as [->|Hne].
  - pose proof (split_not_nil s) as Hn.
    destruct (JSArray.split sep s) as [|piece pieces]; [congruence|].
    change (String sep (JSArray.join (String sep "") (piece :: pieces))
            = String sep s).
    now rewrite IH.
  - pose proof (split_not_nil s) as Hn.
    destruct (JSArray.split sep s) as [|piece pieces]; [congruence|].
    rewrite <- IH. destruct pieces; reflexivity.
Qed.

Lemma split_free_piece (p : string) :
  JSArray.free_of sep p = true -> JSArray.split sep p = [p].
Proof.
  induction p as [|c p IH]; [reflexivity|].
  cbn [JSArray.free_of JSArray.split]. intros H.
  apply andb_true_iff in H as [Hc Hp]. apply negb_true_iff in Hc.
  now rewrite Hc, (IH Hp).
Qed.

Lemma split_append_piece (p rest : string) :
  JSArray.free_of sep p = true ->
  JSArray.split sep (p +:+ String sep rest) = p :: JSArray.split sep rest.
Proof.
  induction p as [|c p IH]; intros H.
  - change ("" +:+ String sep rest) with (String sep rest).
    cbn [JSArray.split]. now rewrite Ascii.eqb_refl.
  - cbn [JSArray.free_of] in H. apply andb_true_iff in H as [Hc Hp].
    apply negb_true_iff in Hc.
    change (String c p +:+ String sep rest)
      with (String c (p +:+ String sep rest)).
    cbn [JSArray.split]. now rewrite Hc, (IH Hp).
Qed.

(** [parts.join(sep).split(sep)] gives the parts back when there are some
    and none contains the separator. *)
Lemma split_join (parts : list string) :
  parts <> [] ->
  Forall (fun piece => JSArray.free_of sep piece = true) parts ->
  JSArray.split sep (JSArray.join (String sep EmptyString) parts) = parts.
Proof.
  induction parts as [|p parts IH]; [congruence|]. intros _ H.
  inversion H as [|? ? Hp Hps]; subst.
  destruct parts as [|q parts].
  - now apply split_free_piece.
  - change (JSArray.join (String sep "") (p :: q :: parts))
      with (p +:+ String sep (JSArray.join (String sep "") (q :: parts))).
    rewrite (split_append_piece _ _ Hp), IH; [reflexivity | discriminate
                                                    | assumption].
Qed.

End SplitFacts.

Lemma parts_of_spec (currentPath : string) :
  Forall (fun part => JSArray.truthy part = true
                      /\ JSArray.free_of "/" part = true)
    (Gallery.parts_of currentPath).
Proof.
  unfold Gallery.parts_of. apply List.Forall_forall. intros part Hin.
  apply filter_In in Hin as [Hin Ht]. split; [exact Ht|].
  pose proof (split_free "/" currentPath) as F.
  rewrite List.Forall_forall in F. now apply F.
Qed.

Lemma filter_truthy_id (parts : list string) :
  Forall (fun part => JSArray.truthy part = true
                      /\ JSArray.free_of "/" part = true) parts ->
  List.filter JSArray.truthy parts = parts.
Proof.
  induction 1 as [|p parts [Ht _] _ IH]; [reflexivity|].
  cbn [List.filter]. now rewrite Ht, IH.
Qed.

(** The path a breadcrumb loads splits back into the parts it was joined
    from. *)
Lemma parts_of_join (parts : list string) :
  Forall (fun part => JSArray.truthy part = true
                      /\ JSArray.free_of "/" part = true) parts ->
  Gallery.parts_of ("/" +:+ JSArray.join "/" parts) = parts.
Proof.
  intros H. unfold Gallery.parts_of.
  change ("/" +:+ JSArray.join "/" parts)
    with (String "/" (JSArray.join "/" parts)).
  cbn [JSArray.split]. rewrite Ascii.eqb_refl. cbn [List.filter JSArray.truthy].
  destruct parts as [|p parts]; [reflexivity|].
  rewrite split_join; [now apply filter_truthy_id | discriminate |].
  revert H. apply List.Forall_impl. now intros a [_ Hf].
Qed.

(** X10.  The breadcrumb parts of a path are its non-empty segments: none
    is empty and none contains a slash, however many slashes the path
    has, and the root ['/'] has none.  Joining them under a leading slash
    gives a path with the same parts, and for a path already in that form
    gives the path itself. *)
Theorem breadcrumb_parts_normalise (currentPath : string) :
  Forall (fun part => part <> "" /\ JSArray.free_of "/" part = true)
    (Gallery.parts_of currentPath)
  /\ Gallery.parts_of ("/" +:+ JSArray.join "/" (Gallery.parts_of currentPath))
     = Gallery.parts_of currentPath
  /\ Gallery.parts_of "/" = []
  /\ Gallery.parts_of "" = []
  /\ (forall parts,
        Forall (fun part => JSArray.truthy part = true
                            /\ JSArray.free_of "/" part = true) parts ->
        currentPath = "/" +:+ JSArray.join "/" parts ->
        Gallery.parts_of currentPath = parts).
Proof.
  split; [|split; [|split; [|split]]]; try reflexivity.
  - generalize (parts_of_spec currentPath). apply List.Forall_impl.
    intros part [Ht Hf]. split; [|exact Hf]. now destruct part.
  - apply parts_of_join, parts_of_spec.
  - intros parts H ->. now apply parts_of_join.
Qed.

Lemma breadcrumb_parts_normalise_witness :
  Gallery.parts_of "//home//ubuntu/Pictures/" = ["home"; "ubuntu"; "Pictures"]
  /\ Gallery.parts_of "/home/ubuntu/Pictures" = ["home"; "ubuntu"; "Pictures"].
Proof.
  split; [reflexivity|].
  apply (breadcrumb_parts_normalise "/home/ubuntu/Pictures");
    [|reflexivity].
  repeat constructor.
Defined.

(** ** The gallery view *)

Section GalleryFacts.

Import Gallery.

Variable backend : Backend.

Lemma on_store_eq {R A} (m : M (World Store) A) (w : World (View R)) :
  on_store m w = (result m (session w), resume (exec m (session w)) w).
Proof. unfold on_store, result, exec. now destruct (m (session w)). Qed.

(** What [loadFiles] does whatever the listing answers. *)
Lemma loadFiles_always (p : string) (w : World Store) :
  let w' := exec (loadFiles backend p) w in
  result (loadFiles backend p) w = Normal tt
  /\ currentPath (store w') = p
  /\ calls w' = calls w ++ [list_files p]
  /\ localStorage w' = localStorage w
  /\ isConnected (store w') = isConnected (store w)
  /\ rootPath (store w') = rootPath (store w).
Proof.
  cbv zeta. unfold exec, result.
  destruct (on_list_files backend (calls w) p) as [l|e] eqn:H;
    [rewrite (loadFiles_resolved backend p w l H)
    |rewrite (loadFiles_rejected backend p w e H)];
    destruct w as [[] ? ? ?]; cbn; auto 7.
Qed.

(** A handler that lists [p] and folds the breadcrumb again. *)
Lemma list_then_fold (p : string) (w : World (View Refs)) :
  let m := on_store (loadFiles backend p) ;;
           update (set_refs (set_showAllParts false)) in
  result m w = Normal tt
  /\ currentPath (connectionStore (store (exec m w))) = p
  /\ calls (exec m w) = calls w ++ [list_files p]
  /\ showAllParts (refs (store (exec m w))) = false
  /\ route (store (exec m w)) = route (store w).
Proof.
  cbv zeta. unfold exec, result, bind. rewrite on_store_eq.
  destruct (loadFiles_always p (session w)) as (R & P & C & _).
  rewrite R. unfold update, modify. cbn [fst snd].
  destruct w as [[s rt rf] ? ? ?]. cbn in *. auto.
Qed.

Lemma relative_nat {A} (l : list A) (n : nat) :
  n <= length l -> JSArray.relative l (Z.of_nat n) = n.
Proof.
  intros H. unfold JSArray.relative.
  destruct (Z.ltb_spec (Z.of_nat n) 0); [lia|]. lia.
Qed.

Lemma slice_prefix {A} (l : list A) (n : nat) :
  n <= length l -> JSArray.slice 0 (Z.of_nat n) l = firstn n l.
Proof.
  intros H. unfold JSArray.slice.
  change (JSArray.relative l 0) with (JSArray.relative l (Z.of_nat 0)).
  rewrite !relative_nat by lia. now rewrite Nat.sub_0_r.
Qed.

(** The parts the breadcrumb leaves out, in front of the visible ones. *)
Lemma visible_suffix (v : View Refs) :
  let hidden :=
    firstn (length (currentPathParts v) - length (visiblePathParts v))
      (currentPathParts v) in
  currentPathParts v = hidden ++ visiblePathParts v
  /\ length hidden
     = (if hasHiddenParts v then length (currentPathParts v) - 4 else 0)
  /\ (hasHiddenParts v = true -> length (visiblePathParts v) = 4).
Proof.
  cbv zeta. unfold visiblePathParts, hasHiddenParts, maxVisibleParts.
  set (parts := currentPathParts v).
  destruct (showAllParts (refs v)); cbn [orb negb andb].
  { rewrite Nat.sub_diag, andb_false_r.
    split; [reflexivity|]. split; [reflexivity | discriminate]. }
  rewrite andb_true_r.
  destruct (Z.leb_spec (Z.of_nat (length parts)) 4) as [Hle|Hgt].
  { rewrite Nat.sub_diag.
    destruct (Z.gtb_spec (Z.of_nat (length parts)) 4); [lia|].
    split; [reflexivity|]. split; [reflexivity | discriminate]. }
  destruct (Z.gtb_spec (Z.of_nat (length parts)) 4); [|lia].
  unfold JSArray.slice_from.
  assert (E : JSArray.relative parts (Z.opp 4) = length parts - 4).
  { unfold JSArray.relative. destruct (Z.ltb_spec (Z.opp 4) 0); lia. }
  rewrite E, length_skipn.
  replace (length parts - (length parts - (length parts - 4)))
    with (length parts - 4) by lia.
  rewrite firstn_skipn, length_firstn.
  split; [reflexivity|]. split; [lia|]. intros _. lia.
Qed.

Lemma navigateToPath_eq (index : Z) (w : World (View Refs)) :
  navigateToPath backend index w
  = (on_store
       (loadFiles backend
          ("/" +:+ JSArray.join "/"
             (JSArray.slice 0
                ((if hasHiddenParts (store w)
                  then Z.of_nat (length (currentPathParts (store w)))
                       - maxVisibleParts + index
                  else index) + 1)%Z
                (currentPathParts (store w))))) ;;
     update (set_refs (set_showAllParts false))) w.
Proof. reflexivity. Qed.

End GalleryFacts.

(** X11.  The breadcrumb shows the whole path when it has at most four
    parts or after the ellipsis was clicked, and otherwise exactly its
    last four parts: the visible parts are always a suffix of the path's
    parts, and parts are hidden only when there are more than four and
    the trail is folded. *)
Theorem breadcrumb_shows_last_parts (v : View Gallery.Refs) :
  exists hidden,
    Gallery.currentPathParts v = hidden ++ Gallery.visiblePathParts v
    /\ (Gallery.hasHiddenParts v = true <-> hidden <> [])
    /\ (Gallery.hasHiddenParts v = true ->
        length (Gallery.visiblePathParts v) = 4)
    /\ (Gallery.hasHiddenParts v = false ->
        Gallery.visiblePathParts v = Gallery.currentPathParts v)
    /\ (Gallery.showAllParts (refs v) = false ->
        length (Gallery.visiblePathParts v) <= 4).
Proof.
  destruct (visible_suffix v) as (E & L & V). cbv zeta in E, L.
  set (hidden := firstn _ _) in *. exists hidden.
  split; [exact E|].
  assert (N : Gallery.hasHiddenParts v = true <-> hidden <> []).
  { destruct (Gallery.hasHiddenParts v) eqn:Hh.
    - split; [intros _ | auto]. intros Hn. rewrite Hn in L. cbn in L.
      revert Hh. unfold Gallery.hasHiddenParts, Gallery.maxVisibleParts.
      destruct (Z.gtb_spec
                  (Z.of_nat (length (Gallery.currentPathParts v))) 4);
        [lia | discriminate].
    - split; [discriminate|]. intros Hn.
      destruct hidden; [congruence | discriminate]. }
  split; [exact N|]. split; [exact V|]. split.
  - intros Hh. rewrite Hh in L. destruct hidden; [|discriminate].
    symmetry. exact E.
  - intros Hs. destruct (Gallery.hasHiddenParts v) eqn:Hh.
    + rewrite (V eq_refl). lia.
    + revert Hh. unfold Gallery.hasHiddenParts, Gallery.visiblePathParts,
        Gallery.maxVisibleParts. rewrite Hs. cbn [negb orb].
      rewrite andb_true_r.
      destruct (Z.leb_spec (Z.of_nat (length (Gallery.currentPathParts v))) 4);
        [lia|].
      destruct (Z.gtb_spec (Z.of_nat (length (Gallery.currentPathParts v))) 4);
        [discriminate | lia].
Qed.

(** X12.  Clicking the [index]-th visible breadcrumb lists the path that
    ends at that very part, also when leading parts are hidden behind the
    ellipsis: whatever the listing answers, [currentPath] becomes the
    slash-joined parts up to the clicked one, the trail is cut to those
    parts, exactly one [list_files] call is made for that path, and the
    trail is folded again. *)
Theorem navigateToPath_reaches_clicked_part (backend : Backend)
    (w : World (View Gallery.Refs)) (index : nat) (part : string) :
  nth_error (Gallery.visiblePathParts (store w)) index = Some part ->
  let w' := exec (Gallery.navigateToPath backend (Z.of_nat index)) w in
  exists before,
    Gallery.currentPathParts (store w') = before ++ [part]
    /\ Gallery.currentPathParts (store w)
       = before ++ part
         :: skipn (S index) (Gallery.visiblePathParts (store w))
    /\ Connection.currentPath (connectionStore (store w'))
       = "/" +:+ JSArray.join "/" (before ++ [part])
    /\ calls w'
       = calls w ++ [list_files ("/" +:+ JSArray.join "/" (before ++ [part]))]
    /\ Gallery.showAllParts (refs (store w')) = false
    /\ result (Gallery.navigateToPath backend (Z.of_nat index)) w
       = Normal tt.
Proof.
  intros Hnth. cbv zeta.
  destruct (visible_suffix (store w)) as (E & L & V). cbv zeta in E, L.
  set (hidden := firstn _ _) in *.
  set (visible := Gallery.visiblePathParts (store w)) in *.
  set (parts := Gallery.currentPathParts (store w)) in *.
  assert (Hlt : index < length visible).
  { apply nth_error_Some. congruence. }
  assert (Hvis : visible = firstn index visible ++ part :: skipn (S index) visible).
  { rewrite <- (firstn_skipn index visible) at 1. f_equal.
    clear -Hnth. revert index Hnth.
    induction visible as [|x xs IH]; intros [|i] H; try discriminate.
    - injection H as ->. reflexivity.
    - cbn. now apply IH. }
  exists (hidden ++ firstn index visible).
  assert (Hlen : length parts = length hidden + length visible).
  { rewrite E at 1. now rewrite length_app. }
  assert (Hactual :
    ((if Gallery.hasHiddenParts (store w)
      then Z.of_nat (length parts) - Gallery.maxVisibleParts
           + Z.of_nat index
      else Z.of_nat index) + 1
     = Z.of_nat (length hidden + S index))%Z).
  { unfold Gallery.maxVisibleParts.
    destruct (Gallery.hasHiddenParts (store w)) eqn:Hh.
    - specialize (V eq_refl). lia.
    - lia. }
  assert (Hslice :
    JSArray.slice 0
      ((if Gallery.hasHiddenParts (store w)
        then Z.of_nat (length parts) - Gallery.maxVisibleParts
             + Z.of_nat index
        else Z.of_nat index) + 1)%Z parts
    = (hidden ++ firstn index visible) ++ [part]).
  { rewrite Hactual, slice_prefix by lia.
    rewrite E, firstn_app, firstn_all2 by lia.
    replace (length hidden + S index - length hidden) with (S index) by lia.
    rewrite <- app_assoc. f_equal.
    rewrite Hvis at 1. rewrite firstn_app, length_firstn.
    replace (Init.Nat.min index (length visible)) with index by lia.
    replace (S index - index) with 1 by lia.
    rewrite firstn_all2 by (rewrite length_firstn; lia). reflexivity. }
  unfold exec, result. rewrite navigateToPath_eq. fold parts.
  rewrite Hslice.
  set (p := "/" +:+ JSArray.join "/" ((hidden ++ firstn index visible) ++ [part])).
  destruct (list_then_fold backend p w) as (R & P & C & Hs & _).
  cbv zeta in R, P, C, Hs. unfold exec, result in R, P, C, Hs.
  split; [|split; [|split; [exact P|split; [exact C|split; [exact Hs|exact R]]]]].
  - unfold Gallery.currentPathParts. rewrite P. unfold p.
    apply parts_of_join.
    assert (F : Forall (fun part => JSArray.truthy part = true
                                    /\ JSArray.free_of "/" part = true) parts)
      by apply parts_of_spec.
    rewrite <- Hslice, Hactual, slice_prefix by lia.
    rewrite <- (firstn_skipn (length hidden + S index) parts) in F.
    now apply Forall_app in F as [F _].
  - rewrite E at 1. rewrite <- app_assoc. f_equal. exact Hvis.
Qed.

Lemma breadcrumb_shows_last_parts_witness :
  Gallery.currentPathParts (store Scenes.deep) = ["a"; "b"; "c"; "d"; "e"; "f"]
  /\ Gallery.hasHiddenParts (store Scenes.deep) = true
  /\ Gallery.visiblePathParts (store Scenes.deep) = ["c"; "d"; "e"; "f"]
  /\ length (Gallery.visiblePathParts (store Scenes.deep)) = 4.
Proof.
  destruct (breadcrumb_shows_last_parts (store Scenes.deep))
    as (hidden & _ & _ & V & _).
  assert (H : Gallery.hasHiddenParts (store Scenes.deep) = true)
    by (vm_compute; reflexivity).
  split; [vm_compute; reflexivity|]. split; [exact H|].
  split; [vm_compute; reflexivity | exact (V H)].
Defined.

Lemma navigateToPath_reaches_clicked_part_witness :
  nth_error (Gallery.visiblePathParts (store Scenes.deep)) 1 = Some "d"
  /\ Connection.currentPath
       (connectionStore
          (store (exec (Gallery.navigateToPath Samples.healthy 1)
                    Scenes.deep))) = "/a/b/c/d".
Proof.
  assert (H : nth_error (Gallery.visiblePathParts (store Scenes.deep)) 1
              = Some "d") by (vm_compute; reflexivity).
  split; [exact H|].
  destruct (navigateToPath_reaches_clicked_part Samples.healthy Scenes.deep
              1 "d" H) as (before & P & Q & C & _).
  cbv zeta in P, Q, C. change (Z.of_nat 1) with 1%Z in C.
  rewrite C. clear C P.
  assert (B : before = ["a"; "b"; "c"]).
  { replace (Gallery.currentPathParts (store Scenes.deep))
      with (["a"; "b"; "c"] ++ "d" :: ["e"; "f"]) in Q
      by (vm_compute; reflexivity).
    replace (skipn 2 (Gallery.visiblePathParts (store Scenes.deep)))
      with ["e"; "f"] in Q by (vm_compute; reflexivity).
    symmetry. exact (app_inv_tail _ _ _ Q). }
  rewrite B. reflexivity.
Defined.

(** X13.  With the media-only filter on, the only listed files this
    gallery opens are images.  A file whose type is the bare ['video'] is
    listed, but clicking it does nothing at all, because [openFile] tests
    the ['video/'] prefix; the earlier gallery, which tests
    [=== 'video'], opens every file the filter lists. *)
Theorem filter_lists_what_openFile_ignores (w : World (View Gallery.Refs))
    (f : FileInfo) (index : Z) :
  isMediaOnly (connectionStore (store w)) = true ->
  In f (mediaFiles (connectionStore (store w))) ->
  (Gallery.opens f = true <-> Gallery.mime_startsWith f "image/" = true)
  /\ LegacyGallery.opens f = true
  /\ (mimeType f = Some "video" ->
      Gallery.openFile f index w = (Normal tt, w))
  /\ (Gallery.mime_startsWith f "image/" = true ->
      isConnected (connectionStore (store w)) = true ->
      route (store (exec (Gallery.openFile f index) w))
      = Router.viewer
          {| Router.file := Some (path f); Router.type := mimeType f;
             Router.name := Some (name f); Router.index := Some index |}).
Proof.
  intros Hon Hin.
  apply mediaFiles_listed in Hin as [Hin Hd].
  pose proof (filteredFiles_filter_on _ f Hon Hin) as Hm.
  rewrite Hd in Hm.
  assert (V : mimeType f = Some "video" -> Gallery.opens f = false).
  { intros E. unfold Gallery.opens, Gallery.mime_startsWith. now rewrite E. }
  assert (K : Gallery.mime_startsWith f "image/" = true
              \/ mimeType f = Some "video").
  { destruct Hm as [Hm|[(m & E & Hm)|Hm]]; [discriminate| |now right].
    left. unfold Gallery.mime_startsWith. now rewrite E. }
  split; [|split; [|split]].
  - split.
    + intros Ho. destruct K as [K|K]; [exact K|].
      rewrite (V K) in Ho. discriminate.
    + intros Hi. unfold Gallery.opens. now rewrite Hi.
  - unfold LegacyGallery.opens, LegacyMediaCard.isVideo.
    destruct K as [K|K]; [now rewrite K|]. rewrite K. apply orb_true_r.
  - intros E. unfold Gallery.openFile. now rewrite (V E).
  - intros Hi Hc. unfold Gallery.openFile, Gallery.opens. rewrite Hi.
    cbn [orb]. destruct w as [[s rt rf] ? ? ?]. cbn in Hc.
    unfold exec, push, bind, read, gets, update, modify.
    cbn [fst snd store connectionStore]. rewrite Hc. reflexivity.
Qed.

Lemma filter_lists_what_openFile_ignores_witness :
  isMediaOnly (connectionStore (store Scenes.filtered)) = true
  /\ In Samples.bare_clip (mediaFiles (connectionStore (store Scenes.filtered)))
  /\ Gallery.openFile Samples.bare_clip 1 Scenes.filtered
     = (Normal tt, Scenes.filtered)
  /\ LegacyGallery.opens Samples.bare_clip = true.
Proof.
  assert (H1 : isMediaOnly (connectionStore (store Scenes.filtered)) = true)
    by (vm_compute; reflexivity).
  assert (H2 : In Samples.bare_clip
                 (mediaFiles (connectionStore (store Scenes.filtered)))).
  { replace (mediaFiles (connectionStore (store Scenes.filtered)))
      with [Samples.photo; Samples.bare_clip] by (vm_compute; reflexivity).
    right. left. reflexivity. }
  destruct (filter_lists_what_openFile_ignores Scenes.filtered
              Samples.bare_clip 1 H1 H2) as (_ & L & N & _).
  split; [exact H1|]. split; [exact H2|].
  split; [apply N; reflexivity | exact L].
Defined.

(** X14.  Logging out depends on the backend.  [handleLogout] never
    throws; when the disconnect invocation resolves the user lands on the
    login page, disconnected.  When it is rejected while connected, the
    store stays connected and the guard turns the navigation to ['/']
    back into the gallery: the user cannot leave the session. *)
Theorem logout_needs_the_backend (backend : Backend)
    (w : World (View Gallery.Refs)) :
  let w' := exec (Gallery.handleLogout backend) w in
  result (Gallery.handleLogout backend) w = Normal tt
  /\ (on_disconnect backend (calls w) = Resolved tt ->
      isConnected (connectionStore (store w')) = false
      /\ route (store w') = Router.login)
  /\ (forall e,
        on_disconnect backend (calls w) = Rejected e ->
        isConnected (connectionStore (store w)) = true ->
        isConnected (connectionStore (store w')) = true
        /\ route (store w') = Router.gallery
        /\ localStorage w' = localStorage w).
Proof.
  cbv zeta. unfold exec, result, Gallery.handleLogout, bind.
  rewrite on_store_eq. unfold result, exec.
  destruct (on_disconnect_cases backend (session w)) as [H|[e H]].
  - rewrite (disconnect_resolved backend (session w) H).
    destruct w as [[s rt rf] ? ? ?]. cbn.
    split; [reflexivity|]. split; [auto|].
    intros e' He'. cbn in H. congruence.
  - rewrite (disconnect_rejected backend (session w) e H).
    destruct w as [[s rt rf] ? ? ?]. cbn.
    unfold push, bind, read, gets, update, modify. cbn.
    destruct (isConnected s) eqn:Hc; cbn.
    + split; [reflexivity|]. split; [intros H'; cbn in H; congruence|].
      auto.
    + split; [reflexivity|]. split; [intros H'; cbn in H; congruence|].
      intros e' _ Hc'. discriminate.
Qed.

Lemma logout_needs_the_backend_witness :
  on_disconnect Samples.stuck (calls Scenes.held)
  = Rejected "Error: channel closed"
  /\ isConnected (connectionStore (store Scenes.held)) = true
  /\ route (store (exec (Gallery.handleLogout Samples.stuck) Scenes.held))
     = Router.gallery
  /\ route (store (exec (Gallery.handleLogout Samples.healthy)
                     (Gallery.open Samples.browsing)))
     = Router.login.
Proof.
  assert (C : isConnected (connectionStore (store Scenes.held)) = true)
    by (vm_compute; reflexivity).
  destruct (logout_needs_the_backend Samples.stuck Scenes.held)
    as (_ & _ & P).
  destruct (P _ eq_refl C) as (_ & G & _).
  destruct (logout_needs_the_backend Samples.healthy
              (Gallery.open Samples.browsing)) as (_ & Q & _).
  destruct (Q eq_refl) as (_ & L).
  auto.
Defined.

(** ** More on the media card *)

Section CardLaziness.

Import MediaCard.

Variable backend : Backend.

Ltac card_steps :=
  unfold exec, result, handle, onMounted, onUnmounted, onThumbnailError,
    on_entry, try_catch, bind, ret, update, read, modify, gets;
  cbn [fst snd store localStorage calls console file thumbnailLoaded
       thumbnailUrl hasBeenVisible observing set_thumbnailLoaded
       set_thumbnailUrl set_hasBeenVisible set_observing negb orb andb] in *.

Lemma on_entry_not_intersecting (w : World Card) :
  on_entry backend false w = (Normal tt, w).
Proof. destruct w as [[] ? ? ?]. reflexivity. Qed.

Lemma onIntersect_out_of_sight entries (w : World Card) :
  forallb negb entries = true ->
  onIntersect backend entries w = (Normal tt, w).
Proof.
  induction entries as [|b entries IH]; [reflexivity|].
  cbn [forallb]. intros H. apply andb_true_iff in H as [Hb H].
  apply negb_true_iff in Hb. subst b.
  rewrite onIntersect_cons. unfold exec.
  rewrite on_entry_not_intersecting. now apply IH.
Qed.

Lemma handle_out_of_sight ev (w : World Card) :
  Runs.out_of_sight ev = true ->
  let w' := exec (handle backend ev) w in
  calls w' = calls w
  /\ thumbnailUrl (store w') = thumbnailUrl (store w)
  /\ hasBeenVisible (store w') = hasBeenVisible (store w).
Proof.
  cbv zeta. destruct ev as [r|entries| | |]; cbn [Runs.out_of_sight handle];
    intros H; try discriminate.
  - destruct w as [[f tl tu hv ob] ? ? ?]. card_steps.
    unfold isImage. cbn [file].
    now destruct (mime_startsWith f "image/"), r.
  - unfold exec, bind, read, gets. cbn [fst snd].
    destruct (observing (store w)); [|auto].
    now rewrite (onIntersect_out_of_sight entries w H).
  - now destruct w as [[] ? ? ?].
  - now destruct w as [[] ? ? ?].
Qed.

(** The first intersecting entry an image card sees, by outcome. *)
Lemma on_entry_first_resolved (w : World Card) data :
  isImage (store w) = true ->
  thumbnailLoaded (store w) = false ->
  hasBeenVisible (store w) = false ->
  on_get_file_thumbnail backend (calls w) (path (file (store w))) 200
  = Resolved data ->
  on_entry backend true w =
    (Normal tt,
     {| store := set_observing false (set_thumbnailLoaded true
                   (set_thumbnailUrl data
                      (set_hasBeenVisible true (store w))));
        localStorage := localStorage w;
        calls := calls w ++ [get_file_thumbnail (path (file (store w))) 200];
        console := console w |}).
Proof.
  intros Hi Hl Hv Hr. unfold on_entry, bind at 1, read, gets.
  cbn [fst snd]. rewrite Hv. cbn [andb negb].
  unfold bind at 1, update at 1, modify. cbn [fst snd].
  unfold bind at 1.
  erewrite loadThumbnail_resolved;
    [|destruct w as [[] ? ? ?]; first [exact Hi | exact Hl | exact Hr]..].
  destruct w as [[] ? ? ?]. reflexivity.
Qed.

Lemma on_entry_first_rejected (w : World Card) e :
  isImage (store w) = true ->
  thumbnailLoaded (store w) = false ->
  hasBeenVisible (store w) = false ->
  on_get_file_thumbnail backend (calls w) (path (file (store w))) 200
  = Rejected e ->
  on_entry backend true w =
    (Normal tt,
     {| store := set_observing false (set_thumbnailLoaded false
                   (set_hasBeenVisible true (store w)));
        localStorage := localStorage w;
        calls := calls w ++ [get_file_thumbnail (path (file (store w))) 200];
        console := console w |}).
Proof.
  intros Hi Hl Hv Hr. unfold on_entry, bind at 1, read, gets.
  cbn [fst snd]. rewrite Hv. cbn [andb negb].
  unfold bind at 1, update at 1, modify. cbn [fst snd].
  unfold bind at 1.
  erewrite loadThumbnail_rejected;
    [|destruct w as [[] ? ? ?]; first [exact Hi | exact Hl | exact Hr]..].
  destruct w as [[] ? ? ?]. reflexivity.
Qed.

Lemma onIntersect_seen entries (w : World Card) :
  hasBeenVisible (store w) = true ->
  onIntersect backend entries w = (Normal tt, w).
Proof.
  intros H. induction entries as [|b entries IH]; [reflexivity|].
  rewrite onIntersect_cons. unfold exec.
  now rewrite (on_entry_seen backend b w H).
Qed.

(** The callback on entries of which one intersects, for a card that has
    not been visible: the world is that of the first sight. *)
Lemma onIntersect_first entries (w w1 : World Card) :
  existsb (fun b => b) entries = true ->
  on_entry backend true w = (Normal tt, w1) ->
  hasBeenVisible (store w1) = true ->
  onIntersect backend entries w = (Normal tt, w1).
Proof.
  intros Hex H1 Hv. induction entries as [|b entries IH]; [discriminate|].
  rewrite onIntersect_cons. unfold exec. destruct b.
  - rewrite H1. cbn [snd]. now apply onIntersect_seen.
  - rewrite on_entry_not_intersecting. cbn [snd]. apply IH.
    exact Hex.
Qed.

End CardLaziness.

(** X15.  A card asks for its thumbnail at most once in its life:
    whatever the component raises (mounting, any number of observer
    callbacks, image errors, unmounting), in any order and whether or not
    the load succeeds, the log of backend calls grows by nothing, or by
    the single request for the card's own path with [maxSize] 200.  A
    failed load is never retried. *)
Theorem card_loads_at_most_once (backend : Backend)
    (evs : list MediaCard.Event) (w : World MediaCard.Card) :
  forallb MediaCard.raised evs = true ->
  calls (MediaCard.run backend evs w) = calls w
  \/ calls (MediaCard.run backend evs w)
     = calls w
       ++ [get_file_thumbnail (path (MediaCard.file (store w))) 200].
Proof. apply card_requests_at_most_once. Qed.

Lemma card_loads_at_most_once_witness :
  forallb MediaCard.raised
    [MediaCard.Mounted true; MediaCard.Intersection [true];
     MediaCard.ThumbnailError; MediaCard.Mounted true;
     MediaCard.Intersection [true; true]] = true
  /\ calls (MediaCard.run Samples.unreachable
              [MediaCard.Mounted true; MediaCard.Intersection [true];
               MediaCard.ThumbnailError; MediaCard.Mounted true;
               MediaCard.Intersection [true; true]]
              (Samples.card Samples.photo))
     = [get_file_thumbnail "/home/ubuntu/Pictures/a.jpg" 200].
Proof.
  split; [reflexivity|].
  destruct (card_loads_at_most_once Samples.unreachable
              [MediaCard.Mounted true; MediaCard.Intersection [true];
               MediaCard.ThumbnailError; MediaCard.Mounted true;
               MediaCard.Intersection [true; true]]
              (Samples.card Samples.photo) eq_refl) as [H|H].
  - exfalso. revert H. vm_compute. discriminate.
  - exact H.
Defined.

(** X16.  Thumbnails load lazily: as long as no observer callback
    reports the card as intersecting, the card makes no backend call and
    its thumbnail and [hasBeenVisible] stay as they are, whatever else
    happens to it. *)
Theorem card_out_of_sight_is_idle (backend : Backend)
    (evs : list MediaCard.Event) (w : World MediaCard.Card) :
  forallb Runs.out_of_sight evs = true ->
  calls (MediaCard.run backend evs w) = calls w
  /\ MediaCard.thumbnailUrl (store (MediaCard.run backend evs w))
     = MediaCard.thumbnailUrl (store w)
  /\ MediaCard.hasBeenVisible (store (MediaCard.run backend evs w))
     = MediaCard.hasBeenVisible (store w).
Proof.
  revert w. induction evs as [|ev evs IH]; intros w H; [auto|].
  cbn [forallb] in H. apply andb_true_iff in H as [Hev H].
  rewrite run_cons.
  destruct (handle_out_of_sight backend ev w Hev) as (C & U & V).
  destruct (IH (exec (MediaCard.handle backend ev) w) H) as (-> & -> & ->).
  auto.
Qed.

Lemma card_out_of_sight_is_idle_witness :
  forallb Runs.out_of_sight
    [MediaCard.Mounted true; MediaCard.Intersection [false; false];
     MediaCard.Unmounted] = true
  /\ calls (MediaCard.run Samples.healthy
              [MediaCard.Mounted true; MediaCard.Intersection [false; false];
               MediaCard.Unmounted] (Samples.card Samples.photo)) = [].
Proof.
  split; [reflexivity|].
  apply (card_out_of_sight_is_idle Samples.healthy
           [MediaCard.Mounted true; MediaCard.Intersection [false; false];
            MediaCard.Unmounted] (Samples.card Samples.photo)).
  reflexivity.
Defined.

(** X17.  The first observer callback with an intersecting entry makes an
    image card that is being observed request its thumbnail, once, for
    its own path and 200 pixels, mark itself visible and stop observing.
    When the backend resolves, the data URL is stored and shown; when it
    rejects, the card keeps its placeholder: [thumbnailLoaded] is [false]
    and [thumbnailUrl] untouched. *)
Theorem card_first_sight (backend : Backend) (w : World MediaCard.Card)
    (entries : list bool) :
  MediaCard.isImage (store w) = true ->
  MediaCard.observing (store w) = true ->
  MediaCard.hasBeenVisible (store w) = false ->
  MediaCard.thumbnailLoaded (store w) = false ->
  existsb (fun b => b) entries = true ->
  let w' := exec (MediaCard.handle backend (MediaCard.Intersection entries)) w in
  calls w'
  = calls w ++ [get_file_thumbnail (path (MediaCard.file (store w))) 200]
  /\ MediaCard.hasBeenVisible (store w') = true
  /\ MediaCard.observing (store w') = false
  /\ (forall data,
        on_get_file_thumbnail backend (calls w)
          (path (MediaCard.file (store w))) 200 = Resolved data ->
        MediaCard.thumbnailLoaded (store w') = true
        /\ MediaCard.thumbnailUrl (store w') = data)
  /\ (forall e,
        on_get_file_thumbnail backend (calls w)
          (path (MediaCard.file (store w))) 200 = Rejected e ->
        MediaCard.thumbnailLoaded (store w') = false
        /\ MediaCard.thumbnailUrl (store w')
           = MediaCard.thumbnailUrl (store w)).
Proof.
  intros Hi Ho Hv Hl Hex. cbv zeta.
  cbn [MediaCard.handle]. unfold exec, bind, read, gets. cbn [fst snd].
  rewrite Ho.
  destruct (on_get_file_thumbnail backend (calls w)
              (path (MediaCard.file (store w))) 200) as [data|e] eqn:Hr.
  - pose proof (on_entry_first_resolved backend w data Hi Hl Hv Hr) as E.
    rewrite (onIntersect_first backend entries w _ Hex E)
      by (destruct w as [[] ? ? ?]; reflexivity).
    destruct w as [[] ? ? ?]. cbn.
    split; [reflexivity|]. split; [reflexivity|]. split; [reflexivity|].
    split; [|discriminate]. intros d [= <-]. auto.
  - pose proof (on_entry_first_rejected backend w e Hi Hl Hv Hr) as E.
    rewrite (onIntersect_first backend entries w _ Hex E)
      by (destruct w as [[] ? ? ?]; reflexivity).
    destruct w as [[] ? ? ?]. cbn.
    split; [reflexivity|]. split; [reflexivity|]. split; [reflexivity|].
    split; [discriminate|]. auto.
Qed.

Lemma card_first_sight_witness :
  MediaCard.isImage
    (store (exec (MediaCard.handle Samples.healthy (MediaCard.Mounted true))
              (Samples.card Samples.photo))) = true
  /\ MediaCard.thumbnailUrl
       (store (exec (MediaCard.handle Samples.healthy
                       (MediaCard.Intersection [false; true; true]))
                 (exec (MediaCard.handle Samples.healthy
                          (MediaCard.Mounted true))
                    (Samples.card Samples.photo))))
     = "data:image/jpeg;base64,AAAA"
  /\ MediaCard.observing
       (store (exec (MediaCard.handle Samples.healthy
                       (MediaCard.Intersection [false; true; true]))
                 (exec (MediaCard.handle Samples.healthy
                          (MediaCard.Mounted true))
                    (Samples.card Samples.photo)))) = false.
Proof.
  destruct (card_first_sight Samples.healthy
              (exec (MediaCard.handle Samples.healthy (MediaCard.Mounted true))
                 (Samples.card Samples.photo))
              [false; true; true] eq_refl eq_refl eq_refl eq_refl eq_refl)
    as (_ & _ & O & R & _).
  destruct (R _ eq_refl) as (_ & U).
  split; [reflexivity|]. split; [exact U | exact O].
Defined.

(** X18.  The placeholder colour of a card is decided by the first
    character of the file name alone and is always one of the twelve
    palette colours; only a file with an empty name gets none
    ([undefined]). *)
Theorem placeholder_colour_is_in_palette (f : FileInfo) :
  (name f <> "" ->
   exists colour, CardColor.getRandomColor f = Some colour
                  /\ In colour CardColor.colors)
  /\ (name f = "" -> CardColor.getRandomColor f = None)
  /\ (forall g c rest rest',
        name f = String c rest -> name g = String c rest' ->
        CardColor.getRandomColor g = CardColor.getRandomColor f).
Proof.
  unfold CardColor.getRandomColor. split; [|split].
  - intros Hne. destruct (name f) as [|c rest]; [congruence|].
    cbn [CardColor.charCodeAt0].
    destruct (nth_error CardColor.colors
                (nat_of_ascii c mod length CardColor.colors)) as [colour|] eqn:E.
    + exists colour. split; [reflexivity|]. eapply nth_error_In, E.
    + apply nth_error_None in E.
      pose proof (Nat.mod_upper_bound (nat_of_ascii c)
                    (length CardColor.colors)) as B.
      cbn [length CardColor.colors] in *. lia.
  - now intros ->.
  - intros g c rest rest' -> ->. reflexivity.
Qed.

Lemma placeholder_colour_is_in_palette_witness :
  name Samples.photo <> ""
  /\ CardColor.getRandomColor Samples.photo = Some "#764ba2".
Proof.
  split; [discriminate|].
  destruct (placeholder_colour_is_in_palette Samples.photo) as (P & _).
  destruct (P ltac:(discriminate)) as (colour & E & _).
  rewrite E. revert E. vm_compute. intros E. exact (eq_sym E).
Defined.

(** ** The login view *)

Section ViewFacts.

Variable backend : Backend.

Lemma navigate_settled (to : Router.Route) (isConnected : bool) :
  Router.navigate 3 to isConnected
  = Some (if isConnected
          then (if Router.is_login to then Router.gallery else to)
          else (if Router.requiresConnection to then Router.login else to)).
Proof. destruct to, isConnected; reflexivity. Qed.

Lemma push_eq {R} (to : Router.Route) (w : World (View R)) :
  push to w
  = (Normal tt,
     {| store :=
          set_route
            (if isConnected (connectionStore (store w))
             then (if Router.is_login to then Router.gallery else to)
             else (if Router.requiresConnection to
                   then Router.login else to))
            (store w);
        localStorage := localStorage w; calls := calls w;
        console := console w |}).
Proof.
  unfold push, bind, read, gets. cbn [fst snd].
  rewrite navigate_settled. now destruct w as [[] ? ? ?].
Qed.

(** A view that calls [connect] and goes to the gallery on success. *)
Lemma connect_from_view {R} config (w : World (View R)) :
  let m : M (World (View R)) unit :=
    let* success := on_store (connect backend config) in
    if success then push Router.gallery else ret tt in
  let w1 := exec (connect backend config) (session w) in
  (forall r,
     accepted backend (session w) config r ->
     stored backend (session w) config ->
     m w = (Normal tt,
            {| store := set_route Router.gallery (store (resume w1 w));
               localStorage := localStorage w1; calls := calls w1;
               console := console w1 |}))
  /\ (forall r e,
        accepted backend (session w) config r ->
        storage_full backend (session w) config e ->
        m w = (Normal tt, resume w1 w))
  /\ (forall msg,
        failed backend (session w) config msg ->
        m w = (Normal tt, resume w1 w)).
Proof.
  cbv zeta. split; [|split].
  - intros r H Hst.
    destruct (connect_accepted backend config (session w) r H Hst)
      as (Hr & Hc & _).
    unfold bind. rewrite on_store_eq, Hr, push_eq.
    cbn [store resume set_connectionStore connectionStore].
    rewrite Hc. reflexivity.
  - intros r e H Hst. unfold bind. rewrite on_store_eq.
    unfold result, exec.
    rewrite (connect_unsaved_eq backend config (session w) r e H Hst).
    reflexivity.
  - intros msg H. unfold bind. rewrite on_store_eq.
    unfold result, exec.
    rewrite (connect_failed_eq backend config (session w) msg H).
    reflexivity.
Qed.

(** Such a view never throws, and the first call it makes is the
    request of the config. *)
Lemma connect_from_view_returns {R} config (w : World (View R)) :
  let m : M (World (View R)) unit :=
    let* success := on_store (connect backend config) in
    if success then push Router.gallery else ret tt in
  result m w = Normal tt
  /\ exists rest, calls (exec m w) = calls w ++ request config :: rest.
Proof.
  cbv zeta. destruct (connect_from_view config w) as (A & U & F).
  cbv zeta in A, U, F. unfold result, exec.
  destruct (reply_cases backend config (session w))
    as [(r & H & Hst)|[(r & e & H & Hst)|[msg H]]].
  - rewrite (A r H Hst). cbn [fst snd calls].
    destruct (connect_accepted backend config (session w) r H Hst)
      as (_ & _ & _ & _ & _ & _ & _ & _ & Cl & _).
    split; [reflexivity|]. eexists. exact Cl.
  - rewrite (U r e H Hst). cbn [fst snd]. unfold exec.
    rewrite (connect_unsaved_eq backend config (session w) r e H Hst).
    split; [reflexivity|]. now exists [].
  - rewrite (F msg H). cbn [fst snd]. unfold exec.
    rewrite (connect_failed_eq backend config (session w) msg H).
    split; [reflexivity|]. now exists [].
Qed.

(** Where such a view is left, by what the backend and the storage
    answer. *)
Lemma connect_from_view_cases {R} config (w : World (View R)) :
  let m : M (World (View R)) unit :=
    let* success := on_store (connect backend config) in
    if success then push Router.gallery else ret tt in
  let w' := exec m w in
  (forall r,
     accepted backend (session w) config r ->
     stored backend (session w) config ->
     route (store w') = Router.gallery
     /\ isConnected (connectionStore (store w')) = true
     /\ savedConfig (connectionStore (store w')) = Some config
     /\ localStorage w' !! storage_key
        = Some (JS.stringify (properties config)))
  /\ (forall r e,
        accepted backend (session w) config r ->
        storage_full backend (session w) config e ->
        route (store w') = route (store w)
        /\ error (connectionStore (store w')) = Some e
        /\ isConnected (connectionStore (store w')) = true
        /\ savedConfig (connectionStore (store w')) = Some config
        /\ localStorage w' = localStorage w)
  /\ (forall msg,
        failed backend (session w) config msg ->
        route (store w') = route (store w)
        /\ error (connectionStore (store w')) = Some msg
        /\ isConnected (connectionStore (store w'))
           = isConnected (connectionStore (store w))
        /\ localStorage w' = localStorage w).
Proof.
  cbv zeta. destruct (connect_from_view config w) as (A & U & F).
  cbv zeta in A, U, F. unfold exec.
  split; [|split].
  - intros r H Hst. rewrite (A r H Hst). cbn [fst snd].
    destruct (connect_accepted backend config (session w) r H Hst)
      as (_ & Hc & _ & Hs & _ & _ & _ & L & _).
    cbn [store route set_route resume set_connectionStore
         connectionStore localStorage].
    rewrite L, lookup_insert_eq. auto.
  - intros r e H Hst. rewrite (U r e H Hst). cbn [fst snd]. unfold exec.
    rewrite (connect_unsaved_eq backend config (session w) r e H Hst).
    destruct w as [[[] rt rf] ? ? ?]. cbn. auto.
  - intros msg H. rewrite (F msg H). cbn [fst snd]. unfold exec.
    rewrite (connect_failed_eq backend config (session w) msg H).
    destruct w as [[[] rt rf] ? ? ?]. cbn. auto.
Qed.

End ViewFacts.

(** X19.  [handleConnect] never throws and follows the store.  The
    config it builds from the form has its port, branch and staging path
    already defaulted (a form without a port gives port 22), and the
    first call it makes is the connect request of that config.  When the
    backend accepts and [localStorage] takes the entry, the view lands on
    the gallery, connected, with the config saved and persisted.  When
    the backend accepts but [localStorage.setItem] throws, and when the
    connect fails, the route stays where it was and the message is in
    [error]; in the first case the store is nevertheless connected. *)
Theorem handleConnect_follows_connect (backend : Backend)
    (w : World (View Login.Refs)) :
  let config := Login.config_of (refs (store w)) in
  let w' := exec (Login.handleConnect backend) w in
  result (Login.handleConnect backend) w = Normal tt
  /\ Runs.complete_request (request config) = true
  /\ request config
     = match config with
       | Ec2 c =>
           connect_ec2 (Ec2ConnectionConfig.host c)
             (Ec2ConnectionConfig.username c)
             (Ec2ConnectionConfig.pemContent c) (Ec2ConnectionConfig.port c)
       | GitHub c =>
           connect_github (GitHubConnectionConfig.repoUrl c)
             (GitHubConnectionConfig.username c)
             (GitHubConnectionConfig.sshKeyContent c)
             (GitHubConnectionConfig.branch c)
             (GitHubConnectionConfig.localPath c)
       end
  /\ (exists rest, calls w' = calls w ++ request config :: rest)
  /\ (forall r,
        accepted backend (session w) config r ->
        stored backend (session w) config ->
        route (store w') = Router.gallery
        /\ isConnected (connectionStore (store w')) = true
        /\ savedConfig (connectionStore (store w')) = Some config
        /\ localStorage w' !! storage_key
           = Some (JS.stringify (properties config)))
  /\ (forall r e,
        accepted backend (session w) config r ->
        storage_full backend (session w) config e ->
        route (store w') = route (store w)
        /\ error (connectionStore (store w')) = Some e
        /\ isConnected (connectionStore (store w')) = true
        /\ savedConfig (connectionStore (store w')) = Some config
        /\ localStorage w' = localStorage w)
  /\ (forall msg,
        failed backend (session w) config msg ->
        route (store w') = route (store w)
        /\ error (connectionStore (store w')) = Some msg
        /\ isConnected (connectionStore (store w'))
           = isConnected (connectionStore (store w))
        /\ localStorage w' = localStorage w).
Proof.
  cbv zeta. set (config := Login.config_of (refs (store w))).
  assert (D : request config
              = match config with
                | Ec2 c =>
                    connect_ec2 (Ec2ConnectionConfig.host c)
                      (Ec2ConnectionConfig.username c)
                      (Ec2ConnectionConfig.pemContent c)
                      (Ec2ConnectionConfig.port c)
                | GitHub c =>
                    connect_github (GitHubConnectionConfig.repoUrl c)
                      (GitHubConnectionConfig.username c)
                      (GitHubConnectionConfig.sshKeyContent c)
                      (GitHubConnectionConfig.branch c)
                      (GitHubConnectionConfig.localPath c)
                end).
  { unfold config, Login.config_of.
    destruct (Login.storageType (refs (store w))); cbn.
    - f_equal. unfold JS.num_or.
      destruct (Z.eqb_spec
                  (Ec2ConnectionConfig.port
                     (Login.ec2Form (refs (store w)))) 0);
        [reflexivity|].
      destruct (Z.eqb_spec
                  (Ec2ConnectionConfig.port
                     (Login.ec2Form (refs (store w)))) 0);
        [contradiction | reflexivity].
    - f_equal.
      + now destruct (GitHubConnectionConfig.branch
                        (Login.githubForm (refs (store w)))).
      + now destruct (GitHubConnectionConfig.localPath
                        (Login.githubForm (refs (store w)))). }
  assert (C : Runs.complete_request (request config) = true).
  { clear. destruct config as [c|c]; cbn.
    - unfold JS.num_or.
      destruct (Z.eqb_spec (Ec2ConnectionConfig.port c) 0);
        [reflexivity|]. now apply negb_true_iff, Z.eqb_neq.
    - now destruct (GitHubConnectionConfig.branch c),
        (GitHubConnectionConfig.localPath c). }
  destruct (connect_from_view_returns backend config w) as (R & L).
  destruct (connect_from_view_cases backend config w) as (A & U & F).
  split; [exact R|]. split; [exact C|]. split; [exact D|].
  split; [exact L|]. split; [exact A|]. split; [exact U | exact F].
Qed.

Lemma handleConnect_follows_connect_witness :
  accepted Samples.healthy
    (session (Login.open Scenes2.host_form fresh))
    (Login.config_of Scenes2.host_form) (Samples.ok (Some "/home/ubuntu"))
  /\ stored Samples.healthy
       (session (Login.open Scenes2.host_form fresh))
       (Login.config_of Scenes2.host_form)
  /\ route (store (exec (Login.handleConnect Samples.healthy)
                     (Login.open Scenes2.host_form fresh)))
     = Router.gallery
  /\ savedConfig
       (connectionStore
          (store (exec (Login.handleConnect Samples.healthy)
                    (Login.open Scenes2.host_form fresh))))
     = Some (Ec2 Samples.ubuntu)
  /\ failed Samples.refusing
       (session (Login.open Scenes2.host_form fresh))
       (Login.config_of Scenes2.host_form) "Connection failed"
  /\ route (store (exec (Login.handleConnect Samples.refusing)
                     (Login.open Scenes2.host_form fresh)))
     = Router.login
  /\ storage_full Samples.full
       (session (Login.open Scenes2.host_form fresh))
       (Login.config_of Scenes2.host_form) Samples.quota_error
  /\ route (store (exec (Login.handleConnect Samples.full)
                     (Login.open Scenes2.host_form fresh)))
     = Router.login.
Proof.
  assert (H : accepted Samples.healthy
                (session (Login.open Scenes2.host_form fresh))
                (Login.config_of Scenes2.host_form)
                (Samples.ok (Some "/home/ubuntu")))
    by (split; reflexivity).
  assert (F : failed Samples.refusing
                (session (Login.open Scenes2.host_form fresh))
                (Login.config_of Scenes2.host_form) "Connection failed").
  { left. exists Samples.refusal. repeat split; reflexivity. }
  assert (Hst : stored Samples.healthy
                  (session (Login.open Scenes2.host_form fresh))
                  (Login.config_of Scenes2.host_form)) by reflexivity.
  assert (H' : accepted Samples.full
                 (session (Login.open Scenes2.host_form fresh))
                 (Login.config_of Scenes2.host_form)
                 (Samples.ok (Some "/home/ubuntu")))
    by (split; reflexivity).
  assert (Hfull : storage_full Samples.full
                    (session (Login.open Scenes2.host_form fresh))
                    (Login.config_of Scenes2.host_form) Samples.quota_error)
    by reflexivity.
  destruct (handleConnect_follows_connect Samples.healthy
              (Login.open Scenes2.host_form fresh))
    as (_ & _ & _ & _ & P & _).
  destruct (P _ H Hst) as (G & _ & S & _).
  destruct (handleConnect_follows_connect Samples.refusing
              (Login.open Scenes2.host_form fresh))
    as (_ & _ & _ & _ & _ & _ & Q).
  destruct (Q _ F) as (L & _).
  destruct (handleConnect_follows_connect Samples.full
              (Login.open Scenes2.host_form fresh))
    as (_ & _ & _ & _ & _ & U & _).
  destruct (U _ _ H' Hfull) as (L' & _).
  split; [exact H|]. split; [exact Hst|]. split; [exact G|].
  split; [exact S|]. split; [exact F|]. split; [exact L|].
  split; [exact Hfull | exact L'].
Defined.

(** X20.  [useSavedConnection] does nothing without a saved config.
    With one, which [disconnect] leaves in place, it sends the very
    request of that config again.  When the backend accepts and
    [localStorage] takes the entry, the user is back in the gallery,
    connected, and the persisted entry that [disconnect] removed is
    written again.  When the backend accepts but [localStorage.setItem]
    throws, and when the connect fails, the route is unchanged and the
    message is in [error]; in the first case nothing is written and the
    store is nevertheless connected. *)
Theorem useSavedConnection_replays (backend : Backend)
    (w : World (View Login.Refs)) :
  let w' := exec (Login.useSavedConnection backend) w in
  (savedConfig (connectionStore (store w)) = None ->
   Login.useSavedConnection backend w = (Normal tt, w))
  /\ (forall config,
        savedConfig (connectionStore (store w)) = Some config ->
        result (Login.useSavedConnection backend) w = Normal tt
        /\ (exists rest, calls w' = calls w ++ request config :: rest)
        /\ (forall r,
              accepted backend (session w) config r ->
              stored backend (session w) config ->
              route (store w') = Router.gallery
              /\ isConnected (connectionStore (store w')) = true
              /\ savedConfig (connectionStore (store w')) = Some config
              /\ localStorage w' !! storage_key
                 = Some (JS.stringify (properties config)))
        /\ (forall r e,
              accepted backend (session w) config r ->
              storage_full backend (session w) config e ->
              route (store w') = route (store w)
              /\ error (connectionStore (store w')) = Some e
              /\ isConnected (connectionStore (store w')) = true
              /\ localStorage w' = localStorage w)
        /\ (forall msg,
              failed backend (session w) config msg ->
              route (store w') = route (store w)
              /\ error (connectionStore (store w')) = Some msg)).
Proof.
  cbv zeta. split.
  - intros Hn. unfold Login.useSavedConnection, bind, read, gets.
    cbn [fst snd]. now rewrite Hn.
  - intros config Hs.
    assert (E : Login.useSavedConnection backend w
                = (let* success := on_store (connect backend config) in
                   if success then push Router.gallery else ret tt) w).
    { unfold Login.useSavedConnection, bind at 1, read, gets.
      cbn [fst snd]. now rewrite Hs. }
    destruct (connect_from_view_returns backend config w) as (R & L).
    destruct (connect_from_view_cases backend config w) as (A & U & F).
    unfold exec, result in *. rewrite E.
    split; [exact R|]. split; [exact L|]. split; [exact A|]. split.
    + intros r e H Hst. destruct (U r e H Hst) as (U1 & U2 & U3 & _ & U5).
      auto.
    + intros msg H. destruct (F msg H) as (F1 & F2 & _). auto.
Qed.

Lemma useSavedConnection_replays_witness :
  savedConfig (connectionStore (store Scenes2.returning))
  = Some (Ec2 Samples.ubuntu)
  /\ localStorage Scenes2.returning !! storage_key = None
  /\ accepted Samples.healthy (session Scenes2.returning)
       (Ec2 Samples.ubuntu) (Samples.ok (Some "/home/ubuntu"))
  /\ stored Samples.healthy (session Scenes2.returning)
       (Ec2 Samples.ubuntu)
  /\ route (store (exec (Login.useSavedConnection Samples.healthy)
                     Scenes2.returning)) = Router.gallery
  /\ localStorage (exec (Login.useSavedConnection Samples.healthy)
                     Scenes2.returning) !! storage_key
     = Some (JS.stringify (properties (Ec2 Samples.ubuntu))).
Proof.
  assert (S : savedConfig (connectionStore (store Scenes2.returning))
              = Some (Ec2 Samples.ubuntu)) by (vm_compute; reflexivity).
  assert (H : accepted Samples.healthy (session Scenes2.returning)
                (Ec2 Samples.ubuntu) (Samples.ok (Some "/home/ubuntu")))
    by (split; reflexivity).
  destruct (useSavedConnection_replays Samples.healthy Scenes2.returning)
    as (_ & P).
  assert (Hst : stored Samples.healthy (session Scenes2.returning)
                  (Ec2 Samples.ubuntu)) by reflexivity.
  destruct (P _ S) as (_ & _ & A & _).
  destruct (A _ H Hst) as (G & _ & _ & L).
  split; [exact S|]. split; [vm_compute; reflexivity|].
  split; [exact H|]. split; [exact Hst|]. split; [exact G | exact L].
Defined.

(** ** The viewer *)

Section ViewerFacts.

Import Viewer.

Lemma replace_with_found (files : list FileInfo) (i : Z) (f : FileInfo)
    (w : World (View Refs)) :
  JSArray.at_index files i = Some f ->
  isConnected (connectionStore (store w)) = true ->
  replace_with files i w
  = (Normal tt,
     {| store :=
          set_route
            (Router.viewer
               {| Router.file := Some (path f); Router.type := mimeType f;
                  Router.name := Some (name f); Router.index := Some i |})
            (store w);
        localStorage := localStorage w; calls := calls w;
        console := console w |}).
Proof.
  intros Hf Hc. unfold replace_with. rewrite Hf, push_eq, Hc. reflexivity.
Qed.

Lemma replace_with_frame (files : list FileInfo) (i : Z)
    (w : World (View Refs)) :
  refs (store (exec (replace_with files i) w)) = refs (store w)
  /\ connectionStore (store (exec (replace_with files i) w))
     = connectionStore (store w)
  /\ calls (exec (replace_with files i) w) = calls w.
Proof.
  unfold exec, replace_with.
  destruct (JSArray.at_index files i); [rewrite push_eq|];
    now destruct w as [[] ? ? ?].
Qed.

Lemma at_index_in_range {A} (l : list A) (i : Z) :
  (0 <= i < Z.of_nat (length l))%Z ->
  exists x, JSArray.at_index l i = Some x.
Proof.
  intros H. unfold JSArray.at_index.
  destruct (Z.ltb_spec i 0); [lia|].
  destruct (nth_error l (Z.to_nat i)) eqn:E; [eauto|].
  apply nth_error_None in E. lia.
Qed.

Lemma at_index_out_of_range {A} (l : list A) (i : Z) :
  (i < 0 \/ Z.of_nat (length l) <= i)%Z -> JSArray.at_index l i = None.
Proof.
  intros H. unfold JSArray.at_index.
  destruct (Z.ltb_spec i 0); [reflexivity|].
  apply nth_error_None. lia.
Qed.

(** No element event reaches a viewer that shows the spinner. *)
Lemma handle_while_loading (ev : Event) (w : World (View Refs)) :
  isLoading (refs (store w)) = true ->
  refs (store (exec (handle ev) w)) = refs (store w)
  /\ connectionStore (store (exec (handle ev) w)) = connectionStore (store w)
  /\ calls (exec (handle ev) w) = calls w.
Proof.
  intros Hl.
  assert (E : handle ev w
              = match ev with
                | Prev => navigatePrev w
                | Next => navigateNext w
                | _ => (Normal tt, w)
                end).
  { unfold handle, bind, read, gets. cbn [fst snd].
    unfold enabled, shown. rewrite Hl. now destruct ev. }
  unfold exec. rewrite E.
  destruct ev; try (now destruct w as [[] ? ? ?]).
  - unfold navigatePrev, bind, read, gets. cbn [fst snd].
    destruct (negb (hasNavigation (store w))); [auto|].
    apply replace_with_frame.
  - unfold navigateNext, bind, read, gets. cbn [fst snd].
    destruct (negb (hasNavigation (store w))); [auto|].
    apply replace_with_frame.
Qed.

Lemma run_while_loading (evs : list Event) (w : World (View Refs)) :
  isLoading (refs (store w)) = true ->
  refs (store (run evs w)) = refs (store w)
  /\ calls (run evs w) = calls w.
Proof.
  revert w. induction evs as [|ev evs IH]; intros w Hl; [auto|].
  change (run (ev :: evs) w) with (run evs (exec (handle ev) w)).
  destruct (handle_while_loading ev w Hl) as (R & _ & C).
  destruct (IH (exec (handle ev) w)) as (R' & C'); [now rewrite R|].
  split; congruence.
Qed.

End ViewerFacts.

(** X21.  With more than one media file and an index inside the list,
    Next and Previous go round the list: the route becomes the viewer of
    the file at [(index + 1) mod n], respectively [(index - 1) mod n],
    carrying that index, so each undoes the other.  Neither touches the
    viewer's refs or the backend: the file shown is not read again. *)
Theorem viewer_navigation_wraps (w : World (View Viewer.Refs)) (i : Z) :
  let files := mediaFiles (connectionStore (store w)) in
  let n := Z.of_nat (length files) in
  (1 < n)%Z ->
  (0 <= i < n)%Z ->
  Viewer.fileIndex (store w) = i ->
  isConnected (connectionStore (store w)) = true ->
  (exists f,
     JSArray.at_index files ((i + 1) mod n) = Some f
     /\ route (store (exec Viewer.navigateNext w))
        = Router.viewer
            {| Router.file := Some (path f); Router.type := mimeType f;
               Router.name := Some (name f);
               Router.index := Some ((i + 1) mod n)%Z |})
  /\ (exists f,
        JSArray.at_index files ((i - 1) mod n) = Some f
        /\ route (store (exec Viewer.navigatePrev w))
           = Router.viewer
               {| Router.file := Some (path f); Router.type := mimeType f;
                  Router.name := Some (name f);
                  Router.index := Some ((i - 1) mod n)%Z |})
  /\ Viewer.fileIndex
       (store (exec Viewer.navigatePrev (exec Viewer.navigateNext w))) = i
  /\ Viewer.fileIndex
       (store (exec Viewer.navigateNext (exec Viewer.navigatePrev w))) = i
  /\ refs (store (exec Viewer.navigateNext w)) = refs (store w)
  /\ refs (store (exec Viewer.navigatePrev w)) = refs (store w).
Proof.
  cbv zeta. intros Hn Hi Hidx Hc.
  set (files := mediaFiles (connectionStore (store w))) in *.
  set (n := Z.of_nat (length files)) in *.
  assert (Hnav : forall w0 : World (View Viewer.Refs),
            connectionStore (store w0) = connectionStore (store w) ->
            negb (Viewer.hasNavigation (store w0)) = false).
  { intros w0 E. unfold Viewer.hasNavigation. rewrite E. fold files.
    apply negb_false_iff, Nat.ltb_lt. subst n. lia. }
  assert (Hnext : forall j, (0 <= j < n)%Z ->
            (if (j <? n - 1)%Z then (j + 1)%Z else 0%Z) = ((j + 1) mod n)%Z).
  { intros j Hj. destruct (Z.ltb_spec j (n - 1)).
    - now rewrite Z.mod_small by lia.
    - replace (j + 1)%Z with n by lia. now rewrite Z.mod_same by lia. }
  assert (Hprev : forall j, (0 <= j < n)%Z ->
            (if (j >? 0)%Z then (j - 1)%Z else (n - 1)%Z)
            = ((j - 1) mod n)%Z).
  { intros j Hj. destruct (Z.gtb_spec j 0).
    - now rewrite Z.mod_small by lia.
    - replace (j - 1)%Z with (-1 * n + (n - 1))%Z by lia.
      rewrite Z.add_comm, Z.mod_add by lia. now rewrite Z.mod_small by lia. }
  assert (Next : forall (w0 : World (View Viewer.Refs)) j,
            connectionStore (store w0) = connectionStore (store w) ->
            (0 <= j < n)%Z -> Viewer.fileIndex (store w0) = j ->
            exists f,
              JSArray.at_index files ((j + 1) mod n) = Some f
              /\ Viewer.navigateNext w0
                 = (Normal tt,
                    {| store :=
                         set_route
                           (Router.viewer
                              {| Router.file := Some (path f);
                                 Router.type := mimeType f;
                                 Router.name := Some (name f);
                                 Router.index := Some ((j + 1) mod n)%Z |})
                           (store w0);
                       localStorage := localStorage w0; calls := calls w0;
                       console := console w0 |})).
  { intros w0 j E Hj Hx.
    destruct (at_index_in_range files ((j + 1) mod n)) as [f Hf].
    { apply Z.mod_pos_bound. lia. }
    exists f. split; [exact Hf|].
    unfold Viewer.navigateNext, bind, read, gets. cbn [fst snd].
    rewrite (Hnav w0 E), E, Hx. fold files. fold n.
    rewrite (Hnext j Hj).
    apply replace_with_found; [exact Hf | now rewrite E]. }
  assert (Prev : forall (w0 : World (View Viewer.Refs)) j,
            connectionStore (store w0) = connectionStore (store w) ->
            (0 <= j < n)%Z -> Viewer.fileIndex (store w0) = j ->
            exists f,
              JSArray.at_index files ((j - 1) mod n) = Some f
              /\ Viewer.navigatePrev w0
                 = (Normal tt,
                    {| store :=
                         set_route
                           (Router.viewer
                              {| Router.file := Some (path f);
                                 Router.type := mimeType f;
                                 Router.name := Some (name f);
                                 Router.index := Some ((j - 1) mod n)%Z |})
                           (store w0);
                       localStorage := localStorage w0; calls := calls w0;
                       console := console w0 |})).
  { intros w0 j E Hj Hx.
    destruct (at_index_in_range files ((j - 1) mod n)) as [f Hf].
    { apply Z.mod_pos_bound. lia. }
    exists f. split; [exact Hf|].
    unfold Viewer.navigatePrev, bind, read, gets. cbn [fst snd].
    rewrite (Hnav w0 E), E, Hx. fold files. fold n.
    rewrite (Hprev j Hj).
    apply replace_with_found; [exact Hf | now rewrite E]. }
  destruct (Next w i eq_refl Hi Hidx) as (fn & Hfn & En).
  destruct (Prev w i eq_refl Hi Hidx) as (fp & Hfp & Ep).
  assert (Rn : (((i + 1) mod n - 1) mod n = i)%Z).
  { rewrite <- (Hnext i Hi). destruct (Z.ltb_spec i (n - 1)).
    - replace (i + 1 - 1)%Z with i by lia. apply Z.mod_small. lia.
    - replace (0 - 1)%Z with (-1 * n + (n - 1))%Z by lia.
      rewrite Z.add_comm, Z.mod_add by lia. rewrite Z.mod_small; lia. }
  assert (Rp : (((i - 1) mod n + 1) mod n = i)%Z).
  { rewrite <- (Hprev i Hi). destruct (Z.gtb_spec i 0).
    - replace (i - 1 + 1)%Z with i by lia. apply Z.mod_small. lia.
    - replace (n - 1 + 1)%Z with n by lia. rewrite Z.mod_same; lia. }
  unfold exec. rewrite En, Ep. cbn [snd].
  split.
  { exists fn. split; [exact Hfn|]. now destruct w as [[] ? ? ?]. }
  split.
  { exists fp. split; [exact Hfp|]. now destruct w as [[] ? ? ?]. }
  split; [|split; [|split; (now destruct w as [[] ? ? ?])]].
  - match goal with |- context [Viewer.navigatePrev ?w1] =>
      destruct (Prev w1 ((i + 1) mod n)%Z) as (f & _ & E)
    end.
    + now destruct w as [[] ? ? ?].
    + apply Z.mod_pos_bound. lia.
    + now destruct w as [[] ? ? ?].
    + rewrite E. cbn [snd]. rewrite Rn. now destruct w as [[] ? ? ?].
  - match goal with |- context [Viewer.navigateNext ?w1] =>
      destruct (Next w1 ((i - 1) mod n)%Z) as (f & _ & E)
    end.
    + now destruct w as [[] ? ? ?].
    + apply Z.mod_pos_bound. lia.
    + now destruct w as [[] ? ? ?].
    + rewrite E. cbn [snd]. rewrite Rp. now destruct w as [[] ? ? ?].
Qed.

Lemma viewer_navigation_wraps_witness :
  (1 < Z.of_nat (length (mediaFiles (connectionStore (store Scenes2.viewing)))))%Z
  /\ Viewer.fileIndex (store Scenes2.viewing) = 0%Z
  /\ route (store (exec Viewer.navigateNext Scenes2.viewing))
     = Router.viewer (Scenes2.query_of Samples.clip 1)
  /\ route (store (exec Viewer.navigatePrev Scenes2.viewing))
     = Router.viewer (Scenes2.query_of Samples.untyped 4).
Proof.
  assert (N : (1 < Z.of_nat
                     (length (mediaFiles
                                (connectionStore (store Scenes2.viewing)))))%Z)
    by (vm_compute; reflexivity).
  assert (I : (0 <= 0 < Z.of_nat
                          (length (mediaFiles
                                     (connectionStore
                                        (store Scenes2.viewing)))))%Z)
    by (split; vm_compute; [discriminate | reflexivity]).
  assert (C : isConnected (connectionStore (store Scenes2.viewing)) = true)
    by (vm_compute; reflexivity).
  destruct (viewer_navigation_wraps Scenes2.viewing 0 N I eq_refl C)
    as ((fn & Hn & Rn) & (fp & Hp & Rp) & _).
  split; [exact N|]. split; [reflexivity|]. split.
  - rewrite Rn. revert Hn. vm_compute. intros [= <-]. reflexivity.
  - rewrite Rp. revert Hp. vm_compute. intros [= <-]. reflexivity.
Defined.

(** X22.  At the edges of the list: with fewer than two media files
    Next and Previous do nothing; an index at or past the last file makes
    Next go to the first file and an index at or before the first makes
    Previous go to the last; but Previous from an index beyond the length
    of the list, and Next from an index below -1, read a file that is not
    there and throw, leaving the route as it was. *)
Theorem viewer_navigation_edges (w : World (View Viewer.Refs)) :
  let n := Z.of_nat (length (mediaFiles (connectionStore (store w)))) in
  let i := Viewer.fileIndex (store w) in
  ((n <= 1)%Z ->
   Viewer.navigatePrev w = (Normal tt, w)
   /\ Viewer.navigateNext w = (Normal tt, w))
  /\ ((1 < n)%Z -> (n < i)%Z ->
      Viewer.navigatePrev w = (Thrown Viewer.type_error, w))
  /\ ((1 < n)%Z -> (i < -1)%Z ->
      Viewer.navigateNext w = (Thrown Viewer.type_error, w))
  /\ ((1 < n)%Z -> (n - 1 <= i)%Z ->
      isConnected (connectionStore (store w)) = true ->
      Viewer.fileIndex (store (exec Viewer.navigateNext w)) = 0%Z)
  /\ ((1 < n)%Z -> (i <= 0)%Z ->
      isConnected (connectionStore (store w)) = true ->
      Viewer.fileIndex (store (exec Viewer.navigatePrev w)) = (n - 1)%Z).
Proof.
  cbv zeta.
  set (files := mediaFiles (connectionStore (store w))).
  set (n := Z.of_nat (length files)).
  set (i := Viewer.fileIndex (store w)).
  assert (Hno : (n <= 1)%Z -> negb (Viewer.hasNavigation (store w)) = true).
  { intros H. unfold Viewer.hasNavigation. fold files.
    apply negb_true_iff, Nat.ltb_ge. subst n. lia. }
  assert (Hyes : (1 < n)%Z -> negb (Viewer.hasNavigation (store w)) = false).
  { intros H. unfold Viewer.hasNavigation. fold files.
    apply negb_false_iff, Nat.ltb_lt. subst n. lia. }
  assert (Ep : Viewer.navigatePrev w
               = if negb (Viewer.hasNavigation (store w)) then (Normal tt, w)
                 else Viewer.replace_with files
                        (if (i >? 0)%Z then (i - 1)%Z else (n - 1)%Z) w)
    by (unfold Viewer.navigatePrev, bind, read, gets; cbn [fst snd];
        now destruct (negb (Viewer.hasNavigation (store w)))).
  assert (En : Viewer.navigateNext w
               = if negb (Viewer.hasNavigation (store w)) then (Normal tt, w)
                 else Viewer.replace_with files
                        (if (i <? n - 1)%Z then (i + 1)%Z else 0%Z) w)
    by (unfold Viewer.navigateNext, bind, read, gets; cbn [fst snd];
        now destruct (negb (Viewer.hasNavigation (store w)))).
  split; [|split; [|split; [|split]]].
  - intros H. rewrite Ep, En, (Hno H). auto.
  - intros H Hi. rewrite Ep, (Hyes H).
    destruct (Z.gtb_spec i 0); [|lia].
    unfold Viewer.replace_with.
    rewrite at_index_out_of_range by (fold n; lia). reflexivity.
  - intros H Hi. rewrite En, (Hyes H).
    destruct (Z.ltb_spec i (n - 1)); [|lia].
    unfold Viewer.replace_with.
    rewrite at_index_out_of_range by (fold n; lia). reflexivity.
  - intros H Hi Hc. unfold exec. rewrite En, (Hyes H).
    destruct (Z.ltb_spec i (n - 1)); [lia|].
    destruct (at_index_in_range files 0) as [f Hf]; [fold n; lia|].
    rewrite (replace_with_found files 0 f w Hf Hc).
    now destruct w as [[] ? ? ?].
  - intros H Hi Hc. unfold exec. rewrite Ep, (Hyes H).
    destruct (Z.gtb_spec i 0); [lia|].
    destruct (at_index_in_range files (n - 1)) as [f Hf]; [fold n; lia|].
    rewrite (replace_with_found files (n - 1) f w Hf Hc).
    now destruct w as [[] ? ? ?].
Qed.

Lemma viewer_navigation_edges_witness :
  Viewer.navigatePrev
    (Viewer.open (Scenes2.query_of Samples.photo 7) Samples.browsing)
  = (Thrown Viewer.type_error,
     Viewer.open (Scenes2.query_of Samples.photo 7) Samples.browsing)
  /\ Viewer.fileIndex
       (store (exec Viewer.navigateNext
                 (Viewer.open (Scenes2.query_of Samples.photo 7)
                    Samples.browsing))) = 0%Z.
Proof.
  destruct (viewer_navigation_edges
              (Viewer.open (Scenes2.query_of Samples.photo 7)
                 Samples.browsing)) as (_ & P & _ & N & _).
  cbv zeta in P, N. split.
  - apply P; vm_compute; reflexivity.
  - apply N; vm_compute; try reflexivity. discriminate.
Defined.

Section ViewerMount.

Import Viewer.

Variable read_file : list string -> string -> Outcome string.
Variable getVideoMimeType : string -> string.

(** The world a mount is in once the read has been issued. *)
Lemma onMounted_eq (w : World (View Refs)) (p : string) :
  filePath (store w) = Some p ->
  p <> "" ->
  onMounted read_file getVideoMimeType w
  = ((try_catch
        (let* base64Data := invoke_read_file read_file p in
         let* v := read (fun v => v) in
         (if isImage v then
            change (set_fileData
                      ("data:" +:+ interpolate (fileType v)
                       +:+ ";base64," +:+ base64Data))
          else if isVideo v then
            change (set_fileData
                      ("data:" +:+ getVideoMimeType (fileName v)
                       +:+ ";base64," +:+ base64Data))
          else ret tt) ;;
         match find_file p (mediaFiles (connectionStore v)) with
         | Some foundFile => change (set_fileInfo (Some foundFile))
         | None =>
             change (set_fileInfo
                       (Some {| name := fileName v; path := p; size := 0;
                                isDir := false; modified := None;
                                mimeType := fileType v;
                                thumbnail := None |}))
         end)
        (fun e => change (set_error e) ;; change (set_isLoading false))) ;;
     change (set_listening true)) w.
Proof.
  intros Hp Hne. unfold onMounted, bind at 1, read at 1, gets.
  cbn [fst snd]. rewrite Hp. destruct p; [congruence | reflexivity].
Qed.

(** The world after a mount whose read is answered. *)
Lemma onMounted_resolved (w : World (View Refs)) (p data : string) :
  filePath (store w) = Some p ->
  p <> "" ->
  read_file (reads (refs (store w))) p = Resolved data ->
  let v := store w in
  let fd :=
    if isImage v then
      "data:" +:+ interpolate (fileType v) +:+ ";base64," +:+ data
    else if isVideo v then
      "data:" +:+ getVideoMimeType (fileName v) +:+ ";base64," +:+ data
    else fileData (refs v) in
  let info :=
    match find_file p (mediaFiles (connectionStore v)) with
    | Some foundFile => foundFile
    | None => {| name := fileName v; path := p; size := 0; isDir := false;
                 modified := None; mimeType := fileType v;
                 thumbnail := None |}
    end in
  onMounted read_file getVideoMimeType w
  = (Normal tt,
     {| store :=
          set_refs
            (fun r => set_listening true
                        (set_fileInfo (Some info)
                           (set_fileData fd (log_read p r))))
            v;
        localStorage := localStorage w; calls := calls w;
        console := console w |}).
Proof.
  intros Hp Hne Hr. rewrite (onMounted_eq w p Hp Hne).
  destruct w as [[s rt [il er fd fi li rd]] ls cs co]. cbn in Hr.
  unfold try_catch, bind, invoke_read_file, bind, read, gets,
    change, update, modify, ret, throw.
  cbn [fst snd store refs reads set_refs log_read].
  rewrite Hr.
  cbn [fst snd store refs reads set_refs log_read connectionStore].
  unfold isImage, isVideo, type_startsWith, fileType, fileName, query.
  cbn [route connectionStore refs fileData set_refs log_read].
  destruct (find_file p (mediaFiles s));
    destruct rt as [| |[qf [t|] qn qi]];
    cbn [Router.type Router.name route];
    try reflexivity;
    destruct (JS.startsWith t "image/"); try reflexivity;
    destruct (JS.startsWith t "video/"); reflexivity.
Qed.

Lemma find_file_path (p : string) (l : list FileInfo) (f : FileInfo) :
  find_file p l = Some f -> path f = p.
Proof.
  intros H. apply find_some in H as [_ H]. now apply String.eqb_eq in H.
Qed.

Lemma onMounted_no_file (w : World (View Refs)) :
  filePath (store w) = None \/ filePath (store w) = Some "" ->
  onMounted read_file getVideoMimeType w
  = (Normal tt,
     {| store := set_refs (fun r => set_isLoading false
                                      (set_error "No file specified" r))
                   (store w);
        localStorage := localStorage w; calls := calls w;
        console := console w |}).
Proof.
  intros H. unfold onMounted, bind at 1, read at 1, gets. cbn [fst snd].
  destruct H as [-> | ->]; now destruct w as [[s rt []] ? ? ?].
Qed.

Lemma filePath_cases (w : World (View Refs)) :
  (filePath (store w) = None \/ filePath (store w) = Some "")
  \/ exists p, filePath (store w) = Some p /\ p <> "".
Proof.
  destruct (filePath (store w)) as [[|c p]|]; auto.
  right. eexists. split; [reflexivity | discriminate].
Qed.

End ViewerMount.

(** X23.  A viewer without a file to show, or whose read is rejected,
    ends in the error state: with no [file] in the query it shows
    ['No file specified'] without reading anything and without listening
    to the keyboard; when [read_file] is rejected it shows the message of
    the rejection, with no file data. *)
Theorem viewer_mount_failures
    (read_file : list string -> string -> Outcome string)
    (getVideoMimeType : string -> string) (w : World (View Viewer.Refs)) :
  let w' := exec (Viewer.onMounted read_file getVideoMimeType) w in
  result (Viewer.onMounted read_file getVideoMimeType) w = Normal tt
  /\ (Viewer.filePath (store w) = None
      \/ Viewer.filePath (store w) = Some "" ->
      Viewer.shown (store w') = Viewer.failure "No file specified"
      /\ Viewer.reads (refs (store w')) = Viewer.reads (refs (store w))
      /\ Viewer.listening (refs (store w'))
         = Viewer.listening (refs (store w)))
  /\ (forall p e,
        Viewer.filePath (store w) = Some p -> p <> "" ->
        read_file (Viewer.reads (refs (store w))) p = Rejected e ->
        Viewer.error (refs (store w')) = e
        /\ Viewer.isLoading (refs (store w')) = false
        /\ Viewer.fileData (refs (store w')) = Viewer.fileData (refs (store w))
        /\ Viewer.reads (refs (store w'))
           = Viewer.reads (refs (store w)) ++ [p]
        /\ Viewer.listening (refs (store w')) = true
        /\ (e <> "" -> Viewer.shown (store w') = Viewer.failure e)).
Proof.
  cbv zeta.
  destruct (filePath_cases w) as [Hno | (p & Hp & Hne)].
  { unfold exec, result.
    rewrite (onMounted_no_file read_file getVideoMimeType w Hno).
    cbn [fst snd]. split; [reflexivity|]. split.
    - intros _. now destruct w as [[s rt []] ? ? ?].
    - intros p e Hp Hne. destruct Hno as [Hno|Hno]; congruence. }
  unfold exec, result. rewrite (onMounted_eq _ _ w p Hp Hne).
  assert (Hnot : ~ (Viewer.filePath (store w) = None
                    \/ Viewer.filePath (store w) = Some ""))
    by (intros [H|H]; congruence).
  destruct (read_file (Viewer.reads (refs (store w))) p) as [data|e] eqn:Hr.
  - split.
    + destruct w as [[s rt [il er fd fi li rd]] ? ? ?]. cbn in Hr.
      unfold try_catch, bind, Viewer.invoke_read_file, bind, read, gets,
        Viewer.change, update, modify, ret, throw.
      cbn [fst snd store refs Viewer.reads set_refs Viewer.log_read].
      rewrite Hr.
      cbn [fst snd store refs Viewer.reads set_refs Viewer.log_read
           connectionStore].
      match goal with |- context [Viewer.isImage ?v] =>
        destruct (Viewer.isImage v); [|destruct (Viewer.isVideo v)]
      end;
      match goal with |- context [Viewer.find_file ?q ?l] =>
        destruct (Viewer.find_file q l)
      end; reflexivity.
    + split; [intros H; contradiction|].
      intros p' e' Hp' _ H'. congruence.
  - assert (E : (try_catch
                   (let* base64Data := Viewer.invoke_read_file read_file p in
                    let* v := read (fun v => v) in
                    (if Viewer.isImage v then
                       Viewer.change
                         (Viewer.set_fileData
                            ("data:" +:+ Viewer.interpolate (Viewer.fileType v)
                             +:+ ";base64," +:+ base64Data))
                     else if Viewer.isVideo v then
                       Viewer.change
                         (Viewer.set_fileData
                            ("data:" +:+ getVideoMimeType (Viewer.fileName v)
                             +:+ ";base64," +:+ base64Data))
                     else ret tt) ;;
                    match Viewer.find_file p
                            (mediaFiles (connectionStore v)) with
                    | Some foundFile =>
                        Viewer.change (Viewer.set_fileInfo (Some foundFile))
                    | None =>
                        Viewer.change
                          (Viewer.set_fileInfo
                             (Some {| name := Viewer.fileName v; path := p;
                                      size := 0; isDir := false;
                                      modified := None;
                                      mimeType := Viewer.fileType v;
                                      thumbnail := None |}))
                    end)
                   (fun e => Viewer.change (Viewer.set_error e) ;;
                             Viewer.change (Viewer.set_isLoading false)) ;;
                 Viewer.change (Viewer.set_listening true)) w
                = (Normal tt,
                   {| store :=
                        set_refs
                          (fun r =>
                             Viewer.set_listening true
                               (Viewer.set_isLoading false
                                  (Viewer.set_error e (Viewer.log_read p r))))
                          (store w);
                      localStorage := localStorage w; calls := calls w;
                      console := console w |})).
    { destruct w as [[s rt [il er fd fi li rd]] ? ? ?]. cbn in Hr.
      unfold try_catch, bind, Viewer.invoke_read_file, bind, read, gets,
        Viewer.change, update, modify, ret, throw.
      cbn [fst snd store refs Viewer.reads set_refs Viewer.log_read].
      rewrite Hr. reflexivity. }
    rewrite E. cbn [fst snd].
    split; [reflexivity|]. split; [intros H; contradiction|].
    intros p' e' Hp' _ H'.
    assert (p' = p) as -> by congruence.
    assert (e' = e) as -> by congruence.
    destruct w as [[s rt [il er fd fi li rd]] ? ? ?]. cbn.
    repeat split. intros He. unfold Viewer.shown. cbn.
    destruct e; [congruence | reflexivity].
Qed.

Lemma viewer_mount_failures_witness :
  Viewer.filePath (store Scenes2.viewing)
  = Some "/home/ubuntu/Pictures/a.jpg"
  /\ Viewer.shown
       (store (exec (Viewer.onMounted Scenes2.unreadable (fun _ => "video/mp4"))
                 Scenes2.viewing))
     = Viewer.failure "Error: No such file"
  /\ Viewer.shown
       (store (exec (Viewer.onMounted Scenes2.readable (fun _ => "video/mp4"))
                 (Viewer.open
                    {| Router.file := None; Router.type := None;
                       Router.name := None; Router.index := None |}
                    Samples.browsing)))
     = Viewer.failure "No file specified".
Proof.
  destruct (viewer_mount_failures Scenes2.unreadable (fun _ => "video/mp4")
              Scenes2.viewing) as (_ & _ & P).
  destruct (P "/home/ubuntu/Pictures/a.jpg" "Error: No such file"
              eq_refl ltac:(discriminate) eq_refl)
    as (_ & _ & _ & _ & _ & S).
  destruct (viewer_mount_failures Scenes2.readable (fun _ => "video/mp4")
              (Viewer.open
                 {| Router.file := None; Router.type := None;
                    Router.name := None; Router.index := None |}
                 Samples.browsing)) as (_ & Q & _).
  destruct (Q (or_introl eq_refl)) as (N & _).
  split; [reflexivity|]. split; [apply S; discriminate | exact N].
Defined.

(** X24.  A viewer whose read succeeds never leaves the loading state by
    itself.  After the mount the data URL and the file info are stored and
    the keyboard is listened to, but [isLoading] is still [true], so the
    template shows the spinner and renders neither the image nor the
    video whose load events are what clears [isLoading]: whatever load,
    error, Previous and Next events follow, the viewer's refs do not
    change and the spinner stays. *)
Theorem viewer_stays_loading
    (read_file : list string -> string -> Outcome string)
    (getVideoMimeType : string -> string) (w : World (View Viewer.Refs))
    (p data : string) :
  Viewer.filePath (store w) = Some p ->
  p <> "" ->
  Viewer.isLoading (refs (store w)) = true ->
  read_file (Viewer.reads (refs (store w))) p = Resolved data ->
  let w' := exec (Viewer.onMounted read_file getVideoMimeType) w in
  result (Viewer.onMounted read_file getVideoMimeType) w = Normal tt
  /\ Viewer.isLoading (refs (store w')) = true
  /\ Viewer.shown (store w') = Viewer.spinner
  /\ Viewer.listening (refs (store w')) = true
  /\ Viewer.reads (refs (store w')) = Viewer.reads (refs (store w)) ++ [p]
  /\ (forall t,
        Viewer.fileType (store w) = Some t ->
        JS.startsWith t "image/" = true ->
        Viewer.fileData (refs (store w'))
        = "data:" +:+ t +:+ ";base64," +:+ data)
  /\ (exists info, Viewer.fileInfo (refs (store w')) = Some info
                   /\ path info = p)
  /\ (forall evs,
        refs (store (Viewer.run evs w')) = refs (store w')
        /\ Viewer.shown (store (Viewer.run evs w')) = Viewer.spinner).
Proof.
  intros Hp Hne Hl Hr. cbv zeta.
  pose proof (onMounted_resolved read_file getVideoMimeType w p data
                Hp Hne Hr) as E.
  cbv zeta in E. unfold result. unfold exec.
  destruct (Viewer.onMounted read_file getVideoMimeType w) as [c w1].
  injection E as Ec Ew. subst c. cbn [fst snd].
  assert (L : Viewer.isLoading (refs (store w1)) = true).
  { subst w1. destruct w as [[s rt []] ? ? ?]. exact Hl. }
  split; [reflexivity|]. split; [exact L|].
  split; [unfold Viewer.shown; now rewrite L|].
  split; [subst w1; now destruct w as [[s rt []] ? ? ?]|].
  split; [subst w1; now destruct w as [[s rt []] ? ? ?]|].
  split.
  { intros t Ht Hi. subst w1. destruct w as [[s rt []] ? ? ?].
    cbn [store refs set_refs Viewer.set_listening Viewer.set_fileInfo
         Viewer.set_fileData Viewer.fileData] in *.
    unfold Viewer.isImage, Viewer.type_startsWith.
    rewrite Ht, Hi. reflexivity. }
  split.
  { eexists. split; [subst w1; now destruct w as [[s rt []] ? ? ?]|].
    destruct (Viewer.find_file p (mediaFiles (connectionStore (store w))))
      eqn:Hf; [exact (find_file_path _ _ _ Hf) | reflexivity]. }
  intros evs. destruct (run_while_loading evs w1 L) as (E & _).
  split; [exact E|]. unfold Viewer.shown. now rewrite E, L.
Qed.

Lemma viewer_stays_loading_witness :
  Viewer.filePath (store Scenes2.viewing)
  = Some "/home/ubuntu/Pictures/a.jpg"
  /\ Viewer.fileData
       (refs (store (exec (Viewer.onMounted Scenes2.readable
                             (fun _ => "video/mp4")) Scenes2.viewing)))
     = "data:image/jpeg;base64,AAAA"
  /\ Viewer.shown
       (store (Viewer.run
                 [Viewer.ImageLoad; Viewer.Next; Viewer.VideoLoaded;
                  Viewer.Prev; Viewer.ImageError]
                 (exec (Viewer.onMounted Scenes2.readable
                          (fun _ => "video/mp4")) Scenes2.viewing)))
     = Viewer.spinner.
Proof.
  destruct (viewer_stays_loading Scenes2.readable (fun _ => "video/mp4")
              Scenes2.viewing "/home/ubuntu/Pictures/a.jpg" "AAAA"
              eq_refl ltac:(discriminate) eq_refl eq_refl)
    as (_ & _ & _ & _ & _ & D & _ & S).
  split; [reflexivity|]. split.
  - apply (D "image/jpeg"); reflexivity.
  - apply S.
Defined.
